(** * AioContext wait support and the virtio-scsi CDB length helper

    A shallow embedding of [include/block/aio-wait.h] (the statement macro
    [AIO_WAIT_WHILE] and the [AioWait] object) and of the virtio-scsi
    qtest ([scsi_cdb_length], [virtio_scsi_do_command], [run_cmd],
    [qvirtio_scsi_pci_init], [qvirtio_scsi_pci_free]), with the
    properties their specification states about them.

    Layout: Part I holds the embedding (definitions only), Part II the
    lemmas and theorems the specification asks for, Part III further
    properties of the code. *)

From Stdlib Require Import ZArith List Bool Lia PeanoNat.
From Stdlib Require Import Strings.Byte Sorting.Permutation.
Import ListNotations.

Set Implicit Arguments.

(* ===================================================================== *)
(** * Part I -- the embedding *)
(* ===================================================================== *)

(* --------------------------------------------------------------------- *)
(** ** scsi_cdb_length (virtio-scsi qtest) *)
(* --------------------------------------------------------------------- *)

Section ScsiCdbLength.

(** [VIRTIO_SCSI_CDB_SIZE] comes from
    [standard-headers/linux/virtio_scsi.h]; the test only includes that
    header, so the constant is a parameter here. *)
Variable VIRTIO_SCSI_CDB_SIZE : Z.

(** [uint8_t] promoted to [int], as the operand of [>>]. *)
Definition uint8_to_int (b : byte) : Z := Z.of_N (Byte.to_N b).

(** The group code [buf[0] >> 5]. *)
Definition group_code (b : byte) : Z := Z.shiftr (uint8_to_int b) 5.

(** The [switch] of [scsi_cdb_length], on the already fetched [buf[0]]. *)
Definition cdb_len_of_opcode (b : byte) : Z :=
  match group_code b with
  | 0%Z => 6%Z
  | 1%Z | 2%Z => 10%Z
  | 4%Z => 16%Z
  | 5%Z => 12%Z
  | _ => VIRTIO_SCSI_CDB_SIZE
  end.

(** [int scsi_cdb_length(uint8_t *buf)].  The buffer is the list of
    bytes [buf] points to; the function reads [buf[0]] only.  A buffer
    without a first byte cannot be read at index 0 (undefined behaviour in
    C), which is [None] here. *)
Definition scsi_cdb_length (buf : list byte) : option Z :=
  match buf with
  | [] => None
  | b0 :: _ => Some (cdb_len_of_opcode b0)
  end.

End ScsiCdbLength.

(* --------------------------------------------------------------------- *)
(** ** The AioWait object *)
(* --------------------------------------------------------------------- *)

(** A non-NULL [AioContext *]; a possibly-NULL one is an [option]. *)
Definition AioContext := nat.

(** A [Coroutine *] parked on a [CoQueue]. *)
Definition Coroutine := nat.

(** [CoQueue]: the coroutines waiting on it, head first. *)
Definition CoQueue := list Coroutine.

(** [typedef struct { unsigned num_waiters; CoQueue wait_queue; } AioWait;] *)
Record AioWait : Type := mkAioWait {
  num_waiters : Z;
  wait_queue : CoQueue
}.

(** [unsigned] is 32 bits wide; arithmetic on it wraps around. *)
Definition UINT_MODULUS : Z := 2 ^ 32.

Definition wrap_unsigned (z : Z) : Z := z mod UINT_MODULUS.

(** [atomic_inc(&wait->num_waiters)] and [atomic_dec(&wait->num_waiters)]
    as functions on the object. *)
Definition AioWait_inc (w : AioWait) : AioWait :=
  mkAioWait (wrap_unsigned (num_waiters w + 1)) (wait_queue w).

Definition AioWait_dec (w : AioWait) : AioWait :=
  mkAioWait (wrap_unsigned (num_waiters w - 1)) (wait_queue w).

(* --------------------------------------------------------------------- *)
(** ** Program state, events and the execution monad *)
(* --------------------------------------------------------------------- *)

(** What the macro does that another party can observe, in program order.
    [E_atomic_inc], [E_atomic_dec] and [E_qemu_co_queue_wait] are the only
    accesses to the fields of [*wait_]. *)
Inductive Event : Type :=
| E_qemu_in_coroutine (r : bool)
| E_in_aio_context_home_thread (ctx : AioContext) (r : bool)
| E_assert (holds : bool)
| E_atomic_inc
| E_atomic_dec
| E_cond (r : bool)
| E_qemu_co_queue_wait
| E_aio_poll (ctx : AioContext) (blocking : bool)
| E_aio_context_release (ctx : AioContext)
| E_aio_context_acquire (ctx : AioContext).

Definition Event_eqb (a b : Event) : bool :=
  match a, b with
  | E_qemu_in_coroutine x, E_qemu_in_coroutine y => Bool.eqb x y
  | E_in_aio_context_home_thread c x, E_in_aio_context_home_thread d y =>
      Nat.eqb c d && Bool.eqb x y
  | E_assert x, E_assert y => Bool.eqb x y
  | E_atomic_inc, E_atomic_inc => true
  | E_atomic_dec, E_atomic_dec => true
  | E_cond x, E_cond y => Bool.eqb x y
  | E_qemu_co_queue_wait, E_qemu_co_queue_wait => true
  | E_aio_poll c x, E_aio_poll d y => Nat.eqb c d && Bool.eqb x y
  | E_aio_context_release c, E_aio_context_release d => Nat.eqb c d
  | E_aio_context_acquire c, E_aio_context_acquire d => Nat.eqb c d
  | _, _ => false
  end.

Definition is_cond (e : Event) : bool :=
  match e with E_cond _ => true | _ => false end.

Definition is_aio_poll (e : Event) : bool :=
  match e with E_aio_poll _ _ => true | _ => false end.

Definition is_blocking_aio_poll (e : Event) : bool :=
  match e with E_aio_poll _ true => true | _ => false end.

(** Accesses to [wait_->num_waiters] or [wait_->wait_queue]. *)
Definition touches_AioWait (e : Event) : bool :=
  match e with
  | E_atomic_inc | E_atomic_dec | E_qemu_co_queue_wait => true
  | _ => false
  end.

(** Number of events of a trace that satisfy [p]. *)
Definition count (p : Event -> bool) (tr : list Event) : nat :=
  length (filter p tr).

Definition is_inc (e : Event) : bool := Event_eqb e E_atomic_inc.
Definition is_dec (e : Event) : bool := Event_eqb e E_atomic_dec.
Definition is_co_wait (e : Event) : bool := Event_eqb e E_qemu_co_queue_wait.

(** How a run of a piece of code ends: with a value, in a failed
    [assert] (the process aborts), or still looping when the bound on loop
    iterations that the embedding carries is used up. *)
Inductive Res (A : Type) : Type :=
| Val (a : A)
| Abort
| Spin.

Arguments Abort {A}.
Arguments Spin {A}.

Section Machine.

(** Everything in the process apart from [*wait_]: the contexts, their
    locks, the other threads and coroutines, the data [cond] reads. *)
Variable World : Type.

Record State : Type := mkState {
  aio_wait : AioWait;      (* the object [wait_] points to *)
  world : World
}.

(** The state of a run: the shared state, the macro's local [waited_],
    and the events so far. *)
Record Machine : Type := mkMachine {
  st : State;
  waited_ : bool;
  trace : list Event
}.

Definition M (A : Type) : Type := Machine -> Res A * Machine.

Definition ret {A} (a : A) : M A := fun m => (Val a, m).

Definition bind {A B} (c : M A) (k : A -> M B) : M B :=
  fun m =>
    match c m with
    | (Val a, m') => k a m'
    | (Abort, m') => (Abort, m')
    | (Spin, m') => (Spin, m')
    end.

Definition emit (e : Event) : M unit :=
  fun m => (Val tt, mkMachine (st m) (waited_ m) (trace m ++ [e])).

Definition update (f : State -> State) : M unit :=
  fun m => (Val tt, mkMachine (f (st m)) (waited_ m) (trace m)).

Definition query {A} (f : State -> A) : M A :=
  fun m => (Val (f (st m)), m).

Definition set_waited_ (b : bool) : M unit :=
  fun m => (Val tt, mkMachine (st m) b (trace m)).

Definition get_waited_ : M bool :=
  fun m => (Val (waited_ m), m).

Definition abort {A} : M A := fun m => (Abort, m).

Definition spin {A} : M A := fun m => (Spin, m).

End Machine.

Arguments ret {World A} a.
Arguments bind {World A B} c k.
Arguments emit {World} e.
Arguments update {World} f.
Arguments query {World A} f.
Arguments set_waited_ {World} b.
Arguments get_waited_ {World}.
Arguments abort {World A}.
Arguments spin {World A}.

Declare Scope aio_scope.
Delimit Scope aio_scope with aio.

Notation "x <- c ;; k" := (bind c (fun x => k))
  (at level 61, c at next level, right associativity) : aio_scope.
Notation "c ;; k" := (bind c (fun _ => k))
  (at level 61, right associativity) : aio_scope.

Local Open Scope aio_scope.

(* --------------------------------------------------------------------- *)
(** ** The functions AIO_WAIT_WHILE calls *)
(* --------------------------------------------------------------------- *)

(** [block/aio.h] and [qemu/coroutine.h] are only included by the header;
    what their functions do to the process is a parameter of the
    embedding.  Each may change any part of the state: a blocking
    [aio_poll] or a coroutine yield lets arbitrary other code run. *)
Record Env (World : Type) : Type := mkEnv {
  qemu_in_coroutine : State World -> bool;
  in_aio_context_home_thread : AioContext -> State World -> bool;
  qemu_get_current_aio_context : State World -> AioContext;
  (* the main loop's context, fixed when the main loop is set up *)
  qemu_get_aio_context : AioContext;
  (* enqueue the running coroutine on the queue and yield; the result is
     the state in which the coroutine is resumed *)
  qemu_co_queue_wait : State World -> State World;
  aio_poll : AioContext -> bool -> State World -> State World;
  aio_context_release : AioContext -> State World -> State World;
  aio_context_acquire : AioContext -> State World -> State World
}.

Section Macro.

Variable World : Type.
Variable env : Env World.

(** The macro argument [cond]: an expression evaluated in the current
    state; it may have side effects. *)
Definition Cond : Type := State World -> bool * State World.

Definition on_wait (f : AioWait -> AioWait) (s : State World) : State World :=
  mkState (f (aio_wait s)) (world s).

Definition atomic_inc_num_waiters : M World unit :=
  emit E_atomic_inc ;; update (on_wait AioWait_inc).

Definition atomic_dec_num_waiters : M World unit :=
  emit E_atomic_dec ;; update (on_wait AioWait_dec).

Definition call_qemu_in_coroutine : M World bool :=
  r <- query (qemu_in_coroutine env) ;;
  emit (E_qemu_in_coroutine r) ;;
  ret r.

Definition call_in_aio_context_home_thread (ctx : AioContext) : M World bool :=
  r <- query (in_aio_context_home_thread env ctx) ;;
  emit (E_in_aio_context_home_thread ctx r) ;;
  ret r.

Definition call_qemu_co_queue_wait : M World unit :=
  emit E_qemu_co_queue_wait ;; update (qemu_co_queue_wait env).

Definition call_aio_poll (ctx : AioContext) (blocking : bool) : M World unit :=
  emit (E_aio_poll ctx blocking) ;; update (aio_poll env ctx blocking).

Definition call_aio_context_release (ctx : AioContext) : M World unit :=
  emit (E_aio_context_release ctx) ;; update (aio_context_release env ctx).

Definition call_aio_context_acquire (ctx : AioContext) : M World unit :=
  emit (E_aio_context_acquire ctx) ;; update (aio_context_acquire env ctx).

Definition eval_cond (cond : Cond) : M World bool :=
  fun m =>
    let (r, s') := cond (st m) in
    (Val r, mkMachine s' (waited_ m) (trace m ++ [E_cond r])).

(** [assert(e)]: abort the process when [e] is false. *)
Definition assert (e : State World -> bool) : M World unit :=
  ok <- query e ;;
  emit (E_assert ok) ;;
  if ok then ret tt else abort.

(** [while (c) { body }].  [fuel] bounds the number of evaluations of
    [c]; a loop that is still running after that many gives [Spin]. *)
Fixpoint while_ (fuel : nat) (c : M World bool) (body : M World unit)
  : M World unit :=
  match fuel with
  | O => spin
  | S fuel' =>
      b <- c ;;
      if b then body ;; while_ fuel' c body else ret tt
  end.

(** [if (ctx_) { f(ctx_); }] *)
Definition if_ctx (ctx_ : option AioContext) (f : AioContext -> M World unit)
  : M World unit :=
  match ctx_ with
  | Some c => f c
  | None => ret tt
  end.

(** The body of the coroutine branch's loop (lines 86-88). *)
Definition coroutine_body : M World unit :=
  atomic_inc_num_waiters ;;
  call_qemu_co_queue_wait ;;
  atomic_dec_num_waiters.

(** The body of the home-thread branch's loop (lines 92-93). *)
Definition home_body (c : AioContext) : M World unit :=
  call_aio_poll c true ;;
  set_waited_ true.

(** The body of the last branch's loop (lines 101-108). *)
Definition foreign_body (ctx_ : option AioContext) : M World unit :=
  if_ctx ctx_ call_aio_context_release ;;
  call_aio_poll (qemu_get_aio_context env) true ;;
  if_ctx ctx_ call_aio_context_acquire ;;
  set_waited_ true.

(** What one run of [foreign_body] does to the state. *)
Definition foreign_step (ctx_ : option AioContext) (s : State World)
  : State World :=
  match ctx_ with
  | Some c =>
      aio_context_acquire env c
        (aio_poll env (qemu_get_aio_context env) true
           (aio_context_release env c s))
  | None => aio_poll env (qemu_get_aio_context env) true s
  end.

(** The branch taken in a coroutine (lines 85-89). *)
Definition coroutine_branch (fuel : nat) (cond : Cond) : M World unit :=
  while_ fuel (eval_cond cond) coroutine_body.

(** The branch taken in the home thread of [ctx_] (lines 91-94). *)
Definition home_branch (fuel : nat) (c : AioContext) (cond : Cond)
  : M World unit :=
  while_ fuel (eval_cond cond) (home_body c).

(** The last branch (lines 96-110). *)
Definition foreign_branch (fuel : nat) (ctx_ : option AioContext)
    (cond : Cond) : M World unit :=
  assert (fun s => Nat.eqb (qemu_get_current_aio_context env s)
                           (qemu_get_aio_context env)) ;;
  (* Increment wait_->num_waiters before evaluating cond. *)
  atomic_inc_num_waiters ;;
  while_ fuel (eval_cond cond) (foreign_body ctx_) ;;
  atomic_dec_num_waiters.

(** [AIO_WAIT_WHILE(wait, ctx, cond)], a statement expression whose value
    is [waited_].  [wait_] is the [aio_wait] component of the state.  In
    [ctx_ && in_aio_context_home_thread(ctx_)] the call is not made when
    [ctx_] is NULL. *)
Definition AIO_WAIT_WHILE (fuel : nat) (ctx_ : option AioContext)
    (cond : Cond) : M World bool :=
  set_waited_ false ;;
  in_co <- call_qemu_in_coroutine ;;
  (if in_co then
     coroutine_branch fuel cond
   else
     match ctx_ with
     | Some c =>
         home <- call_in_aio_context_home_thread c ;;
         if home then home_branch fuel c cond
         else foreign_branch fuel ctx_ cond
     | None => foreign_branch fuel ctx_ cond
     end) ;;
  get_waited_.

(** A run of the macro from state [s]. *)
Definition run_AIO_WAIT_WHILE (fuel : nat) (ctx_ : option AioContext)
    (cond : Cond) (s : State World) : Res bool * Machine World :=
  AIO_WAIT_WHILE fuel ctx_ cond (mkMachine s false []).

End Macro.

(* --------------------------------------------------------------------- *)
(** ** A small process to run the macro in *)
(* --------------------------------------------------------------------- *)

(** The world is the number of event-loop iterations (or coroutine
    resumptions) after which the awaited work is done.  The main loop's
    context is 0; [in_co] says whether the caller is a coroutine, [home]
    which context the calling thread owns. *)
Definition countdown_env (in_co : bool) (home : AioContext) : Env nat :=
  {| qemu_in_coroutine := fun _ => in_co;
     in_aio_context_home_thread := fun c _ => Nat.eqb c home;
     qemu_get_current_aio_context := fun _ => home;
     qemu_get_aio_context := 0;
     qemu_co_queue_wait := fun s => mkState (aio_wait s) (pred (world s));
     aio_poll := fun _ _ s => mkState (aio_wait s) (pred (world s));
     aio_context_release := fun _ s => s;
     aio_context_acquire := fun _ s => s |}.

(** [cond]: the work is not done yet. *)
Definition countdown_cond : Cond nat :=
  fun s => (negb (Nat.eqb (world s) 0), s).

Definition countdown_start (n : nat) : State nat :=
  mkState (mkAioWait 0 []) n.

(* --------------------------------------------------------------------- *)
(** ** Unrolling a loop *)
(* --------------------------------------------------------------------- *)

Section Unroll.

Variable World : Type.
Variable cond : Cond World.
Variable body : M World unit.

(** The value [cond] has in the state of [m]. *)
Definition cond_value (m : Machine World) : bool := fst (cond (st m)).

(** The machine after one evaluation of [cond], and after one run of the
    loop body. *)
Definition after_cond (m : Machine World) : Machine World :=
  snd (eval_cond cond m).

Definition after_body (m : Machine World) : Machine World :=
  snd (body m).

(** The machine after [n] iterations (test, then body) from [m]. *)
Fixpoint unroll (n : nat) (m : Machine World) : Machine World :=
  match n with
  | O => m
  | S k => unroll k (after_body (after_cond m))
  end.

End Unroll.

(** The events of [n] iterations of a loop whose body leaves the events
    [blk]: each iteration evaluates the condition to true first. *)
Definition iterations (blk : list Event) (n : nat) : list Event :=
  concat (repeat (E_cond true :: blk) n).

(** What one iteration of each loop body leaves in the trace. *)
Definition coroutine_events : list Event :=
  [E_atomic_inc; E_qemu_co_queue_wait; E_atomic_dec].

Definition home_events (c : AioContext) : list Event :=
  [E_aio_poll c true].

Definition foreign_events (global : AioContext) (ctx_ : option AioContext)
  : list Event :=
  match ctx_ with
  | Some c => [E_aio_context_release c; E_aio_poll global true;
               E_aio_context_acquire c]
  | None => [E_aio_poll global true]
  end.

(** The events that select the branch, for a caller outside coroutines
    that does not own [ctx_]. *)
Definition foreign_selection (ctx_ : option AioContext) : list Event :=
  match ctx_ with
  | Some c => [E_qemu_in_coroutine false; E_in_aio_context_home_thread c false]
  | None => [E_qemu_in_coroutine false]
  end.

(** The three ways a caller can stand to [ctx_]. *)
Inductive Path : Type :=
| CoroutinePath
| HomeThreadPath (c : AioContext)
| ForeignThreadPath.

Definition select_path {World} (env : Env World) (ctx_ : option AioContext)
    (s : State World) : Path :=
  if qemu_in_coroutine env s then CoroutinePath
  else match ctx_ with
       | Some c => if in_aio_context_home_thread env c s
                   then HomeThreadPath c else ForeignThreadPath
       | None => ForeignThreadPath
       end.

(* --------------------------------------------------------------------- *)
(** ** Outcomes of a run, by branch *)
(* --------------------------------------------------------------------- *)

(** The value of the first evaluation of [cond] in a trace, if any. *)
Definition first_cond (tr : list Event) : option bool :=
  match find is_cond tr with
  | Some (E_cond b) => Some b
  | _ => None
  end.

Section Outcomes.

Variable World : Type.

(** A run through the coroutine branch: it suspended [n] times, then
    either found [cond] false and returned false, or is still looping. *)
Definition coroutine_outcome (fuel : nat) (out : Res bool * Machine World)
  : Prop :=
  exists n,
    (n < fuel /\ fst out = Val false /\
     trace (snd out) =
       E_qemu_in_coroutine true :: iterations coroutine_events n
         ++ [E_cond false])
    \/
    (n = fuel /\ fst out = Spin /\
     trace (snd out) =
       E_qemu_in_coroutine true :: iterations coroutine_events n).

(** A run through the home-thread branch for context [c]. *)
Definition home_outcome (c : AioContext) (fuel : nat)
    (out : Res bool * Machine World) : Prop :=
  exists n,
    (n < fuel /\ fst out = Val (0 <? n) /\
     trace (snd out) =
       [E_qemu_in_coroutine false; E_in_aio_context_home_thread c true]
         ++ iterations (home_events c) n ++ [E_cond false])
    \/
    (n = fuel /\ fst out = Spin /\
     trace (snd out) =
       [E_qemu_in_coroutine false; E_in_aio_context_home_thread c true]
         ++ iterations (home_events c) n).

(** A run through the last branch, where the main loop's context is
    [g]. *)
Definition foreign_outcome (g : AioContext) (ctx_ : option AioContext)
    (fuel : nat) (out : Res bool * Machine World) : Prop :=
  (fst out = Abort /\
   trace (snd out) = foreign_selection ctx_ ++ [E_assert false])
  \/
  exists n,
    (n < fuel /\ fst out = Val (0 <? n) /\
     trace (snd out) =
       foreign_selection ctx_ ++ [E_assert true; E_atomic_inc]
         ++ iterations (foreign_events g ctx_) n
         ++ [E_cond false; E_atomic_dec])
    \/
    (n = fuel /\ fst out = Spin /\
     trace (snd out) =
       foreign_selection ctx_ ++ [E_assert true; E_atomic_inc]
         ++ iterations (foreign_events g ctx_) n).

(** The outcome that belongs to a path. *)
Definition path_outcome (g : AioContext) (ctx_ : option AioContext)
    (fuel : nat) (p : Path) (out : Res bool * Machine World) : Prop :=
  match p with
  | CoroutinePath => coroutine_outcome fuel out
  | HomeThreadPath c => home_outcome c fuel out
  | ForeignThreadPath => foreign_outcome g ctx_ fuel out
  end.

(** [f] leaves [wait_->num_waiters] as it finds it. *)
Definition keeps_num_waiters (f : State World -> State World) : Prop :=
  forall s, num_waiters (aio_wait (f s)) = num_waiters (aio_wait s).

(** [f] leaves the whole of [*wait_] as it finds it. *)
Definition keeps_AioWait (f : State World -> State World) : Prop :=
  forall s, aio_wait (f s) = aio_wait s.

End Outcomes.

(* --------------------------------------------------------------------- *)
(** ** Code that does not look at the AioWait object *)
(* --------------------------------------------------------------------- *)

Section Oblivious.

Variable World : Type.

(** The state with [a] written over [*wait_]. *)
Definition set_wait (a : AioWait) (s : State World) : State World :=
  mkState a (world s).

(** [f] neither reads nor writes [*wait_]: it runs the same whatever the
    object holds, and leaves the object as it is. *)
Definition ignores_AioWait (f : State World -> State World) : Prop :=
  forall a s, f (set_wait a s) = set_wait a (f s).

(** The same for the expression [cond]. *)
Definition cond_ignores_AioWait (cond : Cond World) : Prop :=
  forall a s, cond (set_wait a s) = (fst (cond s), set_wait a (snd (cond s))).

(** [cond] leaves [wait_->num_waiters] as it finds it. *)
Definition cond_keeps_num_waiters (cond : Cond World) : Prop :=
  keeps_num_waiters (fun s => snd (cond s)).

End Oblivious.

(* --------------------------------------------------------------------- *)
(** ** aio_wait_kick and the coroutines parked in AIO_WAIT_WHILE *)
(* --------------------------------------------------------------------- *)

Section Kick.

(** The data the conditions of the waiting coroutines read. *)
Variable World : Type.

(** Modelled from the spec: the header only declares [aio_wait_kick], and
    the coroutine scheduler ([qemu/coroutine.h]) is not in the sources.
    This is the scheduler's view of one coordinator (sections 3 and 4.1):
    the [AioWait] object with its waiter count and its FIFO wait list, the
    [condition_probe] each parked task waits on (side-effect free), the
    data the probes read, and a log of which tasks were resumed, which
    returned from their wait, and how often the shared global loop was
    unblocked. *)
Record Sched : Type := mkSched {
  coordinator : AioWait;
  probe : Coroutine -> World -> bool;
  shared : World;
  resumed : list Coroutine;
  returned : list Coroutine;
  global_loop_unblocked : nat
}.

(** Modelled from the spec: what a task parked in path 1 does when it is
    resumed (section 4.1, path 1, which is lines 85-89 of the macro after
    the return of [qemu_co_queue_wait]): decrement [waiter_count], re-test
    its own condition; if it still holds, increment [waiter_count] and
    suspend onto the tail of [wait_list] again, otherwise return from the
    wait. *)
Definition resume_task (co : Coroutine) (sc : Sched) : Sched :=
  let w := AioWait_dec (coordinator sc) in
  if probe sc co (shared sc) then
    mkSched
      (mkAioWait (num_waiters (AioWait_inc w)) (wait_queue w ++ [co]))
      (probe sc) (shared sc) (resumed sc ++ [co]) (returned sc)
      (global_loop_unblocked sc)
  else
    mkSched w (probe sc) (shared sc) (resumed sc ++ [co])
      (returned sc ++ [co]) (global_loop_unblocked sc).

(** Modelled from the spec: [kick] (section 4.2).  It resumes every task
    that is on [wait_list] when it is called, in FIFO order, and unblocks
    the shared global loop.  The spec lets an implementation skip both
    when it reads a waiter count of zero; [fast_path] says whether this
    implementation does. *)
Definition aio_wait_kick (fast_path : bool) (sc : Sched) : Sched :=
  if fast_path && Z.eqb (num_waiters (coordinator sc)) 0 then sc
  else
    let parked := wait_queue (coordinator sc) in
    let sc0 :=
      mkSched (mkAioWait (num_waiters (coordinator sc)) [])
        (probe sc) (shared sc) (resumed sc) (returned sc)
        (global_loop_unblocked sc) in
    let sc1 := fold_left (fun acc co => resume_task co acc) parked sc0 in
    mkSched (coordinator sc1) (probe sc1) (shared sc1) (resumed sc1)
      (returned sc1) (S (global_loop_unblocked sc1)).

(** Modelled from the spec: invariant I2 of section 3 for a coordinator
    whose waiters are all coroutines: the count is at least the number of
    parked tasks (and is a value of its type, [unsigned]). *)
Definition I2 (sc : Sched) : Prop :=
  (Z.of_nat (length (wait_queue (coordinator sc)))
   <= num_waiters (coordinator sc) < UINT_MODULUS)%Z.

End Kick.

(* --------------------------------------------------------------------- *)
(** ** aio_wait_bh_oneshot over a model of the event loops *)
(* --------------------------------------------------------------------- *)

(** A [QEMUBHFunc] together with its [opaque]. *)
Definition Callback := nat.

(** An [AioWaitBHData] request, by the address of its [done] flag. *)
Definition Request := nat.

(** Modelled from the spec: a deferred callback scheduled on an event
    loop context (section 2, [schedule]; glossary, "Deferred callback"):
    the context it is to run on and the user callback; [for_request] is
    [Some r] when it is the wrapper of section 4.3 for request [r], which
    after the user callback sets the request's [done] and kicks. *)
Record Deferred : Type := mkDeferred {
  target : AioContext;
  user_cb : Callback;
  for_request : option Request
}.

(** Modelled from the spec: the event loops as the main thread sees them
    (sections 2, 4.3 and 5).  [pending] holds the scheduled callbacks in
    submission order; [executed] logs each callback run together with the
    context on whose execution stream it ran; [done] are the flags of the
    requests; [held] counts how often the main thread holds each context's
    access token; [kicks] counts the kicks.  [progress] is the scheduling
    of the other threads, which the model does not choose: its k-th entry
    lists the contexts whose home threads complete an iteration while the
    main thread is in its k-th blocking poll. *)
Record Loop : Type := mkLoop {
  pending : list Deferred;
  executed : list (AioContext * Deferred);
  done : Request -> bool;
  next_request : Request;
  held : AioContext -> nat;
  progress : list (list AioContext);
  kicks : nat
}.

(** The main loop's context. *)
Definition main_context : AioContext := 0.

Definition on_context (c : AioContext) (d : Deferred) : bool :=
  Nat.eqb (target d) c.

Definition set_flag (r : Request) (b : bool) (f : Request -> bool)
  : Request -> bool :=
  fun q => if Nat.eqb q r then b else f q.

(** Modelled from the spec: running one deferred callback on the stream
    of context [c].  The user callback is logged; the wrapper of section
    4.3 then sets [done] and calls [kick]. *)
Definition run_deferred (c : AioContext) (w : Loop) (d : Deferred) : Loop :=
  match for_request d with
  | Some r =>
      mkLoop (pending w) (executed w ++ [(c, d)]) (set_flag r true (done w))
        (next_request w) (held w) (progress w) (S (kicks w))
  | None =>
      mkLoop (pending w) (executed w ++ [(c, d)]) (done w)
        (next_request w) (held w) (progress w) (kicks w)
  end.

(** Modelled from the spec: one iteration of context [c] on its home
    thread ([run_iteration], section 2): the callbacks pending for [c]
    run, in submission order, each once. *)
Definition run_iteration (c : AioContext) (w : Loop) : Loop :=
  fold_left (run_deferred c)
    (filter (on_context c) (pending w))
    (mkLoop (filter (fun d => negb (on_context c d)) (pending w))
       (executed w) (done w) (next_request w) (held w) (progress w)
       (kicks w)).

(** Modelled from the spec: the home thread of [c] can make progress
    only while the main thread does not hold the token of [c] (section
    4.1, path 3: the token is released "so the owning thread can make
    progress"); the main loop's own context is driven by the main
    thread. *)
Definition runnable (c : AioContext) (w : Loop) : bool :=
  negb (Nat.eqb c main_context) && Nat.eqb (held w c) 0.

Definition run_if_runnable (w : Loop) (c : AioContext) : Loop :=
  if runnable c w then run_iteration c w else w.

(** Modelled from the spec: what the other threads do while the main
    thread is blocked in a poll (section 5): the next entry of [progress]
    is consumed. *)
Definition others_progress (w : Loop) : Loop :=
  match progress w with
  | [] => w
  | now :: later =>
      fold_left run_if_runnable now
        (mkLoop (pending w) (executed w) (done w) (next_request w) (held w)
           later (kicks w))
  end.

Definition on_world {World} (f : World -> World) (s : State World)
  : State World :=
  mkState (aio_wait s) (f (world s)).

(** Modelled from the spec: [aio_context_release] and
    [aio_context_acquire] ([block/aio.h], not in the sources) as the
    release and the reacquisition of the per-context access token of
    section 4.1, counted per context. *)
Definition release_token (c : AioContext) (w : Loop) : Loop :=
  mkLoop (pending w) (executed w) (done w) (next_request w)
    (fun x => if Nat.eqb x c then pred (held w x) else held w x)
    (progress w) (kicks w).

Definition acquire_token (c : AioContext) (w : Loop) : Loop :=
  mkLoop (pending w) (executed w) (done w) (next_request w)
    (fun x => if Nat.eqb x c then S (held w x) else held w x)
    (progress w) (kicks w).

(** Modelled from the spec: the collaborators of [AIO_WAIT_WHILE] for a
    caller that is the main thread and not a coroutine (section 4.3).  A
    blocking poll lets the other threads run, then runs the iteration of
    the polled context. *)
Definition loop_env : Env Loop :=
  {| qemu_in_coroutine := fun _ => false;
     in_aio_context_home_thread := fun c _ => Nat.eqb c main_context;
     qemu_get_current_aio_context := fun _ => main_context;
     qemu_get_aio_context := main_context;
     qemu_co_queue_wait := fun s => s;
     aio_poll := fun c blocking =>
       on_world (fun w =>
         run_iteration c (if blocking then others_progress w else w));
     aio_context_release := fun c => on_world (release_token c);
     aio_context_acquire := fun c => on_world (acquire_token c) |}.

(** Modelled from the spec: the predicate [() => !done] of section 4.3,
    on the flag of request [r]. *)
Definition not_done (r : Request) : Cond Loop :=
  fun s => (negb (done (world s) r), s).

(** Modelled from the spec: allocating the request with [done = false]
    and scheduling the wrapper on [ctx] (section 4.3). *)
Definition schedule_oneshot (ctx : AioContext) (cb : Callback) (w : Loop)
  : Loop :=
  let r := next_request w in
  mkLoop (pending w ++ [mkDeferred ctx cb (Some r)]) (executed w)
    (set_flag r false (done w)) (S r) (held w) (progress w) (kicks w).

(** Modelled from the spec: [aio_wait_bh_oneshot(ctx, cb, opaque)]
    ([run_once_and_wait], section 4.3); the header declares it only.  It
    schedules the wrapper and waits with [AIO_WAIT_WHILE(wait, ctx,
    !data.done)].  The result is how the call ends and the state it
    leaves. *)
Definition aio_wait_bh_oneshot (fuel : nat) (ctx : AioContext)
    (cb : Callback) (s : State Loop) : Res unit * State Loop :=
  let r := next_request (world s) in
  let out := run_AIO_WAIT_WHILE loop_env fuel (Some ctx) (not_done r)
               (on_world (schedule_oneshot ctx cb) s) in
  match fst out with
  | Val _ => (Val tt, st (snd out))
  | Abort => (Abort, st (snd out))
  | Spin => (Spin, st (snd out))
  end.

(** Modelled from the spec: calls made back to back (section 8,
    "DeferredOneShot exactly-once execution"), each after the one before
    has returned. *)
Fixpoint oneshot_each (fuel : nat) (ctx : AioContext) (cbs : list Callback)
    (s : State Loop) : Res unit * State Loop :=
  match cbs with
  | [] => (Val tt, s)
  | cb :: rest =>
      match aio_wait_bh_oneshot fuel ctx cb s with
      | (Val _, s') => oneshot_each fuel ctx rest s'
      | stopped => stopped
      end
  end.

(** The callbacks of the requests numbered from [r0] on. *)
Definition recent (r0 : Request) (d : Deferred) : bool :=
  match for_request d with
  | Some q => Nat.leb r0 q
  | None => false
  end.

(** The log entries expected of the calls for [cbs], the first of which
    made request [r]. *)
Fixpoint expected_log (ctx : AioContext) (r : Request) (cbs : list Callback)
  : list (AioContext * Deferred) :=
  match cbs with
  | [] => []
  | cb :: rest =>
      (ctx, mkDeferred ctx cb (Some r)) :: expected_log ctx (S r) rest
  end.

(** A main thread about to wait for an IOThread's context 7, of which it
    holds the token once; the IOThread has older work pending and gets to
    run during the second and third poll. *)
Definition oneshot_start : State Loop :=
  mkState (mkAioWait 0 [])
    (mkLoop [mkDeferred 7 100 None; mkDeferred 0 101 None] [] (fun _ => false)
       5 (fun c => if Nat.eqb c 7 then 1 else 0) [[3]; [7]; [7; 3]] 0).

(** The wrapper for request [r]. *)
Definition is_for (r : Request) (d : Deferred) : bool :=
  match for_request d with
  | Some q => Nat.eqb q r
  | None => false
  end.

(** The pending callbacks and the log, restricted to the requests
    numbered from [r0] on. *)
Definition recent_pending (r0 : Request) (w : Loop) : list Deferred :=
  filter (recent r0) (pending w).

Definition recent_executed (r0 : Request) (w : Loop)
  : list (AioContext * Deferred) :=
  filter (fun e => recent r0 (snd e)) (executed w).

(** The two stages of a call for request [r] with callback [cb] on
    [ctx], where [log] is what the earlier calls left: the wrapper is
    scheduled and has not run, or it has run, on [ctx], and is gone. *)
Definition scheduled (r0 : Request) (log : list (AioContext * Deferred))
    (ctx : AioContext) (cb : Callback) (r : Request) (w : Loop) : Prop :=
  recent_pending r0 w = [mkDeferred ctx cb (Some r)] /\
  recent_executed r0 w = log /\
  done w r = false.

Definition ran (r0 : Request) (log : list (AioContext * Deferred))
    (ctx : AioContext) (cb : Callback) (r : Request) (w : Loop) : Prop :=
  recent_pending r0 w = [] /\
  recent_executed r0 w = log ++ [(ctx, mkDeferred ctx cb (Some r))] /\
  done w r = true.

(** The stage of the request, with what no iteration changes: the next
    request number and how often the token of [ctx] is held. *)
Definition pending_or_ran (r0 : Request) (log : list (AioContext * Deferred))
    (ctx : AioContext) (cb : Callback) (r : Request) (h : nat) (w : Loop)
  : Prop :=
  (scheduled r0 log ctx cb r w \/ ran r0 log ctx cb r w) /\
  next_request w = S r /\ held w ctx = h.

(** What is left of [progress] once the home thread of [ctx] has had its
    turn, if it ever has. *)
Fixpoint after_turn (ctx : AioContext) (l : list (list AioContext))
  : option (list (list AioContext)) :=
  match l with
  | [] => None
  | now :: later =>
      if existsb (Nat.eqb ctx) now then Some later else after_turn ctx later
  end.

(** [progress] gives the home thread of [ctx] a turn for each of [n]
    calls in a row. *)
Fixpoint serves (ctx : AioContext) (n : nat) (l : list (list AioContext))
  : bool :=
  match n with
  | O => true
  | S n' =>
      match after_turn ctx l with
      | Some later => serves ctx n' later
      | None => false
      end
  end.

(** What one iteration of the wait loop does to the event loops: on the
    home-thread path, and on the last path for a non-NULL [ctx]. *)
Definition home_world_step (c : AioContext) (w : Loop) : Loop :=
  run_iteration c (others_progress w).

Definition foreign_world_step (ctx : AioContext) (w : Loop) : Loop :=
  acquire_token ctx
    (run_iteration main_context (others_progress (release_token ctx w))).

(** Three coroutines parked on one coordinator; coroutine [co] waits
    while the shared value is below [co].  The value is 11: the waits of
    10 and 11 are over, 12 has to go on waiting. *)
Definition kick_example : Sched nat :=
  mkSched (mkAioWait 3 [10; 12; 11]) (fun co w => Nat.ltb w co) 11 [] [] 0.

(* --------------------------------------------------------------------- *)
(** ** More kinds of events *)
(* --------------------------------------------------------------------- *)

Definition is_release (e : Event) : bool :=
  match e with E_aio_context_release _ => true | _ => false end.

Definition is_acquire (e : Event) : bool :=
  match e with E_aio_context_acquire _ => true | _ => false end.

Definition is_assert (e : Event) : bool :=
  match e with E_assert _ => true | _ => false end.

(** [cond] has no side effects. *)
Definition cond_pure {World} (cond : Cond World) : Prop :=
  forall s, snd (cond s) = s.

(** The value of [cond] does not depend on what [*wait_] holds. *)
Definition cond_blind_to_AioWait {World} (cond : Cond World) : Prop :=
  forall a s, fst (cond (set_wait a s)) = fst (cond s).

Definition is_in_coroutine_query (e : Event) : bool :=
  match e with E_qemu_in_coroutine _ => true | _ => false end.

Definition is_home_thread_query (e : Event) : bool :=
  match e with E_in_aio_context_home_thread _ _ => true | _ => false end.

(* --------------------------------------------------------------------- *)
(** ** The state a wait goes through *)
(* --------------------------------------------------------------------- *)

Section PathStates.

Variable World : Type.
Variable env : Env World.

(** [n] times [f], the first application innermost. *)
Fixpoint repeat_step (f : State World -> State World) (n : nat)
    (s : State World) : State World :=
  match n with
  | O => s
  | S k => repeat_step f k (f s)
  end.

(** What one iteration of the loop of a path does to the state, apart
    from evaluating [cond]. *)
Definition path_step (ctx_ : option AioContext) (p : Path)
  : State World -> State World :=
  match p with
  | CoroutinePath =>
      fun s => on_wait AioWait_dec
                 (qemu_co_queue_wait env (on_wait AioWait_inc s))
  | HomeThreadPath c => aio_poll env c true
  | ForeignThreadPath => foreign_step env ctx_
  end.

(** What a path does before its loop and after it. *)
Definition path_entry (p : Path) (s : State World) : State World :=
  match p with
  | ForeignThreadPath => on_wait AioWait_inc s
  | _ => s
  end.

Definition path_exit (p : Path) (s : State World) : State World :=
  match p with
  | ForeignThreadPath => on_wait AioWait_dec s
  | _ => s
  end.

(** The value of a call that left its loop after [n] iterations. *)
Definition path_value (p : Path) (n : nat) : bool :=
  match p with
  | CoroutinePath => false
  | _ => Nat.ltb 0 n
  end.

End PathStates.

(* --------------------------------------------------------------------- *)
(** ** The virtio-scsi qtest: sending one command *)
(* --------------------------------------------------------------------- *)

(** A guest address ([uint64_t]). *)
Definition GuestAddr := Z.

(** A non-NULL [QVirtQueue *]; a possibly-NULL one is an [option]. *)
Definition QVirtQueue := nat.

(** A host buffer handed to [memwrite]: the request header built by
    [virtio_scsi_do_command] (its [lun] bytes 0 and 1 and its [cdb]; the
    other fields are zero), the initial response header (its [response]
    and [status]; the other fields are zero), or a buffer of the caller. *)
Inductive HostData : Type :=
| D_req (lun0 lun1 : Z) (cdb : list byte)
| D_resp (response status : Z)
| D_bytes (data : list byte).

(** The fields of [struct virtio_scsi_cmd_resp] the test looks at. *)
Record CmdResp : Type := mkCmdResp {
  r_response : Z;
  r_status : Z;
  r_sense : nat -> Z
}.

(** The calls the test makes into libqtest and libqos, in program
    order, with their arguments and results. *)
Inductive TEvent : Type :=
| T_guest_alloc (size : Z) (addr : GuestAddr)
| T_memwrite (addr : GuestAddr) (data : HostData) (size : Z)
| T_qvirtqueue_add (vq : option QVirtQueue) (addr : GuestAddr) (len : Z)
    (write next : bool) (head : Z)
| T_qvirtqueue_kick (vq : option QVirtQueue) (free_head : Z)
| T_qvirtio_wait_queue_isr (vq : option QVirtQueue) (timeout_us : Z)
| T_readb (addr : GuestAddr) (value : Z)
| T_memread (addr : GuestAddr) (size : Z)
| T_guest_free (addr : GuestAddr)
| T_pc_alloc_init
| T_qpci_init_pc
| T_qvirtio_pci_device_find (found : bool)
| T_qvirtio_pci_device_enable
| T_qvirtio_reset
| T_qvirtio_set_acknowledge
| T_qvirtio_set_driver
| T_qvirtio_config_readl (addr : Z) (value : Z)
| T_qvirtqueue_setup (index : Z) (vq : QVirtQueue)
| T_qvirtqueue_cleanup (vq : option QVirtQueue)
| T_pc_alloc_uninit
| T_qvirtio_pci_device_disable
| T_g_free_dev
| T_qpci_free_pc.

(** How a piece of the test ends: with a value, aborted (a failed
    [g_assert], or an allocation GLib cannot satisfy), or in undefined
    behaviour (a read or write outside an array). *)
Inductive QRes (A : Type) : Type :=
| QVal (a : A)
| QAssertFailed
| QUndefined.

Arguments QAssertFailed {A}.
Arguments QUndefined {A}.

(** The PCI device [qvirtio_pci_device_find] returns. *)
Record QVirtioPCIDevice : Type := mkDevice {
  device_type : Z;
  dev_addr : Z
}.

Section Qtest.

(** The guest, the device and the allocator. *)
Variable World : Type.

Record QState : Type := mkQState {
  qworld : World;
  qlog : list TEvent
}.

Definition Q (A : Type) : Type := QState -> QRes A * QState.

Definition qret {A} (a : A) : Q A := fun q => (QVal a, q).

Definition qbind {A B} (c : Q A) (k : A -> Q B) : Q B :=
  fun q =>
    match c q with
    | (QVal a, q') => k a q'
    | (QAssertFailed, q') => (QAssertFailed, q')
    | (QUndefined, q') => (QUndefined, q')
    end.

(** A call of an external function that returns a value. *)
Definition qcall {A} (f : World -> A * World) (ev : A -> TEvent) : Q A :=
  fun q =>
    (QVal (fst (f (qworld q))),
     mkQState (snd (f (qworld q))) (qlog q ++ [ev (fst (f (qworld q)))])).

(** A call of an external function that returns nothing. *)
Definition qdo (f : World -> World) (ev : TEvent) : Q unit :=
  fun q => (QVal tt, mkQState (f (qworld q)) (qlog q ++ [ev])).

Definition g_assert (b : bool) : Q unit :=
  fun q => if b then (QVal tt, q) else (QAssertFailed, q).

Definition undefined {A} : Q A := fun q => (QUndefined, q).

End Qtest.

Arguments qret {World A} a.
Arguments qbind {World A B} c k.
Arguments qcall {World A} f ev.
Arguments qdo {World} f ev.
Arguments g_assert {World} b.
Arguments undefined {World A}.

Declare Scope qtest_scope.
Delimit Scope qtest_scope with qtest.

Notation "x <- c ;; k" := (qbind c (fun x => k))
  (at level 61, c at next level, right associativity) : qtest_scope.
Notation "c ;; k" := (qbind c (fun _ => k))
  (at level 61, right associativity) : qtest_scope.

(** libqtest and libqos are only included by the test; what their
    functions return and do to the guest is a parameter, and so are the
    sizes and the constants of the headers that are not in the sources. *)
Record Qtest (World : Type) : Type := mkQtest {
  guest_alloc : Z -> World -> GuestAddr * World;
  guest_free : GuestAddr -> World -> World;
  memwrite : GuestAddr -> HostData -> Z -> World -> World;
  memread : GuestAddr -> Z -> World -> CmdResp * World;
  readb : GuestAddr -> World -> Z * World;
  qvirtqueue_add :
    option QVirtQueue -> GuestAddr -> Z -> bool -> bool -> World -> Z * World;
  qvirtqueue_kick : option QVirtQueue -> Z -> World -> World;
  qvirtio_wait_queue_isr : option QVirtQueue -> Z -> World -> World;
  pc_alloc_init : World -> World;
  qpci_init_pc : World -> World;
  qvirtio_pci_device_find : World -> option QVirtioPCIDevice * World;
  qvirtio_pci_device_enable : World -> World;
  qvirtio_reset : World -> World;
  qvirtio_set_acknowledge : World -> World;
  qvirtio_set_driver : World -> World;
  qvirtio_config_readl : Z -> World -> Z * World;
  qvirtqueue_setup : Z -> World -> QVirtQueue * World;
  qvirtqueue_cleanup : option QVirtQueue -> World -> World;
  pc_alloc_uninit : World -> World;
  qvirtio_pci_device_disable : World -> World;
  qpci_free_pc : World -> World;
  (* sizeof(struct virtio_scsi_cmd_req), sizeof(struct virtio_scsi_cmd_resp),
     offsetof(struct virtio_scsi_cmd_resp, response) *)
  sizeof_req : Z;
  sizeof_resp : Z;
  offsetof_response : Z;
  VIRTIO_SCSI_CDB_SIZE : nat;
  VIRTIO_SCSI_S_OK : Z;
  GOOD : Z;
  CHECK_CONDITION : Z;
  UNIT_ATTENTION : Z;
  VIRTIO_ID_SCSI : Z;
  VIRTIO_PCI_CONFIG_OFF_false : Z
}.

(** [#define QVIRTIO_SCSI_TIMEOUT_US (1 * 1000 * 1000)] and
    [#define MAX_NUM_QUEUES 64] *)
Definition QVIRTIO_SCSI_TIMEOUT_US : Z := 1 * 1000 * 1000.
Definition MAX_NUM_QUEUES : Z := 64.

(** [QVirtIOSCSI]; [alloc] and [bus] are handles into the world.  [vq]
    is an array of [MAX_NUM_QUEUES + 2] slots: [vq vs i] is the slot [i]
    for [i] below [VQ_SLOTS], and no slot exists from there on. *)
Record QVirtIOSCSI : Type := mkQVirtIOSCSI {
  vs_dev : option QVirtioPCIDevice;
  num_queues : Z;
  vq : nat -> option QVirtQueue
}.

Definition VQ_SLOTS : nat := Z.to_nat (MAX_NUM_QUEUES + 2).

(** [const SCSISense *]: the fields the test compares. *)
Record SCSISense : Type := mkSCSISense {
  sense_key : Z;
  sense_asc : Z;
  sense_ascq : Z
}.

Section VirtioScsiTest.

Variable World : Type.
Variable qt : Qtest World.

Local Open Scope qtest_scope.

(** [static uint64_t qvirtio_scsi_alloc(vs, alloc_size, data)]; [data]
    is [None] for a NULL pointer. *)
Definition qvirtio_scsi_alloc (alloc_size : Z) (data : option HostData)
  : Q World GuestAddr :=
  addr <- qcall (guest_alloc qt alloc_size) (T_guest_alloc alloc_size) ;;
  match data with
  | Some d =>
      qdo (memwrite qt addr d alloc_size) (T_memwrite addr d alloc_size) ;;
      qret addr
  | None => qret addr
  end.

(** [vs->vq[i]]: undefined outside the array. *)
Definition vq_at (vs : QVirtIOSCSI) (i : nat)
  : Q World (option QVirtQueue) :=
  if Nat.ltb i VQ_SLOTS then qret (vq vs i) else undefined.

Definition call_qvirtqueue_add (q : option QVirtQueue) (addr : GuestAddr)
    (len : Z) (write next : bool) : Q World Z :=
  qcall (qvirtqueue_add qt q addr len write next)
    (T_qvirtqueue_add q addr len write next).

Definition nonzero (z : Z) : bool := negb (Z.eqb z 0).

(** [static uint8_t virtio_scsi_do_command(vs, cdb, data_in, data_in_len,
    data_out, data_out_len, resp_out)].  [memcpy(req.cdb, cdb,
    VIRTIO_SCSI_CDB_SIZE)] is undefined when [cdb] has fewer bytes.  The
    result is the [response] byte together with what was read into
    [*resp_out], if [resp_out] is not NULL ([want_resp]). *)
Definition virtio_scsi_do_command (vs : QVirtIOSCSI) (cdb : list byte)
    (data_in : option (list byte)) (data_in_len : Z)
    (data_out : option (list byte)) (data_out_len : Z)
    (want_resp : bool) : Q World (Z * option CmdResp) :=
  q <- vq_at vs 2 ;;
  (if Nat.leb (VIRTIO_SCSI_CDB_SIZE qt) (length cdb)
   then qret tt else undefined) ;;
  (* Add request header *)
  req_addr <- qvirtio_scsi_alloc (sizeof_req qt)
                (Some (D_req 1 1 (firstn (VIRTIO_SCSI_CDB_SIZE qt) cdb))) ;;
  free_head <- call_qvirtqueue_add q req_addr (sizeof_req qt) false true ;;
  data_out_addr <-
    (if nonzero data_out_len then
       a <- qvirtio_scsi_alloc data_out_len (option_map D_bytes data_out) ;;
       call_qvirtqueue_add q a data_out_len false true ;;
       qret a
     else qret 0%Z) ;;
  (* Add response header *)
  resp_addr <- qvirtio_scsi_alloc (sizeof_resp qt) (Some (D_resp 255 255)) ;;
  call_qvirtqueue_add q resp_addr (sizeof_resp qt) true
    (nonzero data_in_len) ;;
  data_in_addr <-
    (if nonzero data_in_len then
       a <- qvirtio_scsi_alloc data_in_len (option_map D_bytes data_in) ;;
       call_qvirtqueue_add q a data_in_len true false ;;
       qret a
     else qret 0%Z) ;;
  qdo (qvirtqueue_kick qt q free_head) (T_qvirtqueue_kick q free_head) ;;
  qdo (qvirtio_wait_queue_isr qt q QVIRTIO_SCSI_TIMEOUT_US)
    (T_qvirtio_wait_queue_isr q QVIRTIO_SCSI_TIMEOUT_US) ;;
  response <- qcall (readb qt (resp_addr + offsetof_response qt)%Z)
                (T_readb (resp_addr + offsetof_response qt)%Z) ;;
  resp_out <-
    (if want_resp then
       r <- qcall (memread qt resp_addr (sizeof_resp qt))
              (fun _ => T_memread resp_addr (sizeof_resp qt)) ;;
       qret (Some r)
     else qret None) ;;
  qdo (guest_free qt req_addr) (T_guest_free req_addr) ;;
  qdo (guest_free qt resp_addr) (T_guest_free resp_addr) ;;
  qdo (guest_free qt data_in_addr) (T_guest_free data_in_addr) ;;
  qdo (guest_free qt data_out_addr) (T_guest_free data_out_addr) ;;
  qret (response, resp_out).

(** The loop of [run_cmd] that prints the CDB:
    [for (i = 0; i < scsi_cdb_length(cdb); ++i) DPRINTF("%02X ", cdb[i]);]
    [DPRINTF] prints nothing but its argument [cdb[i]] is read; [count]
    is the number of iterations left. *)
Fixpoint dprintf_cdb (cdb : list byte) (count i : nat) : Q World unit :=
  match count with
  | O => qret tt
  | S count' =>
      match nth_error cdb i with
      | Some _ => dprintf_cdb cdb count' (S i)
      | None => undefined
      end
  end.

Definition bytes_eqb (a b : list byte) : bool :=
  if list_eq_dec Byte.byte_eq_dec a b then true else false.

(** [g_assert_cmpmem(m1, len, m2, len)] for a non-zero [len]: [memcmp]
    reads [len] bytes of both. *)
Definition g_assert_cmpmem (m1 : option (list byte)) (len : nat)
    (m2 : option (list byte)) : Q World unit :=
  match m1, m2 with
  | Some a, Some b =>
      if Nat.leb len (length a) && Nat.leb len (length b)
      then g_assert (bytes_eqb (firstn len a) (firstn len b))
      else undefined
  | _, _ => undefined
  end.

(** An [int] converted to [size_t] (64 bits). *)
Definition to_size_t (z : Z) : Z := (z mod 18446744073709551616)%Z.

(** [static void run_cmd(vs, cdb, readcmp, readlen, writebuf, writelen,
    response, status, sense)].  [g_malloc0] of a negative [readlen] cannot
    be satisfied and aborts; a [readlen] that is not negative is not
    changed by its conversion to [size_t].  [readbuf] is passed to
    [virtio_scsi_do_command] as its [const] parameter [data_in], which
    that function only hands to [memwrite]: it still holds the zeros of
    [g_malloc0] when it is compared. *)
Definition run_cmd (vs : QVirtIOSCSI) (cdb : list byte)
    (readcmp : option (list byte)) (readlen : Z)
    (writebuf : option (list byte)) (writelen : Z)
    (response status : Z) (sense : option SCSISense) : Q World unit :=
  match scsi_cdb_length (Z.of_nat (VIRTIO_SCSI_CDB_SIZE qt)) cdb with
  | None => undefined
  | Some len =>
      dprintf_cdb cdb (Z.to_nat len) 0 ;;
      g_assert (Z.leb 0 readlen) ;;
      let readbuf :=
        if nonzero readlen then Some (repeat x00 (Z.to_nat readlen))
        else None in
      r <- virtio_scsi_do_command vs cdb
             (if nonzero readlen then readbuf else None) readlen
             writebuf (to_size_t writelen) true ;;
      let resp :=
        match snd r with
        | Some x => x
        | None => mkCmdResp 0 0 (fun _ => 0%Z)
        end in
      g_assert (Z.eqb response (fst r)) ;;
      g_assert (Z.eqb (r_status resp) status) ;;
      (if Z.eqb response (VIRTIO_SCSI_S_OK qt) && Z.eqb status (GOOD qt)
          && nonzero readlen
       then g_assert_cmpmem readcmp (Z.to_nat readlen) readbuf
       else qret tt) ;;
      match sense with
      | Some sn =>
          g_assert (Z.eqb (r_sense resp 0) 112) ;;
          g_assert (Z.eqb (r_sense resp 2) (sense_key sn)) ;;
          g_assert (Z.eqb (r_sense resp 12) (sense_asc sn)) ;;
          g_assert (Z.eqb (r_sense resp 13) (sense_ascq sn))
      | None => qret tt
      end
  end.

(** [vs->vq[i] = v]: undefined outside the array. *)
Definition vq_store (vs : QVirtIOSCSI) (i : nat) (v : option QVirtQueue)
  : Q World QVirtIOSCSI :=
  if Nat.ltb i VQ_SLOTS
  then qret (mkQVirtIOSCSI (vs_dev vs) (num_queues vs)
               (fun j => if Nat.eqb j i then v else vq vs j))
  else undefined.

(** The value of a [uint32_t] converted to [int]. *)
Definition to_int (z : Z) : Z :=
  ((z + 2147483648) mod 4294967296 - 2147483648)%Z.

(** [for (i = ...; i < vs->num_queues + 2; i++)
       vs->vq[i] = qvirtqueue_setup(&qvirtio_pci, vs->dev, vs->alloc, i);]
    with [count] iterations left. *)
Fixpoint setup_queues (count i : nat) (vs : QVirtIOSCSI)
  : Q World QVirtIOSCSI :=
  match count with
  | O => qret vs
  | S count' =>
      q <- qcall (qvirtqueue_setup qt (Z.of_nat i))
             (T_qvirtqueue_setup (Z.of_nat i)) ;;
      vs' <- vq_store vs i (Some q) ;;
      setup_queues count' (S i) vs'
  end.

(** [static QVirtIOSCSI *qvirtio_scsi_pci_init(int slot)]; [slot] is not
    used.  [g_new0] gives a structure of zeros. *)
Definition qvirtio_scsi_pci_init : Q World QVirtIOSCSI :=
  qdo (pc_alloc_init qt) T_pc_alloc_init ;;
  qdo (qpci_init_pc qt) T_qpci_init_pc ;;
  dev <- qcall (qvirtio_pci_device_find qt)
           (fun d => T_qvirtio_pci_device_find
                       (match d with Some _ => true | None => false end)) ;;
  match dev with
  | None => g_assert false ;; undefined
  | Some d =>
      g_assert (Z.eqb (device_type d) (VIRTIO_ID_SCSI qt)) ;;
      qdo (qvirtio_pci_device_enable qt) T_qvirtio_pci_device_enable ;;
      qdo (qvirtio_reset qt) T_qvirtio_reset ;;
      qdo (qvirtio_set_acknowledge qt) T_qvirtio_set_acknowledge ;;
      qdo (qvirtio_set_driver qt) T_qvirtio_set_driver ;;
      n <- qcall (qvirtio_config_readl qt
                    (dev_addr d + VIRTIO_PCI_CONFIG_OFF_false qt)%Z)
             (T_qvirtio_config_readl
                (dev_addr d + VIRTIO_PCI_CONFIG_OFF_false qt)%Z) ;;
      g_assert (Z.ltb (to_int n) MAX_NUM_QUEUES) ;;
      vs <- setup_queues (Z.to_nat (to_int n + 2)) 0
              (mkQVirtIOSCSI (Some d) (to_int n) (fun _ => None)) ;;
      (* Clear the POWER ON OCCURRED unit attention *)
      r <- virtio_scsi_do_command vs
             (repeat x00 (VIRTIO_SCSI_CDB_SIZE qt)) None 0 None 0 true ;;
      let resp :=
        match snd r with
        | Some x => x
        | None => mkCmdResp 0 0 (fun _ => 0%Z)
        end in
      g_assert (Z.eqb (fst r) 0) ;;
      g_assert (Z.eqb (r_status resp) (CHECK_CONDITION qt)) ;;
      g_assert (Z.eqb (r_sense resp 0) 112) ;;
      g_assert (Z.eqb (r_sense resp 2) (UNIT_ATTENTION qt)) ;;
      g_assert (Z.eqb (r_sense resp 12) 41) ;;
      g_assert (Z.eqb (r_sense resp 13) 0) ;;
      qret vs
  end.

(** [for (i = ...; i < vs->num_queues + 2; i++)
       qvirtqueue_cleanup(&qvirtio_pci, vs->vq[i], vs->alloc);] *)
Fixpoint cleanup_queues (count i : nat) (vs : QVirtIOSCSI) : Q World unit :=
  match count with
  | O => qret tt
  | S count' =>
      q <- vq_at vs i ;;
      qdo (qvirtqueue_cleanup qt q) (T_qvirtqueue_cleanup q) ;;
      cleanup_queues count' (S i) vs
  end.

(** [static void qvirtio_scsi_pci_free(QVirtIOSCSI *vs)] *)
Definition qvirtio_scsi_pci_free (vs : QVirtIOSCSI) : Q World unit :=
  cleanup_queues (Z.to_nat (num_queues vs + 2)) 0 vs ;;
  qdo (pc_alloc_uninit qt) T_pc_alloc_uninit ;;
  qdo (qvirtio_pci_device_disable qt) T_qvirtio_pci_device_disable ;;
  qdo (fun w => w) T_g_free_dev ;;
  qdo (qpci_free_pc qt) T_qpci_free_pc.

End VirtioScsiTest.

(* --------------------------------------------------------------------- *)
(** ** Reading the log of a test *)
(* --------------------------------------------------------------------- *)


(** The queues descriptors were added to. *)
Definition add_queues (log : list TEvent) : list (option QVirtQueue) :=
  flat_map (fun e => match e with
                     | T_qvirtqueue_add q _ _ _ _ _ => [q]
                     | _ => []
                     end) log.



(** The addresses [guest_alloc] returned. *)
Definition allocated (log : list TEvent) : list GuestAddr :=
  flat_map (fun e => match e with
                     | T_guest_alloc _ a => [a]
                     | _ => []
                     end) log.

(** The addresses passed to [guest_free]. *)
Definition freed (log : list TEvent) : list GuestAddr :=
  flat_map (fun e => match e with
                     | T_guest_free a => [a]
                     | _ => []
                     end) log.

(** What was copied into guest memory. *)
Definition guest_writes (log : list TEvent) : list (GuestAddr * HostData) :=
  flat_map (fun e => match e with
                     | T_memwrite a d _ => [(a, d)]
                     | _ => []
                     end) log.

(** The guest memory read: address and number of bytes. *)
Definition guest_reads (log : list TEvent) : list (GuestAddr * Z) :=
  flat_map (fun e => match e with
                     | T_readb a _ => [(a, 1%Z)]
                     | T_memread a n => [(a, n)]
                     | _ => []
                     end) log.

(** The queues [qvirtqueue_setup] returned. *)
Definition set_up (log : list TEvent) : list QVirtQueue :=
  flat_map (fun e => match e with
                     | T_qvirtqueue_setup _ v => [v]
                     | _ => []
                     end) log.

(** The indexes [qvirtqueue_setup] was called with. *)
Definition set_up_indexes (log : list TEvent) : list Z :=
  flat_map (fun e => match e with
                     | T_qvirtqueue_setup i _ => [i]
                     | _ => []
                     end) log.

(** The queues passed to [qvirtqueue_cleanup]. *)
Definition cleaned (log : list TEvent) : list (option QVirtQueue) :=
  flat_map (fun e => match e with
                     | T_qvirtqueue_cleanup v => [v]
                     | _ => []
                     end) log.

(** The stages of one command: building the chain, the kick, the wait,
    reading the answer, releasing the buffers. *)
Definition stage (e : TEvent) : option nat :=
  match e with
  | T_guest_alloc _ _ | T_memwrite _ _ _
  | T_qvirtqueue_add _ _ _ _ _ _ => Some 0
  | T_qvirtqueue_kick _ _ => Some 1
  | T_qvirtio_wait_queue_isr _ _ => Some 2
  | T_readb _ _ | T_memread _ _ => Some 3
  | T_guest_free _ => Some 4
  | _ => None
  end.

(** Every event has a stage, and the stages never go back. *)
Fixpoint in_stage_order (from : nat) (log : list TEvent) : bool :=
  match log with
  | [] => true
  | e :: log' =>
      match stage e with
      | Some n => Nat.leb from n && in_stage_order n log'
      | None => false
      end
  end.

(** The events of one buffer put on the queue by
    [virtio_scsi_do_command]. *)
Definition buffer_events (q : option QVirtQueue) (len : Z)
    (data : option HostData) (addr : GuestAddr) (write next : bool)
    (head : Z) : list TEvent :=
  T_guest_alloc len addr
  :: match data with
     | Some d => [T_memwrite addr d len]
     | None => []
     end
  ++ [T_qvirtqueue_add q addr len write next head].

(** The events of one [virtio_scsi_do_command], given what the guest
    answered: the four addresses and heads, the [response] byte. *)
Definition command_events (q : option QVirtQueue) (req_size resp_size : Z)
    (offset : Z) (cdb : list byte)
    (data_in : option (list byte)) (data_in_len : Z)
    (data_out : option (list byte)) (data_out_len : Z) (want_resp : bool)
    (req_addr out_addr resp_addr in_addr : GuestAddr)
    (head out_head resp_head in_head : Z) (response : Z) : list TEvent :=
  buffer_events q req_size (Some (D_req 1 1 cdb)) req_addr false true head
  ++ (if nonzero data_out_len
      then buffer_events q data_out_len (option_map D_bytes data_out)
             out_addr false true out_head
      else [])
  ++ buffer_events q resp_size (Some (D_resp 255 255)) resp_addr true
       (nonzero data_in_len) resp_head
  ++ (if nonzero data_in_len
      then buffer_events q data_in_len (option_map D_bytes data_in)
             in_addr true false in_head
      else [])
  ++ [T_qvirtqueue_kick q head;
      T_qvirtio_wait_queue_isr q QVIRTIO_SCSI_TIMEOUT_US;
      T_readb (resp_addr + offset)%Z response]
  ++ (if want_resp then [T_memread resp_addr resp_size] else [])
  ++ [T_guest_free req_addr; T_guest_free resp_addr;
      T_guest_free (if nonzero data_in_len then in_addr else 0%Z);
      T_guest_free (if nonzero data_out_len then out_addr else 0%Z)].

Definition b2n (b : bool) : nat := if b then 1 else 0.

(** The events of the loop of [qvirtio_scsi_pci_init] that sets up the
    queues [qs], the first at index [i]. *)
Fixpoint setup_events (i : nat) (qs : list QVirtQueue) : list TEvent :=
  match qs with
  | [] => []
  | v :: qs' => T_qvirtqueue_setup (Z.of_nat i) v :: setup_events (S i) qs'
  end.

(** The events of [qvirtio_scsi_pci_init] before that loop, for a device
    at [addr] that reports [n] queues. *)
Definition probe_events (addr n : Z) : list TEvent :=
  [T_pc_alloc_init; T_qpci_init_pc; T_qvirtio_pci_device_find true;
   T_qvirtio_pci_device_enable; T_qvirtio_reset; T_qvirtio_set_acknowledge;
   T_qvirtio_set_driver; T_qvirtio_config_readl addr n].

(** The events of [qvirtio_scsi_pci_free] after its loop. *)
Definition release_events : list TEvent :=
  [T_pc_alloc_uninit; T_qvirtio_pci_device_disable; T_g_free_dev;
   T_qpci_free_pc].

(* --------------------------------------------------------------------- *)
(** ** A small guest to run the test code in *)
(* --------------------------------------------------------------------- *)

(** The world is the next free guest address.  The device answers each
    command with [response] 0, [status] [st] and the sense bytes of a
    fixed-format UNIT ATTENTION / POWER ON; it reports [nq] request
    queues. *)
Definition small_guest (nq : Z) (st : Z) : Qtest Z :=
  {| guest_alloc := fun size w => (w, (w + size)%Z);
     guest_free := fun _ w => w;
     memwrite := fun _ _ _ w => w;
     memread := fun _ _ w =>
       (mkCmdResp 0 st
          (fun i => if Nat.eqb i 0 then 112
                    else if Nat.eqb i 2 then 6
                    else if Nat.eqb i 12 then 41 else 0)%Z, w);
     readb := fun _ w => (0%Z, w);
     qvirtqueue_add := fun _ addr _ _ _ w => (addr, w);
     qvirtqueue_kick := fun _ _ w => w;
     qvirtio_wait_queue_isr := fun _ _ w => w;
     pc_alloc_init := fun w => w;
     qpci_init_pc := fun w => w;
     qvirtio_pci_device_find := fun w => (Some (mkDevice 8 49152), w);
     qvirtio_pci_device_enable := fun w => w;
     qvirtio_reset := fun w => w;
     qvirtio_set_acknowledge := fun w => w;
     qvirtio_set_driver := fun w => w;
     qvirtio_config_readl := fun _ w => (nq, w);
     qvirtqueue_setup := fun i w => (Z.to_nat i + 100, w);
     qvirtqueue_cleanup := fun _ w => w;
     pc_alloc_uninit := fun w => w;
     qvirtio_pci_device_disable := fun w => w;
     qpci_free_pc := fun w => w;
     sizeof_req := 51;
     sizeof_resp := 108;
     offsetof_response := 11;
     VIRTIO_SCSI_CDB_SIZE := 32;
     VIRTIO_SCSI_S_OK := 0;
     GOOD := 0;
     CHECK_CONDITION := 2;
     UNIT_ATTENTION := 6;
     VIRTIO_ID_SCSI := 8;
     VIRTIO_PCI_CONFIG_OFF_false := 20 |}.

Definition small_guest_start : QState Z := mkQState 4096%Z [].

(** A device set up with request queue 102 in slot 2. *)
Definition small_vs : QVirtIOSCSI :=
  mkQVirtIOSCSI (Some (mkDevice 8 49152)) 1
    (fun i => if Nat.ltb i 3 then Some (i + 100) else None).

(** The small guest with one request queue, answering the first command
    with CHECK CONDITION, is set up by [qvirtio_scsi_pci_init]. *)
Definition small_init : QRes QVirtIOSCSI * QState Z :=
  qvirtio_scsi_pci_init (small_guest 1 2) small_guest_start.

Definition small_init_vs : QVirtIOSCSI :=
  match fst small_init with
  | QVal vs => vs
  | _ => small_vs
  end.

(** WRITE SAME(10), as in the test. *)
Definition write_same_cdb : list byte :=
  [x41; x00; x00; x00; x00; x01; x00; x00; x02; x00] ++ repeat x00 22.


(* ===================================================================== *)
(** * Part II -- properties *)
(* ===================================================================== *)

(* --------------------------------------------------------------------- *)
(** ** Lists of events *)
(* --------------------------------------------------------------------- *)

Lemma count_app (p : Event -> bool) (l1 l2 : list Event) :
  count p (l1 ++ l2) = count p l1 + count p l2.
Proof.
  unfold count. rewrite filter_app, length_app. reflexivity.
Qed.

Lemma count_app_tail (p : Event -> bool) (a b c d : list Event) :
  count p (a ++ b ++ c ++ d) = count p (a ++ b ++ c) + count p d.
Proof. rewrite !count_app. lia. Qed.

Lemma count_app_last (p : Event -> bool) (a b c : list Event) :
  count p (a ++ b ++ c) = count p (a ++ b) + count p c.
Proof. rewrite !count_app. lia. Qed.

Lemma iterations_S (blk : list Event) (n : nat) :
  iterations blk (S n) = E_cond true :: blk ++ iterations blk n.
Proof. reflexivity. Qed.

Lemma count_iterations (p : Event -> bool) (blk : list Event) (n : nat) :
  count p (iterations blk n) = n * count p (E_cond true :: blk).
Proof.
  induction n as [|n IH]; [reflexivity|].
  rewrite iterations_S.
  change (E_cond true :: blk ++ iterations blk n)
    with ((E_cond true :: blk) ++ iterations blk n).
  rewrite count_app, IH. reflexivity.
Qed.

(** If [x] stands in front of [post] in a list that starts with [h ++ [a]]
    and [x] is neither in [h] nor equal to [a], then [a] is before [x]. *)
Lemma in_prefix_before (h rest pre post : list Event) (a x : Event) :
  h ++ a :: rest = pre ++ x :: post ->
  ~ In x h -> a <> x -> In a pre.
Proof.
  revert pre. induction h as [|y h IH]; intros pre E Hx Ha.
  - destruct pre as [|z pre]; cbn in E.
    + injection E as E _. contradiction.
    + injection E as E _. left. congruence.
  - destruct pre as [|z pre]; cbn in E.
    + injection E as E _. exfalso. apply Hx. left. exact E.
    + injection E as _ E. right. apply (IH pre E); [|exact Ha].
      intros H. apply Hx. right. exact H.
Qed.

(** In a list that ends with its only [d], nothing that is followed by
    another element contains [d]. *)
Lemma not_in_before_last (l pre post : list Event) (d x : Event) :
  l ++ [d] = pre ++ x :: post -> ~ In d l -> ~ In d pre.
Proof.
  intros E Hl Hpre.
  destruct (exists_last (l := x :: post)) as (q & z & Eq); [discriminate|].
  rewrite Eq, app_assoc in E.
  apply app_inj_tail in E as [E _].
  apply Hl. rewrite E. apply in_or_app. left. exact Hpre.
Qed.

(* --------------------------------------------------------------------- *)
(** ** Loops *)
(* --------------------------------------------------------------------- *)

Section WhileFacts.

Variable World : Type.
Variable cond : Cond World.
Variable body : M World unit.

(** The loop bodies of the macro never abort and never loop. *)
Hypothesis body_returns : forall m, fst (body m) = Val tt.

Lemma eval_cond_run (m : Machine World) :
  eval_cond cond m = (Val (cond_value cond m), after_cond cond m).
Proof.
  unfold after_cond, cond_value, eval_cond.
  destruct (cond (st m)) as [r s']. reflexivity.
Qed.

Lemma body_run (m : Machine World) : body m = (Val tt, after_body body m).
Proof.
  unfold after_body. specialize (body_returns m).
  destruct (body m) as [r m']. cbn in *. congruence.
Qed.

Lemma while_S (fuel : nat) (m : Machine World) :
  while_ (S fuel) (eval_cond cond) body m =
  if cond_value cond m
  then while_ fuel (eval_cond cond) body (after_body body (after_cond cond m))
  else (Val tt, after_cond cond m).
Proof.
  cbn [while_]. unfold bind at 1. rewrite eval_cond_run.
  destruct (cond_value cond m); [|reflexivity].
  unfold bind. rewrite body_run. reflexivity.
Qed.

(** A loop either meets a false condition after [n < fuel] iterations and
    returns, or runs all [fuel] iterations and is still looping. *)
Lemma while_run (fuel : nat) (m : Machine World) :
  (exists n, n < fuel /\
     (forall k, k < n -> cond_value cond (unroll cond body k m) = true) /\
     cond_value cond (unroll cond body n m) = false /\
     while_ fuel (eval_cond cond) body m =
       (Val tt, after_cond cond (unroll cond body n m)))
  \/
  ((forall k, k < fuel -> cond_value cond (unroll cond body k m) = true) /\
   while_ fuel (eval_cond cond) body m = (Spin, unroll cond body fuel m)).
Proof.
  revert m. induction fuel as [|fuel IH]; intros m.
  - right. split; [intros k Hk; lia | reflexivity].
  - rewrite while_S. destruct (cond_value cond m) eqn:Hc.
    + destruct (IH (after_body body (after_cond cond m)))
        as [(n & Hn & Ht & Hf & Hr) | (Ht & Hr)].
      * left. exists (S n). repeat split; [lia | | exact Hf | exact Hr].
        intros [|k] Hk; [exact Hc | apply Ht; lia].
      * right. split; [|exact Hr].
        intros [|k] Hk; [exact Hc | apply Ht; lia].
    + left. exists 0. repeat split; [lia | intros k Hk; lia | exact Hc].
Qed.

(** The loop returns as soon as the fuel exceeds the number of iterations
    after which the condition is false. *)
Lemma while_returns (n fuel : nat) (m : Machine World) :
  n < fuel ->
  (forall k, k < n -> cond_value cond (unroll cond body k m) = true) ->
  cond_value cond (unroll cond body n m) = false ->
  while_ fuel (eval_cond cond) body m =
    (Val tt, after_cond cond (unroll cond body n m)).
Proof.
  revert fuel m. induction n as [|n IH]; intros fuel m Hlt Ht Hf.
  - destruct fuel as [|fuel]; [lia|]. rewrite while_S.
    cbn in Hf. rewrite Hf. reflexivity.
  - destruct fuel as [|fuel]; [lia|]. rewrite while_S.
    assert (H0 : cond_value cond m = true) by (apply (Ht 0); lia).
    rewrite H0. apply IH; [lia | | exact Hf].
    intros k Hk. apply (Ht (S k)). lia.
Qed.

End WhileFacts.

(** Loops whose body always returns and always leaves the same events. *)
Section WhileTrace.

Variable World : Type.
Variable cond : Cond World.
Variable body : M World unit.
Variable blk : list Event.

Hypothesis body_returns : forall m, fst (body m) = Val tt.
Hypothesis body_trace :
  forall m, trace (after_body body m) = trace m ++ blk.

Lemma after_cond_trace (m : Machine World) :
  trace (after_cond cond m) = trace m ++ [E_cond (cond_value cond m)].
Proof.
  unfold after_cond, cond_value, eval_cond.
  destruct (cond (st m)); reflexivity.
Qed.

Lemma after_cond_waited (m : Machine World) :
  waited_ (after_cond cond m) = waited_ m.
Proof.
  unfold after_cond, eval_cond. destruct (cond (st m)); reflexivity.
Qed.

Lemma after_cond_st (m : Machine World) :
  st (after_cond cond m) = snd (cond (st m)).
Proof.
  unfold after_cond, eval_cond. destruct (cond (st m)); reflexivity.
Qed.

Lemma unroll_trace (n : nat) (m : Machine World) :
  (forall k, k < n -> cond_value cond (unroll cond body k m) = true) ->
  trace (unroll cond body n m) = trace m ++ iterations blk n.
Proof.
  revert m. induction n as [|n IH]; intros m Ht.
  - cbn. rewrite app_nil_r. reflexivity.
  - cbn [unroll]. rewrite IH.
    + rewrite body_trace, after_cond_trace.
      assert (H0 : cond_value cond m = true) by (apply (Ht 0); lia).
      rewrite H0, iterations_S, <- !app_assoc. reflexivity.
    + intros k Hk. apply (Ht (S k)). lia.
Qed.

(** A body that sets [waited_] leaves it set after the first iteration. *)
Lemma unroll_waited_set (n : nat) (m : Machine World) :
  (forall m', waited_ (after_body body m') = true) ->
  waited_ (unroll cond body n m) = (0 <? n) || waited_ m.
Proof.
  intros Hw. revert m. induction n as [|n IH]; intros m; [reflexivity|].
  cbn [unroll]. rewrite IH, Hw. destruct n; reflexivity.
Qed.

(** A body that does not assign [waited_] leaves it as it was. *)
Lemma unroll_waited_keep (n : nat) (m : Machine World) :
  (forall m', waited_ (after_body body m') = waited_ m') ->
  waited_ (unroll cond body n m) = waited_ m.
Proof.
  intros Hw. revert m. induction n as [|n IH]; intros m; [reflexivity|].
  cbn [unroll]. rewrite IH, Hw, after_cond_waited. reflexivity.
Qed.

End WhileTrace.

(* --------------------------------------------------------------------- *)
(** ** The loop bodies of AIO_WAIT_WHILE *)
(* --------------------------------------------------------------------- *)

Section Bodies.

Variable World : Type.
Variable env : Env World.

Lemma coroutine_body_run (m : Machine World) :
  coroutine_body env m =
  (Val tt,
   mkMachine
     (on_wait AioWait_dec
        (qemu_co_queue_wait env (on_wait AioWait_inc (st m))))
     (waited_ m)
     (trace m ++ coroutine_events)).
Proof.
  unfold coroutine_body, atomic_inc_num_waiters, call_qemu_co_queue_wait,
    atomic_dec_num_waiters, bind, emit, update, coroutine_events. cbn.
  rewrite <- !app_assoc. reflexivity.
Qed.

Lemma home_body_run (c : AioContext) (m : Machine World) :
  home_body env c m =
  (Val tt,
   mkMachine (aio_poll env c true (st m)) true (trace m ++ home_events c)).
Proof. reflexivity. Qed.

Lemma foreign_body_run (ctx_ : option AioContext) (m : Machine World) :
  foreign_body env ctx_ m =
  (Val tt,
   mkMachine (foreign_step env ctx_ (st m)) true
     (trace m ++ foreign_events (qemu_get_aio_context env) ctx_)).
Proof.
  destruct ctx_ as [c|];
    unfold foreign_body, if_ctx, call_aio_context_release, call_aio_poll,
      call_aio_context_acquire, set_waited_, bind, emit, update, ret,
      foreign_events, foreign_step; cbn;
    rewrite <- ?app_assoc; reflexivity.
Qed.

End Bodies.

(* --------------------------------------------------------------------- *)
(** ** The shape of every run of AIO_WAIT_WHILE *)
(* --------------------------------------------------------------------- *)

Section Runs.

Variable World : Type.
Variable env : Env World.
Variable cond : Cond World.

Lemma coroutine_body_returns (m : Machine World) :
  fst (coroutine_body env m) = Val tt.
Proof. rewrite coroutine_body_run. reflexivity. Qed.

Lemma home_body_returns (c : AioContext) (m : Machine World) :
  fst (home_body env c m) = Val tt.
Proof. reflexivity. Qed.

Lemma foreign_body_returns (ctx_ : option AioContext) (m : Machine World) :
  fst (foreign_body env ctx_ m) = Val tt.
Proof. rewrite foreign_body_run. reflexivity. Qed.

Lemma coroutine_body_trace (m : Machine World) :
  trace (after_body (coroutine_body env) m) = trace m ++ coroutine_events.
Proof. unfold after_body. rewrite coroutine_body_run. reflexivity. Qed.

Lemma home_body_trace (c : AioContext) (m : Machine World) :
  trace (after_body (home_body env c) m) = trace m ++ home_events c.
Proof. reflexivity. Qed.

Lemma foreign_body_trace (ctx_ : option AioContext) (m : Machine World) :
  trace (after_body (foreign_body env ctx_) m) =
  trace m ++ foreign_events (qemu_get_aio_context env) ctx_.
Proof. unfold after_body. rewrite foreign_body_run. reflexivity. Qed.

(** *** In a coroutine *)

Lemma coroutine_run (fuel : nat) (ctx_ : option AioContext) (s : State World) :
  qemu_in_coroutine env s = true ->
  let m0 := mkMachine s false [E_qemu_in_coroutine true] in
  (exists n, n < fuel /\
     (forall k, k < n ->
        cond_value cond (unroll cond (coroutine_body env) k m0) = true) /\
     cond_value cond (unroll cond (coroutine_body env) n m0) = false /\
     run_AIO_WAIT_WHILE env fuel ctx_ cond s =
       (Val false, after_cond cond (unroll cond (coroutine_body env) n m0)) /\
     trace (after_cond cond (unroll cond (coroutine_body env) n m0)) =
       E_qemu_in_coroutine true :: iterations coroutine_events n
         ++ [E_cond false])
  \/
  (run_AIO_WAIT_WHILE env fuel ctx_ cond s =
     (Spin, unroll cond (coroutine_body env) fuel m0) /\
   trace (unroll cond (coroutine_body env) fuel m0) =
     E_qemu_in_coroutine true :: iterations coroutine_events fuel).
Proof.
  intros Hco m0.
  assert (Hrun : run_AIO_WAIT_WHILE env fuel ctx_ cond s =
    match while_ fuel (eval_cond cond) (coroutine_body env) m0 with
    | (Val _, m') => (Val (waited_ m'), m')
    | (Abort, m') => (Abort, m')
    | (Spin, m') => (Spin, m')
    end).
  { unfold run_AIO_WAIT_WHILE, AIO_WAIT_WHILE, call_qemu_in_coroutine,
      coroutine_branch, bind, set_waited_, query, emit, ret, get_waited_.
    cbn. rewrite Hco. cbn. fold m0.
    destruct (while_ fuel (eval_cond cond) (coroutine_body env) m0)
      as [[[]| |] m']; reflexivity. }
  destruct (while_run cond (coroutine_body env) coroutine_body_returns fuel m0)
    as [(n & Hn & Ht & Hf & Hr) | (Ht & Hr)].
  - left. exists n. repeat split; try assumption.
    + rewrite Hrun, Hr. f_equal.
      rewrite after_cond_waited.
      rewrite unroll_waited_keep; [reflexivity|].
      intros m'. unfold after_body. rewrite coroutine_body_run. reflexivity.
    + rewrite after_cond_trace, Hf.
      rewrite (@unroll_trace _ cond (coroutine_body env) coroutine_events
                 coroutine_body_trace n m0 Ht).
      reflexivity.
  - right. split.
    + rewrite Hrun, Hr. reflexivity.
    + rewrite (@unroll_trace _ cond (coroutine_body env) coroutine_events
                 coroutine_body_trace fuel m0 Ht).
      reflexivity.
Qed.

(** *** In the home thread of [ctx_] *)

Lemma home_run (fuel : nat) (c : AioContext) (s : State World) :
  qemu_in_coroutine env s = false ->
  in_aio_context_home_thread env c s = true ->
  let m0 := mkMachine s false
              [E_qemu_in_coroutine false;
               E_in_aio_context_home_thread c true] in
  (exists n, n < fuel /\
     (forall k, k < n ->
        cond_value cond (unroll cond (home_body env c) k m0) = true) /\
     cond_value cond (unroll cond (home_body env c) n m0) = false /\
     run_AIO_WAIT_WHILE env fuel (Some c) cond s =
       (Val (0 <? n), after_cond cond (unroll cond (home_body env c) n m0)) /\
     trace (after_cond cond (unroll cond (home_body env c) n m0)) =
       [E_qemu_in_coroutine false; E_in_aio_context_home_thread c true]
         ++ iterations (home_events c) n ++ [E_cond false])
  \/
  (run_AIO_WAIT_WHILE env fuel (Some c) cond s =
     (Spin, unroll cond (home_body env c) fuel m0) /\
   trace (unroll cond (home_body env c) fuel m0) =
     [E_qemu_in_coroutine false; E_in_aio_context_home_thread c true]
       ++ iterations (home_events c) fuel).
Proof.
  intros Hco Hhome m0.
  assert (Hrun : run_AIO_WAIT_WHILE env fuel (Some c) cond s =
    match while_ fuel (eval_cond cond) (home_body env c) m0 with
    | (Val _, m') => (Val (waited_ m'), m')
    | (Abort, m') => (Abort, m')
    | (Spin, m') => (Spin, m')
    end).
  { unfold run_AIO_WAIT_WHILE, AIO_WAIT_WHILE, call_qemu_in_coroutine,
      call_in_aio_context_home_thread, home_branch, bind, set_waited_,
      query, emit, ret, get_waited_.
    cbn. rewrite Hco. cbn. rewrite Hhome. cbn. fold m0.
    destruct (while_ fuel (eval_cond cond) (home_body env c) m0)
      as [[[]| |] m']; reflexivity. }
  destruct (while_run cond (home_body env c) (home_body_returns c) fuel m0)
    as [(n & Hn & Ht & Hf & Hr) | (Ht & Hr)].
  - left. exists n. repeat split; try assumption.
    + rewrite Hrun, Hr. f_equal.
      rewrite after_cond_waited.
      rewrite unroll_waited_set; [|reflexivity].
      cbn. rewrite orb_false_r. reflexivity.
    + rewrite after_cond_trace, Hf.
      rewrite (@unroll_trace _ cond (home_body env c) (home_events c)
                 (home_body_trace c) n m0 Ht).
      reflexivity.
  - right. split.
    + rewrite Hrun, Hr. reflexivity.
    + rewrite (@unroll_trace _ cond (home_body env c) (home_events c)
                 (home_body_trace c) fuel m0 Ht).
      reflexivity.
Qed.

(** *** Anywhere else *)

Lemma select_foreign_inv (ctx_ : option AioContext) (s : State World) :
  select_path env ctx_ s = ForeignThreadPath ->
  qemu_in_coroutine env s = false /\
  (forall c, ctx_ = Some c -> in_aio_context_home_thread env c s = false).
Proof.
  unfold select_path. destruct (qemu_in_coroutine env s); [discriminate|].
  intros H. split; [reflexivity|]. intros c ->.
  destruct (in_aio_context_home_thread env c s); [discriminate|reflexivity].
Qed.

(** The run up to the start of the last branch. *)
Lemma foreign_run_branch (fuel : nat) (ctx_ : option AioContext)
    (s : State World) :
  select_path env ctx_ s = ForeignThreadPath ->
  run_AIO_WAIT_WHILE env fuel ctx_ cond s =
    match foreign_branch env fuel ctx_ cond
            (mkMachine s false (foreign_selection ctx_)) with
    | (Val _, m') => (Val (waited_ m'), m')
    | (Abort, m') => (Abort, m')
    | (Spin, m') => (Spin, m')
    end.
Proof.
  intros Hsel. destruct (select_foreign_inv _ _ Hsel) as [Hco Hhome].
  unfold run_AIO_WAIT_WHILE, AIO_WAIT_WHILE, call_qemu_in_coroutine,
    call_in_aio_context_home_thread.
  unfold bind at 1 2 3, set_waited_, query, emit, ret. cbn.
  rewrite Hco. cbn.
  destruct ctx_ as [c|].
  - unfold bind at 1 2 3 4. cbn. rewrite (Hhome c eq_refl). cbn.
    unfold get_waited_.
    destruct (foreign_branch env fuel (Some c) cond _) as [[[]| |] m'];
      reflexivity.
  - unfold bind at 1. cbn. unfold get_waited_.
    destruct (foreign_branch env fuel None cond _) as [[[]| |] m'];
      reflexivity.
Qed.

Lemma foreign_branch_abort (fuel : nat) (ctx_ : option AioContext)
    (m : Machine World) :
  qemu_get_current_aio_context env (st m) <> qemu_get_aio_context env ->
  foreign_branch env fuel ctx_ cond m =
    (Abort, mkMachine (st m) (waited_ m) (trace m ++ [E_assert false])).
Proof.
  intros Hne. apply Nat.eqb_neq in Hne.
  unfold foreign_branch, assert, bind, query, emit. cbn.
  rewrite Hne. reflexivity.
Qed.

Lemma foreign_branch_pass (fuel : nat) (ctx_ : option AioContext)
    (m : Machine World) :
  qemu_get_current_aio_context env (st m) = qemu_get_aio_context env ->
  foreign_branch env fuel ctx_ cond m =
    match while_ fuel (eval_cond cond) (foreign_body env ctx_)
            (mkMachine (on_wait AioWait_inc (st m)) (waited_ m)
               (trace m ++ [E_assert true; E_atomic_inc])) with
    | (Val _, m') =>
        (Val tt, mkMachine (on_wait AioWait_dec (st m')) (waited_ m')
                   (trace m' ++ [E_atomic_dec]))
    | (Abort, m') => (Abort, m')
    | (Spin, m') => (Spin, m')
    end.
Proof.
  intros Heq. apply Nat.eqb_eq in Heq.
  unfold foreign_branch, assert, atomic_inc_num_waiters,
    atomic_dec_num_waiters, bind, query, emit, update, ret. cbn.
  rewrite Heq. cbn. rewrite <- app_assoc. cbn.
  destruct (while_ fuel (eval_cond cond) (foreign_body env ctx_) _)
    as [[[]| |] m']; reflexivity.
Qed.

Lemma foreign_run (fuel : nat) (ctx_ : option AioContext) (s : State World) :
  select_path env ctx_ s = ForeignThreadPath ->
  let m0 := mkMachine (on_wait AioWait_inc s) false
              (foreign_selection ctx_ ++ [E_assert true; E_atomic_inc]) in
  (qemu_get_current_aio_context env s <> qemu_get_aio_context env /\
   run_AIO_WAIT_WHILE env fuel ctx_ cond s =
     (Abort, mkMachine s false (foreign_selection ctx_ ++ [E_assert false])))
  \/
  (qemu_get_current_aio_context env s = qemu_get_aio_context env /\
   exists n mc, n < fuel /\
     mc = after_cond cond (unroll cond (foreign_body env ctx_) n m0) /\
     (forall k, k < n ->
        cond_value cond (unroll cond (foreign_body env ctx_) k m0) = true) /\
     cond_value cond (unroll cond (foreign_body env ctx_) n m0) = false /\
     run_AIO_WAIT_WHILE env fuel ctx_ cond s =
       (Val (0 <? n),
        mkMachine (on_wait AioWait_dec (st mc)) (0 <? n)
          (trace mc ++ [E_atomic_dec])) /\
     trace mc ++ [E_atomic_dec] =
       foreign_selection ctx_ ++ [E_assert true; E_atomic_inc]
         ++ iterations (foreign_events (qemu_get_aio_context env) ctx_) n
         ++ [E_cond false; E_atomic_dec])
  \/
  (qemu_get_current_aio_context env s = qemu_get_aio_context env /\
   run_AIO_WAIT_WHILE env fuel ctx_ cond s =
     (Spin, unroll cond (foreign_body env ctx_) fuel m0) /\
   trace (unroll cond (foreign_body env ctx_) fuel m0) =
     foreign_selection ctx_ ++ [E_assert true; E_atomic_inc]
       ++ iterations (foreign_events (qemu_get_aio_context env) ctx_) fuel).
Proof.
  intros Hsel m0. rewrite (foreign_run_branch fuel ctx_ s Hsel).
  destruct (Nat.eq_dec (qemu_get_current_aio_context env s)
              (qemu_get_aio_context env)) as [Heq | Hne].
  - right. rewrite foreign_branch_pass by exact Heq. cbn [st waited_ trace].
    fold m0.
    destruct (while_run cond (foreign_body env ctx_)
                (foreign_body_returns ctx_) fuel m0)
      as [(n & Hn & Ht & Hf & Hr) | (Ht & Hr)].
    + left. split; [exact Heq|].
      exists n, (after_cond cond (unroll cond (foreign_body env ctx_) n m0)).
      repeat split; try assumption.
      * rewrite Hr. cbn [st waited_ trace].
        rewrite after_cond_waited.
        rewrite unroll_waited_set;
          [|intros m'; unfold after_body; rewrite foreign_body_run;
            reflexivity].
        cbn [waited_ m0]. rewrite orb_false_r. reflexivity.
      * rewrite after_cond_trace, Hf.
        rewrite (@unroll_trace _ cond (foreign_body env ctx_) _
                   (foreign_body_trace ctx_) n m0 Ht).
        cbn [trace m0]. rewrite <- !app_assoc. reflexivity.
    + right. split; [exact Heq|]. split.
      * rewrite Hr. reflexivity.
      * rewrite (@unroll_trace _ cond (foreign_body env ctx_) _
                   (foreign_body_trace ctx_) fuel m0 Ht).
        cbn [trace m0]. rewrite <- !app_assoc. reflexivity.
  - left. split; [exact Hne|].
    rewrite foreign_branch_abort by exact Hne. reflexivity.
Qed.

End Runs.

(* --------------------------------------------------------------------- *)
(** ** Runs of the small process *)
(* --------------------------------------------------------------------- *)

(** The main loop waits with a NULL [ctx] for work that takes two polls. *)
Example run_main_loop_null_ctx :
  run_AIO_WAIT_WHILE (countdown_env false 0) 5 None countdown_cond
    (countdown_start 2) =
  (Val true,
   mkMachine (mkState (mkAioWait 0 []) 0) true
     [E_qemu_in_coroutine false; E_assert true; E_atomic_inc;
      E_cond true; E_aio_poll 0 true;
      E_cond true; E_aio_poll 0 true;
      E_cond false; E_atomic_dec]).
Proof. reflexivity. Qed.

(** The IOThread that owns context 7 waits on it. *)
Example run_home_thread :
  run_AIO_WAIT_WHILE (countdown_env false 7) 5 (Some 7) countdown_cond
    (countdown_start 1) =
  (Val true,
   mkMachine (mkState (mkAioWait 0 []) 0) true
     [E_qemu_in_coroutine false; E_in_aio_context_home_thread 7 true;
      E_cond true; E_aio_poll 7 true; E_cond false]).
Proof. reflexivity. Qed.

(** A coroutine waits; it is resumed once. *)
Example run_coroutine :
  run_AIO_WAIT_WHILE (countdown_env true 7) 5 (Some 7) countdown_cond
    (countdown_start 1) =
  (Val false,
   mkMachine (mkState (mkAioWait 0 []) 0) false
     [E_qemu_in_coroutine true;
      E_cond true; E_atomic_inc; E_qemu_co_queue_wait; E_atomic_dec;
      E_cond false]).
Proof. reflexivity. Qed.

(** A wait that is not over when the bound on iterations is reached: the
    caller is still counted as a waiter. *)
Example run_still_waiting :
  run_AIO_WAIT_WHILE (countdown_env false 0) 1 None countdown_cond
    (countdown_start 2) =
  (Spin,
   mkMachine (mkState (mkAioWait 1 []) 1) true
     [E_qemu_in_coroutine false; E_assert true; E_atomic_inc;
      E_cond true; E_aio_poll 0 true]).
Proof. reflexivity. Qed.

(* --------------------------------------------------------------------- *)
(** ** Counting and membership in the traces of the macro *)
(* --------------------------------------------------------------------- *)

Lemma count_zero_not_in (p : Event -> bool) (l : list Event) (x : Event) :
  count p l = 0 -> In x l -> p x = false.
Proof.
  unfold count. induction l as [|y l IH]; intros Hc Hin; [destruct Hin|].
  cbn in Hc. destruct (p y) eqn:Hy; [discriminate|].
  destruct Hin as [-> | Hin]; [exact Hy | apply IH; assumption].
Qed.

Lemma count_foreign_selection (p : Event -> bool) (ctx_ : option AioContext) :
  (forall b, p (E_qemu_in_coroutine b) = false) ->
  (forall c b, p (E_in_aio_context_home_thread c b) = false) ->
  count p (foreign_selection ctx_) = 0.
Proof.
  intros H1 H2. destruct ctx_ as [c|]; unfold count; cbn;
    rewrite ?H1, ?H2; reflexivity.
Qed.

Lemma count_foreign_events (p : Event -> bool) (g : AioContext)
    (ctx_ : option AioContext) :
  (forall c, p (E_aio_context_release c) = false) ->
  (forall c, p (E_aio_context_acquire c) = false) ->
  count p (foreign_events g ctx_) = count p [E_aio_poll g true].
Proof.
  intros H1 H2. destruct ctx_ as [c|]; unfold count; cbn;
    rewrite ?H1, ?H2; reflexivity.
Qed.

(** The events of the last branch, assertion passed, loop not yet left. *)
Lemma count_foreign_loop (p : Event -> bool) (g : AioContext)
    (ctx_ : option AioContext) (n : nat) :
  (forall b, p (E_qemu_in_coroutine b) = false) ->
  (forall c b, p (E_in_aio_context_home_thread c b) = false) ->
  (forall c, p (E_aio_context_release c) = false) ->
  (forall c, p (E_aio_context_acquire c) = false) ->
  count p (foreign_selection ctx_ ++ [E_assert true; E_atomic_inc]
             ++ iterations (foreign_events g ctx_) n) =
  count p [E_assert true; E_atomic_inc]
  + n * count p [E_cond true; E_aio_poll g true].
Proof.
  intros H1 H2 H3 H4.
  rewrite !count_app, count_iterations, count_foreign_selection by assumption.
  change (E_cond true :: foreign_events g ctx_)
    with ([E_cond true] ++ foreign_events g ctx_).
  rewrite count_app, count_foreign_events by assumption.
  rewrite <- count_app. reflexivity.
Qed.

(* --------------------------------------------------------------------- *)
(** ** The last branch: num_waiters brackets the evaluations of cond *)
(* --------------------------------------------------------------------- *)

(** C1.  On the branch taken outside coroutines by a caller that is not
    the home thread of a non-NULL [ctx], whenever [cond] is evaluated the
    increment of [num_waiters] has been done and the decrement has not:
    the increment precedes the first evaluation.  A run that returns ends
    with the evaluation that found [cond] false followed by the one
    decrement, and there is a decrement only in runs that left the loop. *)
Theorem foreign_path_inc_before_cond_dec_after
    (World : Type) (env : Env World) (cond : Cond World) (fuel : nat)
    (ctx_ : option AioContext) (s : State World) :
  select_path env ctx_ s = ForeignThreadPath ->
  let out := run_AIO_WAIT_WHILE env fuel ctx_ cond s in
  (forall pre b post,
      trace (snd out) = pre ++ E_cond b :: post ->
      In E_atomic_inc pre /\ ~ In E_atomic_dec pre) /\
  (forall w, fst out = Val w ->
      exists tr, trace (snd out) = tr ++ [E_cond false; E_atomic_dec] /\
                 ~ In E_atomic_dec tr /\
                 count is_inc (trace (snd out)) = 1) /\
  (In E_atomic_dec (trace (snd out)) -> exists w, fst out = Val w).
Proof.
  intros Hsel out.
  set (g := qemu_get_aio_context env).
  assert (Hloop : forall n,
    count is_dec (foreign_selection ctx_ ++ [E_assert true; E_atomic_inc]
                    ++ iterations (foreign_events g ctx_) n) = 0).
  { intros n. rewrite count_foreign_loop by reflexivity.
    cbn. apply Nat.mul_0_r. }
  assert (Hsel0 : count is_cond (foreign_selection ctx_ ++ [E_assert true])
                  = 0).
  { rewrite count_app, count_foreign_selection by reflexivity. reflexivity. }
  destruct (foreign_run env cond fuel ctx_ s Hsel)
    as [(Hne & Hr) | [(Heq & n & mc & Hn & Hmc & Ht & Hf & Hr & Htr)
                     | (Heq & Hr & Htr)]];
    subst out; rewrite Hr; cbn [fst snd trace].
  - (* the assertion failed: cond is never evaluated *)
    assert (H0 : forall p, p (E_assert false) = false ->
                 (forall b, p (E_qemu_in_coroutine b) = false) ->
                 (forall c b, p (E_in_aio_context_home_thread c b) = false) ->
                 count p (foreign_selection ctx_ ++ [E_assert false]) = 0).
    { intros p Hp H1 H2.
      rewrite count_app, count_foreign_selection by assumption.
      unfold count. cbn. rewrite Hp. reflexivity. }
    split; [|split].
    + intros pre b post E. exfalso.
      assert (Hin : In (E_cond b)
                      (foreign_selection ctx_ ++ [E_assert false])).
      { rewrite E. apply in_or_app. right. left. reflexivity. }
      apply (@count_zero_not_in is_cond) in Hin; [discriminate|].
      apply H0; reflexivity.
    + intros w Hw. discriminate.
    + intros Hin. apply (@count_zero_not_in is_dec) in Hin; [discriminate|].
      apply H0; reflexivity.
  - (* the run returned *)
    rewrite Htr. fold g.
    split; [|split].
    + intros pre b post E. split.
      * apply (@in_prefix_before (foreign_selection ctx_ ++ [E_assert true])
                 (iterations (foreign_events g ctx_) n
                    ++ [E_cond false; E_atomic_dec])
                 pre post E_atomic_inc (E_cond b)).
        -- rewrite <- E, <- !app_assoc. reflexivity.
        -- intros Hin.
           apply (@count_zero_not_in is_cond _ _ Hsel0) in Hin. discriminate.
        -- discriminate.
      * apply (@not_in_before_last
                 (foreign_selection ctx_ ++ [E_assert true; E_atomic_inc]
                    ++ iterations (foreign_events g ctx_) n ++ [E_cond false])
                 pre post E_atomic_dec (E_cond b)).
        -- rewrite <- E, <- !app_assoc. reflexivity.
        -- intros Hin.
           apply (@count_zero_not_in is_dec) in Hin; [discriminate|].
           rewrite !app_assoc, count_app, <- !app_assoc, Hloop. reflexivity.
    + intros w Hw.
      exists (foreign_selection ctx_ ++ [E_assert true; E_atomic_inc]
                ++ iterations (foreign_events g ctx_) n).
      rewrite <- !app_assoc. split; [reflexivity|]. split.
      * intros Hin. apply (@count_zero_not_in is_dec _ _ (Hloop n)) in Hin.
        discriminate.
      * rewrite !app_assoc, count_app, <- !app_assoc.
        rewrite count_foreign_loop by reflexivity.
        cbn. rewrite Nat.mul_0_r. reflexivity.
    + intros _. exists (0 <? n). reflexivity.
  - (* still looping *)
    rewrite Htr. fold g.
    split; [|split].
    + intros pre b post E. split.
      * apply (@in_prefix_before (foreign_selection ctx_ ++ [E_assert true])
                 (iterations (foreign_events g ctx_) fuel)
                 pre post E_atomic_inc (E_cond b)).
        -- rewrite <- E, <- !app_assoc. reflexivity.
        -- intros Hin.
           apply (@count_zero_not_in is_cond _ _ Hsel0) in Hin. discriminate.
        -- discriminate.
      * intros Hin.
        assert (Hin' : In E_atomic_dec
                  (foreign_selection ctx_ ++ [E_assert true; E_atomic_inc]
                     ++ iterations (foreign_events g ctx_) fuel)).
        { rewrite E. apply in_or_app. left. exact Hin. }
        apply (@count_zero_not_in is_dec _ _ (Hloop fuel)) in Hin'.
        discriminate.
    + intros w Hw. discriminate.
    + intros Hin. apply (@count_zero_not_in is_dec _ _ (Hloop fuel)) in Hin.
      discriminate.
Qed.

(** The main loop waiting for an IOThread's context 7: two blocking polls
    of the main context, the increment first and the decrement last. *)
Lemma foreign_path_inc_before_cond_dec_after_witness :
  select_path (countdown_env false 0) (Some 7) (countdown_start 2)
    = ForeignThreadPath /\
  let out := run_AIO_WAIT_WHILE (countdown_env false 0) 5 (Some 7)
               countdown_cond (countdown_start 2) in
  (forall pre b post,
      trace (snd out) = pre ++ E_cond b :: post ->
      In E_atomic_inc pre /\ ~ In E_atomic_dec pre) /\
  (forall w, fst out = Val w ->
      exists tr, trace (snd out) = tr ++ [E_cond false; E_atomic_dec] /\
                 ~ In E_atomic_dec tr /\
                 count is_inc (trace (snd out)) = 1) /\
  (In E_atomic_dec (trace (snd out)) -> exists w, fst out = Val w).
Proof.
  split; [reflexivity|].
  apply (@foreign_path_inc_before_cond_dec_after nat (countdown_env false 0)
           countdown_cond 5 (Some 7) (countdown_start 2)).
  reflexivity.
Defined.

(* --------------------------------------------------------------------- *)
(** ** scsi_cdb_length *)
(* --------------------------------------------------------------------- *)

Lemma group_code_range (b : byte) : (0 <= group_code b <= 7)%Z.
Proof. destruct b; cbv; split; discriminate. Qed.

(** C10.  On every buffer with a first byte [scsi_cdb_length] returns, and
    the value is decided by the group code [buf[0] >> 5] alone: 6 for
    group 0, 10 for groups 1 and 2, 16 for group 4, 12 for group 5 and
    [VIRTIO_SCSI_CDB_SIZE] for groups 3, 6 and 7; the group code is one of
    0..7, the value is one of the five, and the bytes after the first do
    not matter. *)
Theorem scsi_cdb_length_by_group_code
    (VIRTIO_SCSI_CDB_SIZE : Z) (b0 : byte) (rest : list byte) :
  let g := Z.shiftr (Z.of_N (Byte.to_N b0)) 5 in
  exists len,
    scsi_cdb_length VIRTIO_SCSI_CDB_SIZE (b0 :: rest) = Some len /\
    (0 <= g <= 7)%Z /\
    (g = 0%Z -> len = 6%Z) /\
    (g = 1%Z \/ g = 2%Z -> len = 10%Z) /\
    (g = 4%Z -> len = 16%Z) /\
    (g = 5%Z -> len = 12%Z) /\
    (g = 3%Z \/ g = 6%Z \/ g = 7%Z -> len = VIRTIO_SCSI_CDB_SIZE) /\
    In len [6%Z; 10%Z; 12%Z; 16%Z; VIRTIO_SCSI_CDB_SIZE] /\
    (forall rest',
        scsi_cdb_length VIRTIO_SCSI_CDB_SIZE (b0 :: rest') = Some len).
Proof.
  intros g. exists (cdb_len_of_opcode VIRTIO_SCSI_CDB_SIZE b0).
  split; [reflexivity|]. subst g.
  destruct b0; vm_compute;
    repeat split; intros; try discriminate; try reflexivity; auto 10;
    intuition discriminate.
Qed.

Example scsi_cdb_length_read10 :
  scsi_cdb_length 32 [x28; x00; x00] = Some 10%Z.
Proof. reflexivity. Qed.

Example scsi_cdb_length_vendor :
  scsi_cdb_length 32 [xff] = Some 32%Z.
Proof. reflexivity. Qed.

(* --------------------------------------------------------------------- *)
(** ** The last branch: what one iteration of the wait loop does *)
(* --------------------------------------------------------------------- *)

(** C3.  One run of the loop body of the last branch releases [ctx_] if
    and only if it is non-NULL, polls the main loop's context once,
    blocking, acquires [ctx_] again if and only if it is non-NULL, and
    leaves [waited_] set; with a NULL [ctx_] the poll is its only call.  In
    a whole run that passed the assertion, the events after the increment
    are those of the iterations, each begun by an evaluation of [cond] to
    true, and nothing else until the loop is left. *)
Theorem foreign_loop_iteration
    (World : Type) (env : Env World) (cond : Cond World) (fuel : nat)
    (ctx_ : option AioContext) (s : State World) :
  let g := qemu_get_aio_context env in
  let calls :=
    match ctx_ with
    | Some c => [E_aio_context_release c; E_aio_poll g true;
                 E_aio_context_acquire c]
    | None => [E_aio_poll g true]
    end in
  (forall m : Machine World,
      foreign_body env ctx_ m =
      (Val tt,
       mkMachine
         match ctx_ with
         | Some c =>
             aio_context_acquire env c
               (aio_poll env g true (aio_context_release env c (st m)))
         | None => aio_poll env g true (st m)
         end
         true
         (trace m ++ calls))) /\
  (select_path env ctx_ s = ForeignThreadPath ->
   qemu_get_current_aio_context env s = g ->
   let out := run_AIO_WAIT_WHILE env fuel ctx_ cond s in
   exists n tail,
     n <= fuel /\
     trace (snd out) =
       foreign_selection ctx_ ++ [E_assert true; E_atomic_inc]
         ++ iterations calls n ++ tail /\
     (tail = [E_cond false; E_atomic_dec] /\ fst out = Val (0 <? n) \/
      tail = [] /\ fst out = Spin /\ n = fuel) /\
     count is_blocking_aio_poll (trace (snd out)) = n).
Proof.
  intros g calls. split.
  - intros m. rewrite foreign_body_run. destruct ctx_; reflexivity.
  - intros Hsel Hcur out.
    assert (Hcalls : calls = foreign_events g ctx_) by reflexivity.
    assert (Hpoll : forall n,
      count is_blocking_aio_poll
        (foreign_selection ctx_ ++ [E_assert true; E_atomic_inc]
           ++ iterations (foreign_events g ctx_) n) = n).
    { intros n. rewrite count_foreign_loop by reflexivity. cbn. lia. }
    destruct (foreign_run env cond fuel ctx_ s Hsel)
      as [(Hne & Hr) | [(Heq & n & mc & Hn & Hmc & Ht & Hf & Hr & Htr)
                       | (Heq & Hr & Htr)]];
      [contradiction | |]; subst out; rewrite Hr; cbn [fst snd trace].
    + exists n, [E_cond false; E_atomic_dec].
      rewrite Htr, Hcalls. fold g.
      split; [lia|]. split; [reflexivity|]. split; [left; auto|].
      rewrite !count_app_tail, Hpoll.
      cbn. lia.
    + exists fuel, []. rewrite Htr, Hcalls. fold g.
      split; [lia|]. split; [rewrite app_nil_r; reflexivity|].
      split; [right; auto|].
      apply Hpoll.
Qed.

(** The main loop waiting for context 7, which takes two polls. *)
Lemma foreign_loop_iteration_witness :
  select_path (countdown_env false 0) (Some 7) (countdown_start 2)
    = ForeignThreadPath /\
  qemu_get_current_aio_context (countdown_env false 0) (countdown_start 2)
    = 0 /\
  exists n tail,
    n <= 5 /\
    trace (snd (run_AIO_WAIT_WHILE (countdown_env false 0) 5 (Some 7)
                  countdown_cond (countdown_start 2))) =
      [E_qemu_in_coroutine false; E_in_aio_context_home_thread 7 false]
        ++ [E_assert true; E_atomic_inc]
        ++ iterations [E_aio_context_release 7; E_aio_poll 0 true;
                       E_aio_context_acquire 7] n
        ++ tail /\
    (tail = [E_cond false; E_atomic_dec] /\
     fst (run_AIO_WAIT_WHILE (countdown_env false 0) 5 (Some 7)
            countdown_cond (countdown_start 2)) = Val (0 <? n) \/
     tail = [] /\
     fst (run_AIO_WAIT_WHILE (countdown_env false 0) 5 (Some 7)
            countdown_cond (countdown_start 2)) = Spin /\ n = 5) /\
    count is_blocking_aio_poll
      (trace (snd (run_AIO_WAIT_WHILE (countdown_env false 0) 5 (Some 7)
                     countdown_cond (countdown_start 2)))) = n.
Proof.
  split; [reflexivity|]. split; [reflexivity|].
  apply (proj2 (@foreign_loop_iteration nat (countdown_env false 0)
                  countdown_cond 5 (Some 7) (countdown_start 2)));
    reflexivity.
Defined.

(* --------------------------------------------------------------------- *)
(** ** The last branch: the assertion on the caller's context *)
(* --------------------------------------------------------------------- *)

(** C6.  The last branch starts with an assertion that the caller's
    current context is the main loop's context: it is the first event
    after the selection of the branch.  A caller in the main loop's
    context passes it; any other caller aborts there, with [num_waiters]
    not incremented, [cond] not evaluated, nothing polled and the state
    as it was. *)
Theorem foreign_path_asserts_main_context
    (World : Type) (env : Env World) (cond : Cond World) (fuel : nat)
    (ctx_ : option AioContext) (s : State World) :
  select_path env ctx_ s = ForeignThreadPath ->
  let out := run_AIO_WAIT_WHILE env fuel ctx_ cond s in
  let holds := Nat.eqb (qemu_get_current_aio_context env s)
                       (qemu_get_aio_context env) in
  (exists tail,
      trace (snd out) = foreign_selection ctx_ ++ E_assert holds :: tail) /\
  (qemu_get_current_aio_context env s = qemu_get_aio_context env ->
   fst out <> Abort) /\
  (qemu_get_current_aio_context env s <> qemu_get_aio_context env ->
   fst out = Abort /\
   trace (snd out) = foreign_selection ctx_ ++ [E_assert false] /\
   st (snd out) = s).
Proof.
  intros Hsel out holds.
  destruct (foreign_run env cond fuel ctx_ s Hsel)
    as [(Hne & Hr) | [(Heq & n & mc & Hn & Hmc & Ht & Hf & Hr & Htr)
                     | (Heq & Hr & Htr)]];
    subst out holds; rewrite Hr; cbn [fst snd trace st].
  - apply Nat.eqb_neq in Hne as Hb. rewrite Hb.
    split; [exists []; reflexivity|].
    split; [intros Heq; contradiction|]. auto.
  - apply Nat.eqb_eq in Heq as Hb. rewrite Hb, Htr.
    split; [eexists; cbn; reflexivity|].
    split; [discriminate|]. intros Hne. contradiction.
  - apply Nat.eqb_eq in Heq as Hb. rewrite Hb, Htr.
    split; [eexists; cbn; reflexivity|].
    split; [discriminate|]. intros Hne. contradiction.
Qed.

(** An IOThread that owns context 3 waits on context 7: the assertion
    stops it. *)
Lemma foreign_path_asserts_main_context_witness :
  select_path (countdown_env false 3) (Some 7) (countdown_start 2)
    = ForeignThreadPath /\
  let out := run_AIO_WAIT_WHILE (countdown_env false 3) 5 (Some 7)
               countdown_cond (countdown_start 2) in
  fst out = Abort /\
  trace (snd out) =
    [E_qemu_in_coroutine false; E_in_aio_context_home_thread 7 false;
     E_assert false] /\
  st (snd out) = countdown_start 2.
Proof.
  split; [reflexivity|].
  apply (@foreign_path_asserts_main_context nat (countdown_env false 3)
           countdown_cond 5 (Some 7) (countdown_start 2) eq_refl).
  discriminate.
Defined.

(* --------------------------------------------------------------------- *)
(** ** Every run has the outcome of the path its caller selects *)
(* --------------------------------------------------------------------- *)

Section RunOutcome.

Variable World : Type.
Variable env : Env World.
Variable cond : Cond World.

Lemma run_outcome (fuel : nat) (ctx_ : option AioContext) (s : State World) :
  path_outcome (qemu_get_aio_context env) ctx_ fuel
    (select_path env ctx_ s)
    (run_AIO_WAIT_WHILE env fuel ctx_ cond s).
Proof.
  destruct (select_path env ctx_ s) as [|c|] eqn:Hsel; cbn [path_outcome].
  - assert (Hco : qemu_in_coroutine env s = true).
    { unfold select_path in Hsel.
      destruct (qemu_in_coroutine env s); [reflexivity|].
      destruct ctx_ as [c|]; [|discriminate].
      destruct (in_aio_context_home_thread env c s); discriminate. }
    destruct (coroutine_run env cond fuel ctx_ s Hco)
      as [(n & Hn & _ & _ & Hr & Htr) | (Hr & Htr)].
    + exists n. left. rewrite Hr. auto.
    + exists fuel. right. rewrite Hr. auto.
  - assert (H : qemu_in_coroutine env s = false /\ ctx_ = Some c /\
                in_aio_context_home_thread env c s = true).
    { unfold select_path in Hsel.
      destruct (qemu_in_coroutine env s); [discriminate|].
      destruct ctx_ as [c'|]; [|discriminate].
      destruct (in_aio_context_home_thread env c' s) eqn:Hh;
        [|discriminate].
      injection Hsel as <-. auto. }
    destruct H as (Hco & -> & Hhome).
    destruct (home_run env cond fuel c s Hco Hhome)
      as [(n & Hn & _ & _ & Hr & Htr) | (Hr & Htr)].
    + exists n. left. rewrite Hr. auto.
    + exists fuel. right. rewrite Hr. auto.
  - destruct (foreign_run env cond fuel ctx_ s Hsel)
      as [(Hne & Hr) | [(Heq & n & mc & Hn & Hmc & Ht & Hf & Hr & Htr)
                       | (Heq & Hr & Htr)]].
    + left. rewrite Hr. auto.
    + right. exists n. left. rewrite Hr. auto.
    + right. exists fuel. right. rewrite Hr. auto.
Qed.

End RunOutcome.

(* --------------------------------------------------------------------- *)
(** ** Facts about the outcomes *)
(* --------------------------------------------------------------------- *)

Lemma first_cond_skip (pre l : list Event) :
  count is_cond pre = 0 -> first_cond (pre ++ l) = first_cond l.
Proof.
  unfold count, first_cond. induction pre as [|e pre IH]; intros H.
  - reflexivity.
  - cbn in *. destruct (is_cond e); [discriminate|]. apply IH. exact H.
Qed.

Lemma first_cond_cons (e : Event) (l : list Event) :
  is_cond e = false -> first_cond (e :: l) = first_cond l.
Proof. intros H. unfold first_cond. cbn. rewrite H. reflexivity. Qed.

Lemma first_cond_iterations (blk tail : list Event) (n : nat) :
  first_cond (iterations blk n ++ tail) =
  match n with
  | O => first_cond tail
  | S _ => Some true
  end.
Proof. destruct n; reflexivity. Qed.

Lemma select_path_coroutine {World} (env : Env World)
    (ctx_ : option AioContext) (s : State World) :
  select_path env ctx_ s = CoroutinePath <-> qemu_in_coroutine env s = true.
Proof.
  unfold select_path. destruct (qemu_in_coroutine env s).
  - split; reflexivity.
  - destruct ctx_ as [c|];
      [destruct (in_aio_context_home_thread env c s)|];
      split; discriminate.
Qed.

Lemma select_path_home {World} (env : Env World)
    (ctx_ : option AioContext) (s : State World) (c : AioContext) :
  select_path env ctx_ s = HomeThreadPath c <->
  qemu_in_coroutine env s = false /\ ctx_ = Some c /\
  in_aio_context_home_thread env c s = true.
Proof.
  unfold select_path. destruct (qemu_in_coroutine env s).
  - split; [discriminate | intros (H & _); discriminate].
  - destruct ctx_ as [c'|].
    + destruct (in_aio_context_home_thread env c' s) eqn:Hh.
      * split.
        -- intros H. injection H as <-. auto.
        -- intros (_ & H & _). injection H as <-. reflexivity.
      * split; [discriminate|].
        intros (_ & H & H'). injection H as <-. congruence.
    + split; [discriminate | intros (_ & H & _); discriminate].
Qed.

Section OutcomeFacts.

Variable World : Type.

Lemma count_coroutine_loop (p : Event -> bool) (n : nat) :
  count p (E_qemu_in_coroutine true :: iterations coroutine_events n) =
  count p [E_qemu_in_coroutine true]
  + n * count p (E_cond true :: coroutine_events).
Proof.
  change (E_qemu_in_coroutine true :: iterations coroutine_events n)
    with ([E_qemu_in_coroutine true] ++ iterations coroutine_events n).
  rewrite count_app, count_iterations. reflexivity.
Qed.

Lemma count_home_loop (p : Event -> bool) (c : AioContext) (n : nat) :
  count p ([E_qemu_in_coroutine false; E_in_aio_context_home_thread c true]
             ++ iterations (home_events c) n) =
  count p [E_qemu_in_coroutine false; E_in_aio_context_home_thread c true]
  + n * count p (E_cond true :: home_events c).
Proof. rewrite count_app, count_iterations. reflexivity. Qed.

(** The value returned is whether a blocking poll was made. *)
Lemma coroutine_outcome_polls (fuel : nat) (out : Res bool * Machine World) :
  coroutine_outcome fuel out ->
  count is_aio_poll (trace (snd out)) = 0 /\
  count is_blocking_aio_poll (trace (snd out)) = 0 /\
  (forall w, fst out = Val w -> w = false).
Proof.
  intros [n [(Hn & Hr & Htr) | (Hn & Hr & Htr)]]; rewrite Htr, Hr.
  - rewrite !app_comm_cons, !count_app, !count_coroutine_loop. cbn.
    rewrite !Nat.mul_0_r. repeat split. intros w Hw. congruence.
  - rewrite !count_coroutine_loop. cbn.
    rewrite !Nat.mul_0_r. repeat split. intros w Hw. discriminate.
Qed.

Lemma home_outcome_polls (c : AioContext) (fuel : nat)
    (out : Res bool * Machine World) :
  home_outcome c fuel out ->
  exists n,
    count is_blocking_aio_poll (trace (snd out)) = n /\
    count (Event_eqb (E_aio_poll c true)) (trace (snd out)) = n /\
    count is_aio_poll (trace (snd out)) = n /\
    count is_cond (trace (snd out)) =
      match fst out with Val _ => S n | _ => n end /\
    count touches_AioWait (trace (snd out)) = 0 /\
    (forall w, fst out = Val w -> w = (0 <? n)).
Proof.
  intros [n [(Hn & Hr & Htr) | (Hn & Hr & Htr)]]; rewrite Htr, Hr;
    exists n.
  - rewrite !count_app_last, !count_home_loop.
    unfold count. cbn. rewrite Nat.eqb_refl. cbn.
    repeat split; try lia. intros w Hw. congruence.
  - rewrite !count_home_loop.
    unfold count. cbn. rewrite Nat.eqb_refl. cbn.
    repeat split; try lia. intros w Hw. discriminate.
Qed.

Lemma foreign_outcome_polls (g : AioContext) (ctx_ : option AioContext)
    (fuel : nat) (out : Res bool * Machine World) :
  foreign_outcome g ctx_ fuel out ->
  exists n,
    count is_blocking_aio_poll (trace (snd out)) = n /\
    count (Event_eqb (E_aio_poll g true)) (trace (snd out)) = n /\
    count is_aio_poll (trace (snd out)) = n /\
    count is_co_wait (trace (snd out)) = 0 /\
    (forall w, fst out = Val w -> w = (0 <? n)).
Proof.
  intros [(Hr & Htr) | [n [(Hn & Hr & Htr) | (Hn & Hr & Htr)]]];
    rewrite Htr, Hr.
  - exists 0. rewrite !count_app, !count_foreign_selection by reflexivity.
    repeat split. intros w Hw. discriminate.
  - exists n. rewrite !count_app_tail, !count_foreign_loop by reflexivity.
    unfold count. cbn. rewrite Nat.eqb_refl. cbn.
    repeat split; try lia. intros w Hw. congruence.
  - exists n. rewrite !count_foreign_loop by reflexivity.
    unfold count. cbn. rewrite Nat.eqb_refl. cbn.
    repeat split; try lia. intros w Hw. discriminate.
Qed.

End OutcomeFacts.

Lemma ltb_0_true_iff (n : nat) : (0 <? n) = true <-> 0 < n.
Proof. apply Nat.ltb_lt. Qed.

(* --------------------------------------------------------------------- *)
(** ** The value of AIO_WAIT_WHILE *)
(* --------------------------------------------------------------------- *)

(** C4.  The value a returning [AIO_WAIT_WHILE] has is true exactly when
    the macro made at least one blocking [aio_poll], which it does once
    per run of the loop body outside coroutines.  In a coroutine the value
    is false, however often the coroutine was suspended, and on every path
    a run whose first evaluation of [cond] finds it false returns false. *)
Theorem waited_iff_blocking_poll
    (World : Type) (env : Env World) (cond : Cond World) (fuel : nat)
    (ctx_ : option AioContext) (s : State World) :
  let out := run_AIO_WAIT_WHILE env fuel ctx_ cond s in
  (forall w, fst out = Val w ->
     (w = true <-> 0 < count is_blocking_aio_poll (trace (snd out)))) /\
  (qemu_in_coroutine env s = true ->
     forall w, fst out = Val w -> w = false) /\
  (first_cond (trace (snd out)) = Some false -> fst out = Val false).
Proof.
  intros out. pose proof (run_outcome env cond fuel ctx_ s) as Hout.
  fold out in Hout. clearbody out.
  destruct (select_path env ctx_ s) as [|c|] eqn:Hsel;
    cbn [path_outcome] in Hout.
  - (* coroutine *)
    destruct (coroutine_outcome_polls Hout) as (_ & Hb & Hw).
    split; [|split].
    + intros w Hv. rewrite Hb, (Hw w Hv). split; [discriminate | lia].
    + intros _. exact Hw.
    + destruct Hout as [n [(Hn & Hr & Htr) | (Hn & Hr & Htr)]];
        [intros _; exact Hr|].
      rewrite Htr, <- (app_nil_r (iterations _ _)).
      rewrite first_cond_cons by reflexivity.
      rewrite first_cond_iterations.
      destruct n; discriminate.
  - (* home thread *)
    apply select_path_home in Hsel as (Hco & _ & _).
    destruct (home_outcome_polls Hout) as (k & Hb & _ & _ & _ & _ & Hw).
    split; [|split].
    + intros w Hv. rewrite Hb, (Hw w Hv). apply ltb_0_true_iff.
    + intros Hco'. congruence.
    + destruct Hout as [n [(Hn & Hr & Htr) | (Hn & Hr & Htr)]];
        rewrite Htr, Hr.
      * rewrite first_cond_skip, first_cond_iterations by reflexivity.
        destruct n; [reflexivity | discriminate].
      * rewrite <- (app_nil_r (iterations _ _)).
        rewrite first_cond_skip, first_cond_iterations by reflexivity.
        destruct n; discriminate.
  - (* anywhere else *)
    destruct (select_foreign_inv env ctx_ s Hsel) as [Hco _].
    destruct (foreign_outcome_polls Hout) as (k & Hb & _ & _ & _ & Hw).
    assert (Hsel0 : forall b,
              count is_cond (foreign_selection ctx_ ++ [E_assert b]) = 0).
    { intros b. rewrite count_app, count_foreign_selection by reflexivity.
      reflexivity. }
    split; [|split].
    + intros w Hv. rewrite Hb, (Hw w Hv). apply ltb_0_true_iff.
    + intros Hco'. congruence.
    + destruct Hout as [(Hr & Htr) | [n [(Hn & Hr & Htr) | (Hn & Hr & Htr)]]];
        rewrite Htr, Hr.
      * rewrite <- (app_nil_r (_ ++ [E_assert false])).
        rewrite first_cond_skip by apply Hsel0. discriminate.
      * rewrite first_cond_skip
          by (apply count_foreign_selection; reflexivity).
        cbn [app]. rewrite !first_cond_cons by reflexivity.
        rewrite first_cond_iterations.
        destruct n; [reflexivity | discriminate].
      * rewrite first_cond_skip
          by (apply count_foreign_selection; reflexivity).
        cbn [app]. rewrite !first_cond_cons by reflexivity.
        rewrite <- (app_nil_r (iterations _ _)), first_cond_iterations.
        destruct n; discriminate.
Qed.

(** In a coroutine that is suspended twice the value is false; in the
    main loop a run that finds the work already done returns false. *)
Lemma waited_iff_blocking_poll_witness :
  (qemu_in_coroutine (countdown_env true 0) (countdown_start 2) = true /\
   count is_co_wait
     (trace (snd (run_AIO_WAIT_WHILE (countdown_env true 0) 5 (Some 7)
                    countdown_cond (countdown_start 2)))) = 2 /\
   forall w,
     fst (run_AIO_WAIT_WHILE (countdown_env true 0) 5 (Some 7)
            countdown_cond (countdown_start 2)) = Val w -> w = false) /\
  (first_cond
     (trace (snd (run_AIO_WAIT_WHILE (countdown_env false 0) 5 (Some 7)
                    countdown_cond (countdown_start 0)))) = Some false /\
   fst (run_AIO_WAIT_WHILE (countdown_env false 0) 5 (Some 7)
          countdown_cond (countdown_start 0)) = Val false).
Proof.
  split.
  - split; [reflexivity|]. split; [reflexivity|].
    apply (proj1 (proj2 (@waited_iff_blocking_poll nat (countdown_env true 0)
                           countdown_cond 5 (Some 7) (countdown_start 2)))).
    reflexivity.
  - split; [reflexivity|].
    apply (proj2 (proj2 (@waited_iff_blocking_poll nat (countdown_env false 0)
                           countdown_cond 5 (Some 7) (countdown_start 0)))).
    reflexivity.
Defined.

(* --------------------------------------------------------------------- *)
(** ** Path selection *)
(* --------------------------------------------------------------------- *)

(** A run has the outcome of one path only. *)
Lemma path_outcome_exclusive (World : Type) (g : AioContext)
    (ctx_ : option AioContext) (fuel : nat) (p q : Path)
    (out : Res bool * Machine World) :
  path_outcome g ctx_ fuel p out -> path_outcome g ctx_ fuel q out -> p = q.
Proof.
  intros Hp Hq.
  assert (Hhd : forall (pa : Path),
    path_outcome g ctx_ fuel pa out ->
    exists b rest,
      trace (snd out) =
        match pa with
        | CoroutinePath => E_qemu_in_coroutine true :: rest
        | HomeThreadPath c =>
            E_qemu_in_coroutine false
              :: E_in_aio_context_home_thread c true :: rest
        | ForeignThreadPath =>
            match ctx_ with
            | Some c =>
                E_qemu_in_coroutine false
                  :: E_in_aio_context_home_thread c false :: rest
            | None =>
                E_qemu_in_coroutine false :: E_assert b :: rest
            end
        end).
  { intros [|c|]; cbn [path_outcome].
    - intros [n [(_ & _ & Htr) | (_ & _ & Htr)]]; rewrite Htr;
        exists true; eauto.
    - intros [n [(_ & _ & Htr) | (_ & _ & Htr)]]; rewrite Htr;
        cbn [app]; exists true; eauto.
    - intros [(_ & Htr) | [n [(_ & _ & Htr) | (_ & _ & Htr)]]];
        rewrite Htr; destruct ctx_ as [c|]; cbn [app foreign_selection];
        repeat eexists; exact true. }
  destruct (Hhd p Hp) as (b1 & r1 & H1).
  destruct (Hhd q Hq) as (b2 & r2 & H2).
  rewrite H1 in H2. clear Hhd Hp Hq H1.
  destruct p as [|c|], q as [|d|]; try reflexivity;
    try destruct ctx_ as [e|]; congruence.
Qed.

(** C2.  Every invocation takes exactly one of the three paths, and the
    caller's context selects it: the coroutine path in a coroutine, where
    the macro itself never calls [aio_poll]; otherwise the home-thread
    path when [ctx] is non-NULL and the caller is its home thread, where
    every poll the macro makes is [aio_poll(ctx, true)], once per
    iteration; and the last path in every other case, NULL [ctx] included,
    where every poll is a blocking poll of the main loop's context. *)
Theorem path_selection
    (World : Type) (env : Env World) (cond : Cond World) (fuel : nat)
    (ctx_ : option AioContext) (s : State World) :
  let out := run_AIO_WAIT_WHILE env fuel ctx_ cond s in
  let g := qemu_get_aio_context env in
  let taken := select_path env ctx_ s in
  (* the rule *)
  taken =
    (if qemu_in_coroutine env s then CoroutinePath
     else match ctx_ with
          | None => ForeignThreadPath
          | Some c => if in_aio_context_home_thread env c s
                      then HomeThreadPath c else ForeignThreadPath
          end) /\
  (* that path is taken, and no other *)
  path_outcome g ctx_ fuel taken out /\
  (forall p, path_outcome g ctx_ fuel p out -> p = taken) /\
  (* what the macro polls on it *)
  match taken with
  | CoroutinePath => count is_aio_poll (trace (snd out)) = 0
  | HomeThreadPath c =>
      count is_aio_poll (trace (snd out)) =
        count (Event_eqb (E_aio_poll c true)) (trace (snd out)) /\
      count touches_AioWait (trace (snd out)) = 0 /\
      count is_cond (trace (snd out)) =
        match fst out with
        | Val _ => S (count is_aio_poll (trace (snd out)))
        | _ => count is_aio_poll (trace (snd out))
        end
  | ForeignThreadPath =>
      count is_aio_poll (trace (snd out)) =
        count (Event_eqb (E_aio_poll g true)) (trace (snd out)) /\
      count is_co_wait (trace (snd out)) = 0
  end.
Proof.
  intros out g taken.
  pose proof (run_outcome env cond fuel ctx_ s) as Hout.
  fold out g taken in Hout.
  split; [reflexivity|]. split; [exact Hout|]. split.
  - intros p Hp. exact (path_outcome_exclusive _ _ _ _ _ _ Hp Hout).
  - clearbody out taken. destruct taken as [|c|]; cbn [path_outcome] in Hout.
    + apply (coroutine_outcome_polls Hout).
    + destruct (home_outcome_polls Hout)
        as (n & Hb & He & Ha & Hc & Ht & _).
      rewrite Ha, He, Hc, Ht. auto.
    + destruct (foreign_outcome_polls Hout) as (n & Hb & He & Ha & Hw & _).
      rewrite Ha, He, Hw. auto.
Qed.

(* --------------------------------------------------------------------- *)
(** ** num_waiters over a whole run *)
(* --------------------------------------------------------------------- *)

Lemma wrap_inc_dec (k : Z) :
  (0 <= k < UINT_MODULUS)%Z ->
  wrap_unsigned (wrap_unsigned (k + 1) - 1) = k.
Proof.
  intros Hk. unfold wrap_unsigned.
  rewrite Zminus_mod_idemp_l.
  replace (k + 1 - 1)%Z with k by lia.
  apply Z.mod_small. exact Hk.
Qed.

Section NumWaiters.

Variable World : Type.
Variable env : Env World.
Variable cond : Cond World.

(** What the callees and [cond] do on their own leaves the counter
    alone. *)
Hypothesis co_wait_keeps : keeps_num_waiters (qemu_co_queue_wait env).
Hypothesis poll_keeps : forall c b, keeps_num_waiters (aio_poll env c b).
Hypothesis release_keeps :
  forall c, keeps_num_waiters (aio_context_release env c).
Hypothesis acquire_keeps :
  forall c, keeps_num_waiters (aio_context_acquire env c).
Hypothesis cond_keeps : cond_keeps_num_waiters cond.

Lemma after_cond_num_waiters (m : Machine World) :
  num_waiters (aio_wait (st (after_cond cond m))) =
  num_waiters (aio_wait (st m)).
Proof. rewrite after_cond_st. apply cond_keeps. Qed.

Lemma coroutine_body_num_waiters (m : Machine World) :
  (0 <= num_waiters (aio_wait (st m)) < UINT_MODULUS)%Z ->
  num_waiters (aio_wait (st (after_body (coroutine_body env) m))) =
  num_waiters (aio_wait (st m)).
Proof.
  intros Hk. unfold after_body. rewrite coroutine_body_run. cbn.
  rewrite co_wait_keeps. cbn. apply wrap_inc_dec. exact Hk.
Qed.

Lemma home_body_num_waiters (c : AioContext) (m : Machine World) :
  num_waiters (aio_wait (st (after_body (home_body env c) m))) =
  num_waiters (aio_wait (st m)).
Proof. cbn. apply poll_keeps. Qed.

Lemma foreign_body_num_waiters (ctx_ : option AioContext)
    (m : Machine World) :
  num_waiters (aio_wait (st (after_body (foreign_body env ctx_) m))) =
  num_waiters (aio_wait (st m)).
Proof.
  unfold after_body. rewrite foreign_body_run. cbn.
  destruct ctx_ as [c|]; cbn.
  - rewrite acquire_keeps, poll_keeps, release_keeps. reflexivity.
  - apply poll_keeps.
Qed.

(** A loop whose body keeps the counter keeps it for any number of
    iterations. *)
Lemma unroll_num_waiters (body : M World unit) (k : Z) :
  (forall m, num_waiters (aio_wait (st m)) = k ->
             num_waiters (aio_wait (st (after_body body m))) = k) ->
  forall n m,
    num_waiters (aio_wait (st m)) = k ->
    num_waiters (aio_wait (st (unroll cond body n m))) = k.
Proof.
  intros Hbody. induction n as [|n IH]; intros m Hm; [exact Hm|].
  cbn [unroll]. apply IH, Hbody. rewrite after_cond_num_waiters. exact Hm.
Qed.

(** After a run that returns, the counter is what it was. *)
Lemma returned_num_waiters (fuel : nat) (ctx_ : option AioContext)
    (s : State World) (w : bool) :
  (0 <= num_waiters (aio_wait s) < UINT_MODULUS)%Z ->
  fst (run_AIO_WAIT_WHILE env fuel ctx_ cond s) = Val w ->
  num_waiters (aio_wait (st (snd (run_AIO_WAIT_WHILE env fuel ctx_ cond s))))
  = num_waiters (aio_wait s).
Proof.
  intros Hk.
  destruct (select_path env ctx_ s) as [|c|] eqn:Hsel.
  - apply select_path_coroutine in Hsel.
    destruct (coroutine_run env cond fuel ctx_ s Hsel)
      as [(n & _ & _ & _ & Hr & _) | (Hr & _)]; rewrite Hr;
      [|discriminate].
    intros _. cbn [fst snd]. rewrite after_cond_num_waiters.
    apply unroll_num_waiters; [|reflexivity].
    intros m Hm. rewrite coroutine_body_num_waiters; [exact Hm|].
    rewrite Hm. exact Hk.
  - apply select_path_home in Hsel as (Hco & -> & Hhome).
    destruct (home_run env cond fuel c s Hco Hhome)
      as [(n & _ & _ & _ & Hr & _) | (Hr & _)]; rewrite Hr;
      [|discriminate].
    intros _. cbn [fst snd]. rewrite after_cond_num_waiters.
    apply unroll_num_waiters; [|reflexivity].
    intros m Hm. rewrite home_body_num_waiters. exact Hm.
  - destruct (foreign_run env cond fuel ctx_ s Hsel)
      as [(_ & Hr) | [(_ & n & mc & _ & Hmc & _ & _ & Hr & _)
                     | (_ & Hr & _)]]; rewrite Hr; try discriminate.
    intros _. cbn. subst mc. rewrite after_cond_num_waiters.
    rewrite (@unroll_num_waiters (foreign_body env ctx_)
               (wrap_unsigned (num_waiters (aio_wait s) + 1))).
    + apply wrap_inc_dec. exact Hk.
    + intros m Hm. rewrite foreign_body_num_waiters. exact Hm.
    + reflexivity.
Qed.

End NumWaiters.

(** C9.  A run of [AIO_WAIT_WHILE] that returns has made as many
    increments of [num_waiters] as decrements, on each path: none on the
    home-thread path; one of each on the last path, also when the first
    evaluation of [cond] already finds it false; and in a coroutine one
    increment before and one decrement after each suspension.  When the
    functions called and [cond] leave the counter alone, it holds after
    the call what it held before. *)
Theorem num_waiters_balanced
    (World : Type) (env : Env World) (cond : Cond World) (fuel : nat)
    (ctx_ : option AioContext) (s : State World) (w : bool) :
  let out := run_AIO_WAIT_WHILE env fuel ctx_ cond s in
  fst out = Val w ->
  count is_inc (trace (snd out)) = count is_dec (trace (snd out)) /\
  match select_path env ctx_ s with
  | CoroutinePath =>
      exists n,
        trace (snd out) =
          E_qemu_in_coroutine true
            :: iterations [E_atomic_inc; E_qemu_co_queue_wait; E_atomic_dec] n
            ++ [E_cond false] /\
        count is_inc (trace (snd out)) = n /\
        count is_co_wait (trace (snd out)) = n /\
        count is_dec (trace (snd out)) = n
  | HomeThreadPath _ =>
      count is_inc (trace (snd out)) = 0 /\
      count is_dec (trace (snd out)) = 0
  | ForeignThreadPath =>
      count is_inc (trace (snd out)) = 1 /\
      count is_dec (trace (snd out)) = 1
  end /\
  (keeps_num_waiters (qemu_co_queue_wait env) ->
   (forall c b, keeps_num_waiters (aio_poll env c b)) ->
   (forall c, keeps_num_waiters (aio_context_release env c)) ->
   (forall c, keeps_num_waiters (aio_context_acquire env c)) ->
   cond_keeps_num_waiters cond ->
   (0 <= num_waiters (aio_wait s) < UINT_MODULUS)%Z ->
   num_waiters (aio_wait (st (snd out))) = num_waiters (aio_wait s)).
Proof.
  intros out Hv.
  assert (Hstate :
    keeps_num_waiters (qemu_co_queue_wait env) ->
    (forall c b, keeps_num_waiters (aio_poll env c b)) ->
    (forall c, keeps_num_waiters (aio_context_release env c)) ->
    (forall c, keeps_num_waiters (aio_context_acquire env c)) ->
    cond_keeps_num_waiters cond ->
    (0 <= num_waiters (aio_wait s) < UINT_MODULUS)%Z ->
    num_waiters (aio_wait (st (snd out))) = num_waiters (aio_wait s)).
  { intros H1 H2 H3 H4 H5 Hk.
    exact (@returned_num_waiters World env cond H1 H2 H3 H4 H5
             fuel ctx_ s w Hk Hv). }
  pose proof (run_outcome env cond fuel ctx_ s) as Hout.
  fold out in Hout. clearbody out.
  destruct (select_path env ctx_ s) as [|c|]; cbn [path_outcome] in Hout.
  - destruct Hout as [n [(Hn & Hr & Htr) | (Hn & Hr & Htr)]];
      [|congruence].
    assert (Hc : forall p,
      count p (trace (snd out)) =
      count p [E_qemu_in_coroutine true]
      + n * count p (E_cond true :: coroutine_events)
      + count p [E_cond false]).
    { intros p. rewrite Htr, app_comm_cons, count_app, count_coroutine_loop.
      reflexivity. }
    rewrite !Hc. cbn. split; [reflexivity|]. split; [|exact Hstate].
    exists n. split; [exact Htr|]. repeat split; lia.
  - destruct Hout as [n [(Hn & Hr & Htr) | (Hn & Hr & Htr)]];
      [|congruence].
    rewrite Htr, !count_app_last, !count_home_loop. cbn.
    rewrite !Nat.mul_0_r. auto.
  - destruct Hout as [(Hr & Htr) | [n [(Hn & Hr & Htr) | (Hn & Hr & Htr)]]];
      [congruence | | congruence].
    rewrite Htr, !count_app_tail, !count_foreign_loop by reflexivity. cbn.
    rewrite !Nat.mul_0_r. auto.
Qed.

(** A coroutine suspended twice, from a counter at [UINT_MAX]: two
    increments (the first wraps to 0), two decrements, and the counter is
    back at [UINT_MAX]. *)
Lemma num_waiters_balanced_witness :
  let s := mkState (mkAioWait 4294967295 []) 2 in
  let out := run_AIO_WAIT_WHILE (countdown_env true 0) 5 (Some 7)
               countdown_cond s in
  fst out = Val false /\
  count is_inc (trace (snd out)) = count is_dec (trace (snd out)) /\
  count is_inc (trace (snd out)) = 2 /\
  num_waiters (aio_wait (st (snd out))) = 4294967295%Z.
Proof.
  intros s out.
  destruct (@num_waiters_balanced nat (countdown_env true 0) countdown_cond
              5 (Some 7) s false eq_refl) as (Hbal & Hpath & Hstate).
  split; [reflexivity|]. split; [exact Hbal|]. split; [reflexivity|].
  apply Hstate.
  - intros s'. reflexivity.
  - intros c b s'. reflexivity.
  - intros c s'. reflexivity.
  - intros c s'. reflexivity.
  - intros s'. reflexivity.
  - cbn. unfold UINT_MODULUS. lia.
Defined.

(* --------------------------------------------------------------------- *)
(** ** The home-thread path and the AioWait object *)
(* --------------------------------------------------------------------- *)

Section HomePath.

Variable World : Type.
Variable env : Env World.
Variable cond : Cond World.
Variable c : AioContext.

Lemma after_cond_eq (m : Machine World) :
  after_cond cond m =
  mkMachine (snd (cond (st m))) (waited_ m)
    (trace m ++ [E_cond (fst (cond (st m)))]).
Proof.
  unfold after_cond, eval_cond. destruct (cond (st m)); reflexivity.
Qed.

Lemma home_run_branch (fuel : nat) (s : State World) :
  qemu_in_coroutine env s = false ->
  in_aio_context_home_thread env c s = true ->
  run_AIO_WAIT_WHILE env fuel (Some c) cond s =
    match while_ fuel (eval_cond cond) (home_body env c)
            (mkMachine s false
               [E_qemu_in_coroutine false;
                E_in_aio_context_home_thread c true]) with
    | (Val _, m') => (Val (waited_ m'), m')
    | (Abort, m') => (Abort, m')
    | (Spin, m') => (Spin, m')
    end.
Proof.
  intros Hco Hhome.
  unfold run_AIO_WAIT_WHILE, AIO_WAIT_WHILE, call_qemu_in_coroutine,
    call_in_aio_context_home_thread, home_branch, bind, set_waited_,
    query, emit, ret, get_waited_.
  cbn. rewrite Hco. cbn. rewrite Hhome. cbn.
  destruct (while_ fuel (eval_cond cond) (home_body env c) _)
    as [[[]| |] m']; reflexivity.
Qed.

(** The loop runs the same with any other object in place of [*wait_],
    and hands that object back. *)
Lemma home_loop_ignores_AioWait (fuel : nat) (a : AioWait) :
  ignores_AioWait (aio_poll env c true) ->
  cond_ignores_AioWait cond ->
  forall m,
    while_ fuel (eval_cond cond) (home_body env c)
      (mkMachine (set_wait a (st m)) (waited_ m) (trace m)) =
    let out := while_ fuel (eval_cond cond) (home_body env c) m in
    (fst out,
     mkMachine (set_wait a (st (snd out))) (waited_ (snd out))
       (trace (snd out))).
Proof.
  intros Hpoll Hcond. induction fuel as [|fuel IH]; intros m; [reflexivity|].
  pose proof (Hcond a (st m)) as Hc.
  rewrite !(while_S cond (home_body env c) (home_body_returns env c)).
  unfold cond_value. rewrite !after_cond_eq. cbn [st waited_ trace].
  rewrite !Hc. cbn [fst snd].
  destruct (fst (cond (st m))); [|reflexivity].
  unfold after_body. rewrite !home_body_run. cbn [snd st waited_ trace].
  rewrite Hpoll.
  exact (IH (mkMachine (aio_poll env c true (snd (cond (st m)))) true
               ((trace m ++ [E_cond true]) ++ home_events c))).
Qed.

End HomePath.

(** C5.  On the home-thread path the macro makes no access to
    [num_waiters] or [wait_queue]: its trace holds no increment, no
    decrement and no wait on the queue.  So the object is after the call
    what [aio_poll] and [cond] themselves made of it, unchanged when they
    leave it alone; and when they do not look at it either, the call runs
    the same, value and calls, with any other object in its place, and
    hands that object back as it was. *)
Theorem home_path_leaves_AioWait_alone
    (World : Type) (env : Env World) (cond : Cond World) (fuel : nat)
    (c : AioContext) (s : State World) :
  qemu_in_coroutine env s = false ->
  in_aio_context_home_thread env c s = true ->
  let out := run_AIO_WAIT_WHILE env fuel (Some c) cond s in
  count touches_AioWait (trace (snd out)) = 0 /\
  (keeps_AioWait (aio_poll env c true) ->
   keeps_AioWait (fun s' => snd (cond s')) ->
   aio_wait (st (snd out)) = aio_wait s) /\
  (ignores_AioWait (aio_poll env c true) ->
   cond_ignores_AioWait cond ->
   forall a,
     qemu_in_coroutine env (set_wait a s) = false ->
     in_aio_context_home_thread env c (set_wait a s) = true ->
     run_AIO_WAIT_WHILE env fuel (Some c) cond (set_wait a s) =
       (fst out,
        mkMachine (set_wait a (st (snd out))) (waited_ (snd out))
          (trace (snd out)))).
Proof.
  intros Hco Hhome out. split; [|split].
  - pose proof (run_outcome env cond fuel (Some c) s) as Hout.
    fold out in Hout. unfold select_path in Hout.
    rewrite Hco, Hhome in Hout. cbn [path_outcome] in Hout.
    destruct (home_outcome_polls Hout) as (n & _ & _ & _ & _ & Ht & _).
    exact Ht.
  - intros Hpoll Hcond.
    assert (Hinv : forall n m,
      aio_wait (st m) = aio_wait s ->
      aio_wait (st (unroll cond (home_body env c) n m)) = aio_wait s).
    { induction n as [|n IH]; intros m Hm; [exact Hm|].
      cbn [unroll]. apply IH. unfold after_body. rewrite home_body_run.
      cbn [snd st]. rewrite Hpoll, after_cond_st.
      rewrite (Hcond (st m)). exact Hm. }
    destruct (home_run env cond fuel c s Hco Hhome)
      as [(n & _ & _ & _ & Hr & _) | (Hr & _)];
      subst out; rewrite Hr; cbn [snd].
    + rewrite after_cond_st, (Hcond _). apply Hinv. reflexivity.
    + apply Hinv. reflexivity.
  - intros Hpoll Hcond a Hco' Hhome'. subst out.
    rewrite (home_run_branch env cond c fuel (set_wait a s) Hco' Hhome').
    rewrite (home_run_branch env cond c fuel s Hco Hhome).
    pose proof (@home_loop_ignores_AioWait World env cond c fuel a Hpoll
                  Hcond
                  (mkMachine s false
                     [E_qemu_in_coroutine false;
                      E_in_aio_context_home_thread c true])) as Hloop.
    cbn [st waited_ trace] in Hloop. rewrite Hloop. clear Hloop.
    destruct (while_ fuel (eval_cond cond) (home_body env c) _)
      as [[[]| |] m']; reflexivity.
Qed.

(** The IOThread that owns context 7 waits on it: two polls of its own
    context, and the object is not touched. *)
Lemma home_path_leaves_AioWait_alone_witness :
  qemu_in_coroutine (countdown_env false 7) (countdown_start 2) = false /\
  in_aio_context_home_thread (countdown_env false 7) 7 (countdown_start 2)
    = true /\
  let out := run_AIO_WAIT_WHILE (countdown_env false 7) 5 (Some 7)
               countdown_cond (countdown_start 2) in
  count touches_AioWait (trace (snd out)) = 0 /\
  aio_wait (st (snd out)) = aio_wait (countdown_start 2) /\
  run_AIO_WAIT_WHILE (countdown_env false 7) 5 (Some 7) countdown_cond
    (set_wait (mkAioWait 41 [1; 2]) (countdown_start 2)) =
    (fst out,
     mkMachine (set_wait (mkAioWait 41 [1; 2]) (st (snd out)))
       (waited_ (snd out)) (trace (snd out))).
Proof.
  split; [reflexivity|]. split; [reflexivity|].
  intros out.
  destruct (@home_path_leaves_AioWait_alone nat (countdown_env false 7)
              countdown_cond 5 7 (countdown_start 2) eq_refl eq_refl)
    as (Htouch & Hkeep & Hignore).
  split; [exact Htouch|]. split.
  - apply Hkeep; intros s'; reflexivity.
  - apply Hignore; try reflexivity; intros a s'; reflexivity.
Defined.

(* --------------------------------------------------------------------- *)
(** ** aio_wait_kick is a broadcast *)
(* --------------------------------------------------------------------- *)

Section KickFacts.

Variable World : Type.

Lemma wrap_dec_inc (k : Z) :
  wrap_unsigned (wrap_unsigned (k - 1) + 1) = wrap_unsigned k.
Proof.
  unfold wrap_unsigned. rewrite Zplus_mod_idemp_l.
  f_equal. lia.
Qed.

Lemma wrap_wrap_dec (k : Z) :
  wrap_unsigned (wrap_unsigned k - 1) = wrap_unsigned (k - 1).
Proof. unfold wrap_unsigned. apply Zminus_mod_idemp_l. Qed.

(** One resumption, field by field. *)
Lemma resume_task_fields (co : Coroutine) (sc : Sched World) (k : Z) :
  num_waiters (coordinator sc) = wrap_unsigned k ->
  let sc1 := resume_task co sc in
  let p := probe sc co (shared sc) in
  resumed sc1 = resumed sc ++ [co] /\
  wait_queue (coordinator sc1) =
    wait_queue (coordinator sc) ++ (if p then [co] else []) /\
  returned sc1 = returned sc ++ (if p then [] else [co]) /\
  num_waiters (coordinator sc1) =
    wrap_unsigned (if p then k else k - 1) /\
  probe sc1 = probe sc /\
  shared sc1 = shared sc /\
  global_loop_unblocked sc1 = global_loop_unblocked sc.
Proof.
  intros Hk sc1 p. subst sc1 p. unfold resume_task.
  destruct (probe sc co (shared sc)); cbn;
    rewrite Hk, wrap_wrap_dec, ?wrap_dec_inc, ?app_nil_r; auto 10.
Qed.

(** Resuming the tasks of [parked] one after the other. *)
Lemma resume_all (parked : list Coroutine) :
  forall (sc : Sched World) (k : Z),
    num_waiters (coordinator sc) = wrap_unsigned k ->
    let sc' := fold_left (fun acc co => resume_task co acc) parked sc in
    let again := filter (fun co => probe sc co (shared sc)) parked in
    let done := filter (fun co => negb (probe sc co (shared sc))) parked in
    resumed sc' = resumed sc ++ parked /\
    wait_queue (coordinator sc') = wait_queue (coordinator sc) ++ again /\
    returned sc' = returned sc ++ done /\
    num_waiters (coordinator sc')
      = wrap_unsigned (k - Z.of_nat (length done)) /\
    probe sc' = probe sc /\
    shared sc' = shared sc /\
    global_loop_unblocked sc' = global_loop_unblocked sc.
Proof.
  induction parked as [|co parked IH]; intros sc k Hk.
  - cbn. rewrite !app_nil_r, Z.sub_0_r. auto 10.
  - cbn [fold_left filter].
    destruct (resume_task_fields co sc k Hk)
      as (F1 & F2 & F3 & F4 & F5 & F6 & F7).
    destruct (IH (resume_task co sc) _ F4)
      as (H1 & H2 & H3 & H4 & H5 & H6 & H7).
    rewrite F5, F6 in H2, H3, H4.
    rewrite H1, H2, H3, H4, H5, H6, H7, F1, F2, F3, F5, F6, F7.
    rewrite <- !app_assoc.
    destruct (probe sc co (shared sc)); cbn [negb length app];
      repeat split; try reflexivity; f_equal; lia.
Qed.

End KickFacts.

(** C7.  One call of [aio_wait_kick] resumes every coroutine that is on
    the coordinator's wait queue, each once and in queue order.  Each
    resumed coroutine tests its own condition: those whose condition is
    false return from their wait, the others are parked again, whatever
    the conditions of the others are.  With nothing parked the call
    resumes nothing and leaves the coordinator as it is. *)
Theorem aio_wait_kick_broadcast
    (World : Type) (fast_path : bool) (sc : Sched World) :
  I2 sc ->
  let parked := wait_queue (coordinator sc) in
  let sc' := aio_wait_kick fast_path sc in
  resumed sc' = resumed sc ++ parked /\
  returned sc' =
    returned sc ++ filter (fun co => negb (probe sc co (shared sc))) parked /\
  wait_queue (coordinator sc') =
    filter (fun co => probe sc co (shared sc)) parked /\
  (forall co, In co parked ->
     (In co (wait_queue (coordinator sc'))
      <-> probe sc co (shared sc) = true)) /\
  num_waiters (coordinator sc') =
    (num_waiters (coordinator sc)
     - Z.of_nat (length (filter (fun co => negb (probe sc co (shared sc)))
                           parked)))%Z /\
  shared sc' = shared sc /\
  (parked = [] ->
     coordinator sc' = coordinator sc /\ resumed sc' = resumed sc /\
     returned sc' = returned sc).
Proof.
  intros [Hlen Hmax] parked sc'.
  assert (Hdone : (Z.of_nat (length (filter
                     (fun co => negb (probe sc co (shared sc))) parked))
                   <= Z.of_nat (length parked))%Z).
  { apply Nat2Z.inj_le, filter_length_le. }
  assert (Hfilter : forall co, In co parked ->
            (In co (filter (fun co => probe sc co (shared sc)) parked)
             <-> probe sc co (shared sc) = true)).
  { intros co Hin. rewrite filter_In. tauto. }
  destruct (fast_path && Z.eqb (num_waiters (coordinator sc)) 0) eqn:Hfast.
  - (* the count reads zero: by I2 nothing is parked *)
    assert (E : sc' = sc).
    { subst sc'. unfold aio_wait_kick. rewrite Hfast. reflexivity. }
    apply andb_prop in Hfast as [_ Hz]. apply Z.eqb_eq in Hz.
    assert (Hnil : parked = []).
    { fold parked in Hlen. destruct parked; [reflexivity|].
      cbn [length] in Hlen. lia. }
    rewrite E, Hnil. cbn. rewrite !app_nil_r, Z.sub_0_r.
    split; [reflexivity|]. split; [reflexivity|].
    split; [exact Hnil|]. split; [intros co []|]. auto.
  - set (sc0 := mkSched (mkAioWait (num_waiters (coordinator sc)) [])
                  (probe sc) (shared sc) (resumed sc) (returned sc)
                  (global_loop_unblocked sc)).
    set (sc1 := fold_left (fun acc co => resume_task co acc) parked sc0).
    assert (E : sc' = mkSched (coordinator sc1) (probe sc1) (shared sc1)
                        (resumed sc1) (returned sc1)
                        (S (global_loop_unblocked sc1))).
    { subst sc'. unfold aio_wait_kick. rewrite Hfast. reflexivity. }
    destruct (@resume_all World parked sc0 (num_waiters (coordinator sc)))
      as (H1 & H2 & H3 & H4 & H5 & H6 & H7).
    { cbn. unfold wrap_unsigned. symmetry. apply Z.mod_small. lia. }
    fold sc1 in H1, H2, H3, H4, H5, H6, H7.
    cbn [sc0 coordinator probe shared resumed returned wait_queue
         num_waiters app] in H1, H2, H3, H4, H5, H6.
    rewrite E. cbn [coordinator probe shared resumed returned].
    rewrite H1, H2, H3, H4, H6.
    assert (Hnw : wrap_unsigned
              (num_waiters (coordinator sc)
               - Z.of_nat (length (filter
                   (fun co => negb (probe sc co (shared sc))) parked)))
            = (num_waiters (coordinator sc)
               - Z.of_nat (length (filter
                   (fun co => negb (probe sc co (shared sc))) parked)))%Z).
    { unfold wrap_unsigned. apply Z.mod_small. fold parked in Hlen. lia. }
    split; [reflexivity|]. split; [reflexivity|]. split; [reflexivity|].
    split; [exact Hfilter|]. split; [exact Hnw|]. split; [reflexivity|].
    intros Hnil.
    destruct (coordinator sc1) as [nw wq] eqn:Hc.
    cbn [num_waiters wait_queue] in H2, H4. rewrite H2, H4, Hnw, Hnil.
    cbn. rewrite Z.sub_0_r, !app_nil_r.
    split; [|split; reflexivity].
    unfold parked in Hnil. rewrite <- Hnil.
    destruct (coordinator sc); reflexivity.
Qed.

(** One kick on the three parked coroutines, whether or not the
    implementation looks at the count first. *)
Lemma aio_wait_kick_broadcast_witness :
  I2 kick_example /\
  forall fast_path,
    resumed (aio_wait_kick fast_path kick_example) = [10; 12; 11] /\
    returned (aio_wait_kick fast_path kick_example) = [10; 11] /\
    wait_queue (coordinator (aio_wait_kick fast_path kick_example)) = [12] /\
    num_waiters (coordinator (aio_wait_kick fast_path kick_example)) = 1%Z.
Proof.
  assert (H : I2 kick_example).
  { unfold I2, UINT_MODULUS. cbn. lia. }
  split; [exact H|]. intros fast_path.
  destruct (@aio_wait_kick_broadcast nat fast_path kick_example H)
    as (H1 & H2 & H3 & _ & H5 & _).
  rewrite H1, H2, H3, H5. cbn. auto.
Defined.

(* --------------------------------------------------------------------- *)
(** ** The event-loop model: iterations *)
(* --------------------------------------------------------------------- *)

Lemma filter_swap {A} (p q : A -> bool) (l : list A) :
  filter p (filter q l) = filter q (filter p l).
Proof.
  induction l as [|x l IH]; [reflexivity|]. cbn.
  destruct (q x) eqn:Hq, (p x) eqn:Hp; cbn; rewrite ?Hq, ?Hp, IH;
    reflexivity.
Qed.

Lemma filter_snd_map_pair {A B} (p : B -> bool) (c : A) (l : list B) :
  filter (fun e => p (snd e)) (map (pair c) l) = map (pair c) (filter p l).
Proof.
  induction l as [|x l IH]; [reflexivity|]. cbn.
  destruct (p x); cbn; rewrite IH; reflexivity.
Qed.

Lemma existsb_filter_implied {A} (p q : A -> bool) (l : list A) :
  (forall x, p x = true -> q x = true) ->
  existsb p (filter q l) = existsb p l.
Proof.
  intros Himp. induction l as [|x l IH]; [reflexivity|]. cbn.
  destruct (q x) eqn:Hq; cbn; rewrite IH; [reflexivity|].
  destruct (p x) eqn:Hp; [|reflexivity].
  apply Himp in Hp. congruence.
Qed.

Lemma is_for_recent (r0 r : Request) (d : Deferred) :
  r0 <= r -> is_for r d = true -> recent r0 d = true.
Proof.
  unfold is_for, recent. destruct (for_request d) as [q|]; [|discriminate].
  intros Hle Hq. apply Nat.eqb_eq in Hq. apply Nat.leb_le. lia.
Qed.

(** Running the callbacks of [l] on the stream of [c]. *)
Lemma run_deferred_all (c : AioContext) (l : list Deferred) :
  forall w,
    let w' := fold_left (run_deferred c) l w in
    pending w' = pending w /\
    executed w' = executed w ++ map (pair c) l /\
    (forall q, done w' q = done w q || existsb (is_for q) l) /\
    next_request w' = next_request w /\
    held w' = held w /\
    progress w' = progress w.
Proof.
  induction l as [|d l IH]; intros w.
  - cbn. rewrite app_nil_r. repeat split. intros q. rewrite orb_false_r.
    reflexivity.
  - cbn [fold_left]. destruct (IH (run_deferred c w d))
      as (H1 & H2 & H3 & H4 & H5 & H6).
    cbn zeta. rewrite H1, H2, H4, H5, H6.
    assert (Hd : pending (run_deferred c w d) = pending w /\
                 executed (run_deferred c w d) = executed w ++ [(c, d)] /\
                 (forall q, done (run_deferred c w d) q
                            = done w q || is_for q d) /\
                 next_request (run_deferred c w d) = next_request w /\
                 held (run_deferred c w d) = held w /\
                 progress (run_deferred c w d) = progress w).
    { unfold run_deferred, is_for, set_flag.
      destruct (for_request d) as [r|]; cbn; repeat split; intros q.
      - rewrite (Nat.eqb_sym r q).
        destruct (Nat.eqb q r), (done w q); reflexivity.
      - rewrite orb_false_r. reflexivity. }
    destruct Hd as (D1 & D2 & D3 & D4 & D5 & D6).
    rewrite D1, D2, D4, D5, D6, <- app_assoc.
    repeat split. intros q. rewrite H3, D3. cbn. symmetry. apply orb_assoc.
Qed.

Lemma run_iteration_fields (c : AioContext) (w : Loop) :
  pending (run_iteration c w) =
    filter (fun d => negb (on_context c d)) (pending w) /\
  executed (run_iteration c w) =
    executed w ++ map (pair c) (filter (on_context c) (pending w)) /\
  (forall q, done (run_iteration c w) q =
     done w q || existsb (is_for q) (filter (on_context c) (pending w))) /\
  next_request (run_iteration c w) = next_request w /\
  held (run_iteration c w) = held w /\
  progress (run_iteration c w) = progress w.
Proof.
  unfold run_iteration.
  destruct (run_deferred_all c (filter (on_context c) (pending w))
              (mkLoop (filter (fun d => negb (on_context c d)) (pending w))
                 (executed w) (done w) (next_request w) (held w)
                 (progress w) (kicks w)))
    as (H1 & H2 & H3 & H4 & H5 & H6).
  cbn in *. auto 10.
Qed.

(** The same, seen through the requests numbered from [r0] on. *)
Lemma run_iteration_recent (r0 : Request) (c : AioContext) (w : Loop) :
  recent_pending r0 (run_iteration c w) =
    filter (fun d => negb (on_context c d)) (recent_pending r0 w) /\
  recent_executed r0 (run_iteration c w) =
    recent_executed r0 w
      ++ map (pair c) (filter (on_context c) (recent_pending r0 w)) /\
  (forall q, r0 <= q ->
     done (run_iteration c w) q =
       done w q
       || existsb (is_for q) (filter (on_context c) (recent_pending r0 w))).
Proof.
  destruct (run_iteration_fields c w) as (H1 & H2 & H3 & _).
  unfold recent_pending, recent_executed.
  rewrite H1, H2. split; [apply filter_swap|]. split.
  - rewrite filter_app, filter_snd_map_pair, filter_swap. reflexivity.
  - intros q Hq. rewrite H3. f_equal.
    rewrite filter_swap. symmetry. apply existsb_filter_implied.
    intros d. apply is_for_recent. exact Hq.
Qed.

(* --------------------------------------------------------------------- *)
(** ** The event-loop model: the stages of one request *)
(* --------------------------------------------------------------------- *)

Section Stages.

Variable r0 : Request.
Variable log : list (AioContext * Deferred).
Variable ctx : AioContext.
Variable cb : Callback.
Variable r : Request.

Hypothesis r_recent : r0 <= r.

Lemma is_for_wrapper : is_for r (mkDeferred ctx cb (Some r)) = true.
Proof. unfold is_for. cbn. apply Nat.eqb_refl. Qed.

(** An iteration of the target context runs the wrapper. *)
Lemma run_iteration_target (w : Loop) :
  scheduled r0 log ctx cb r w ->
  ran r0 log ctx cb r (run_iteration ctx w).
Proof.
  intros (Hp & He & Hd).
  destruct (run_iteration_recent r0 ctx w) as (H1 & H2 & H3).
  assert (Hon : on_context ctx (mkDeferred ctx cb (Some r)) = true)
    by apply Nat.eqb_refl.
  unfold ran. rewrite H1, H2, (H3 r r_recent), Hp, He.
  cbn [filter]. rewrite Hon. cbn [negb map existsb].
  rewrite is_for_wrapper, orb_true_r. auto.
Qed.

(** An iteration of any other context leaves it pending. *)
Lemma run_iteration_other (c : AioContext) (w : Loop) :
  c <> ctx ->
  scheduled r0 log ctx cb r w ->
  scheduled r0 log ctx cb r (run_iteration c w).
Proof.
  intros Hc (Hp & He & Hd).
  destruct (run_iteration_recent r0 c w) as (H1 & H2 & H3).
  assert (Hon : on_context c (mkDeferred ctx cb (Some r)) = false).
  { unfold on_context. cbn. apply Nat.eqb_neq. congruence. }
  unfold scheduled. rewrite H1, H2, (H3 r r_recent), Hp, He, Hd.
  cbn [filter]. rewrite Hon. cbn. rewrite app_nil_r. auto.
Qed.

(** Once the wrapper has run, iterations do not run it again. *)
Lemma run_iteration_ran (c : AioContext) (w : Loop) :
  ran r0 log ctx cb r w ->
  ran r0 log ctx cb r (run_iteration c w).
Proof.
  intros (Hp & He & Hd).
  destruct (run_iteration_recent r0 c w) as (H1 & H2 & H3).
  unfold ran. rewrite H1, H2, (H3 r r_recent), Hp, He, Hd.
  cbn. rewrite app_nil_r. auto.
Qed.

Lemma run_iteration_stage (h : nat) (c : AioContext) (w : Loop) :
  pending_or_ran r0 log ctx cb r h w ->
  pending_or_ran r0 log ctx cb r h (run_iteration c w).
Proof.
  intros (Hst & Hn & Hh).
  destruct (run_iteration_fields c w) as (_ & _ & _ & F4 & F5 & _).
  unfold pending_or_ran. rewrite F4, F5. split; [|auto].
  destruct Hst as [Hs | Hr].
  - destruct (Nat.eq_dec c ctx) as [-> | Hne].
    + right. apply run_iteration_target. exact Hs.
    + left. apply run_iteration_other; assumption.
  - right. apply run_iteration_ran. exact Hr.
Qed.

Lemma runnable_held (c : AioContext) (w w' : Loop) :
  held w' = held w -> runnable c w' = runnable c w.
Proof. intros H. unfold runnable. rewrite H. reflexivity. Qed.

(** The other threads' turns. *)
Lemma turns_stage (h : nat) (now : list AioContext) :
  forall w,
    pending_or_ran r0 log ctx cb r h w ->
    pending_or_ran r0 log ctx cb r h (fold_left run_if_runnable now w) /\
    progress (fold_left run_if_runnable now w) = progress w /\
    (ran r0 log ctx cb r w ->
     ran r0 log ctx cb r (fold_left run_if_runnable now w)) /\
    (existsb (Nat.eqb ctx) now = true -> runnable ctx w = true ->
     ran r0 log ctx cb r (fold_left run_if_runnable now w)) /\
    (existsb (Nat.eqb ctx) now = false \/ runnable ctx w = false ->
     scheduled r0 log ctx cb r w ->
     scheduled r0 log ctx cb r (fold_left run_if_runnable now w)).
Proof.
  induction now as [|c now IH]; intros w Hw.
  - cbn. split; [exact Hw|]. split; [reflexivity|]. split; [auto|].
    split; [discriminate | auto].
  - cbn [fold_left existsb].
    assert (Hstep : pending_or_ran r0 log ctx cb r h (run_if_runnable w c) /\
                    progress (run_if_runnable w c) = progress w /\
                    held (run_if_runnable w c) = held w).
    { unfold run_if_runnable. destruct (runnable c w); [|auto].
      destruct (run_iteration_fields c w) as (_ & _ & _ & _ & F5 & F6).
      split; [apply run_iteration_stage; exact Hw | auto]. }
    destruct Hstep as (Hw1 & Hp1 & Hh1).
    destruct (IH _ Hw1) as (I1 & I2 & I3 & I4 & I5).
    rewrite (runnable_held ctx _ _ Hh1) in I4, I5.
    split; [exact I1|]. split; [congruence|]. split; [|split].
    + intros Hr. apply I3. unfold run_if_runnable.
      destruct (runnable c w); [apply run_iteration_ran|]; exact Hr.
    + intros Hin Hrun.
      destruct Hw as ([Hs | Hr] & _).
      * destruct (Nat.eqb_spec ctx c) as [<- | Hne].
        -- apply I3. unfold run_if_runnable. rewrite Hrun.
           apply run_iteration_target. exact Hs.
        -- cbn in Hin.
           destruct Hw1 as ([Hs1 | Hr1] & _);
             [apply I4; assumption | apply I3; exact Hr1].
      * apply I3. unfold run_if_runnable.
        destruct (runnable c w); [apply run_iteration_ran|]; exact Hr.
    + intros Hno Hs. apply I5.
      * destruct Hno as [Hno | Hno]; [|right; exact Hno].
        apply orb_false_iff in Hno as [_ Hno]. left. exact Hno.
      * unfold run_if_runnable. destruct (runnable c w) eqn:Hrc; [|exact Hs].
        apply run_iteration_other; [|exact Hs].
        intros ->. destruct Hno as [Hno | Hno]; [|congruence].
        apply orb_false_iff in Hno as [Hno _].
        rewrite Nat.eqb_refl in Hno. discriminate.
Qed.

End Stages.

(* --------------------------------------------------------------------- *)
(** ** The event-loop model: one iteration of the wait loop *)
(* --------------------------------------------------------------------- *)

Section WaitStep.

Variable r0 : Request.
Variable log : list (AioContext * Deferred).
Variable ctx : AioContext.
Variable cb : Callback.
Variable r : Request.

Hypothesis r_recent : r0 <= r.

(** The wait of the other threads' turn, for the stage of the request. *)
Lemma others_progress_stage (h : nat) (w : Loop) :
  pending_or_ran r0 log ctx cb r h w ->
  pending_or_ran r0 log ctx cb r h (others_progress w) /\
  progress (others_progress w) = tl (progress w) /\
  (ran r0 log ctx cb r w -> ran r0 log ctx cb r (others_progress w)) /\
  (existsb (Nat.eqb ctx) (hd [] (progress w)) = true ->
   runnable ctx w = true ->
   ran r0 log ctx cb r (others_progress w)) /\
  (existsb (Nat.eqb ctx) (hd [] (progress w)) = false \/
   runnable ctx w = false ->
   scheduled r0 log ctx cb r w ->
   scheduled r0 log ctx cb r (others_progress w)).
Proof.
  intros Hw. unfold others_progress.
  destruct (progress w) as [|now later] eqn:Hp.
  - rewrite Hp. cbn. split; [exact Hw|]. split; [reflexivity|].
    split; [auto|]. split; [discriminate | auto].
  - set (w0 := mkLoop (pending w) (executed w) (done w) (next_request w)
                 (held w) later (kicks w)).
    assert (Hw0 : pending_or_ran r0 log ctx cb r h w0) by exact Hw.
    destruct (turns_stage r_recent now Hw0) as (T1 & T2 & T3 & T4 & T5).
    cbn [hd tl]. split; [exact T1|]. split; [exact T2|].
    split; [exact T3|]. split; [exact T4 | exact T5].
Qed.

Lemma release_token_stage (h : nat) (w : Loop) :
  pending_or_ran r0 log ctx cb r h w ->
  pending_or_ran r0 log ctx cb r (pred h) (release_token ctx w).
Proof.
  intros (Hst & Hn & Hh). split; [exact Hst|]. split; [exact Hn|].
  cbn. rewrite Nat.eqb_refl, Hh. reflexivity.
Qed.

Lemma acquire_token_stage (h : nat) (w : Loop) :
  pending_or_ran r0 log ctx cb r h w ->
  pending_or_ran r0 log ctx cb r (S h) (acquire_token ctx w).
Proof.
  intros (Hst & Hn & Hh). split; [exact Hst|]. split; [exact Hn|].
  cbn. rewrite Nat.eqb_refl, Hh. reflexivity.
Qed.

(** On the home-thread path the caller's poll runs the wrapper itself. *)
Lemma home_world_step_stage (h : nat) (w : Loop) :
  pending_or_ran r0 log ctx cb r h w ->
  pending_or_ran r0 log ctx cb r h (home_world_step ctx w) /\
  ran r0 log ctx cb r (home_world_step ctx w) /\
  progress (home_world_step ctx w) = tl (progress w).
Proof.
  intros Hw. unfold home_world_step.
  destruct (others_progress_stage Hw) as (O1 & O2 & _).
  destruct (run_iteration_fields ctx (others_progress w))
    as (_ & _ & _ & _ & _ & F6).
  split; [apply run_iteration_stage; assumption|]. split; [|congruence].
  destruct O1 as ([Hs | Hr] & _).
  - apply run_iteration_target; assumption.
  - apply run_iteration_ran; assumption.
Qed.

(** On the last path the wrapper runs when the home thread of [ctx] gets
    its turn while the token is released. *)
Lemma foreign_world_step_stage (h : nat) (w : Loop) :
  pending_or_ran r0 log ctx cb r h w ->
  pending_or_ran r0 log ctx cb r (S (pred h)) (foreign_world_step ctx w) /\
  progress (foreign_world_step ctx w) = tl (progress w) /\
  (ctx <> main_context -> h = 1 ->
   existsb (Nat.eqb ctx) (hd [] (progress w)) = true ->
   ran r0 log ctx cb r (foreign_world_step ctx w)) /\
  (ctx <> main_context ->
   existsb (Nat.eqb ctx) (hd [] (progress w)) = false ->
   scheduled r0 log ctx cb r w ->
   scheduled r0 log ctx cb r (foreign_world_step ctx w)).
Proof.
  intros Hw. unfold foreign_world_step.
  pose proof (release_token_stage Hw) as H1.
  destruct (others_progress_stage H1) as (O1 & O2 & O3 & O4 & O5).
  pose proof (run_iteration_stage r_recent main_context O1) as H2.
  destruct (run_iteration_fields main_context
              (others_progress (release_token ctx w)))
    as (_ & _ & _ & _ & _ & F6).
  split; [apply acquire_token_stage; exact H2|].
  split; [cbn [progress acquire_token]; rewrite F6, O2; reflexivity|].
  split.
  - intros Hne -> Hturn.
    apply run_iteration_ran; [exact r_recent|]. apply O4; [exact Hturn|].
    unfold runnable. destruct H1 as (_ & _ & Hh). rewrite Hh.
    apply Nat.eqb_neq in Hne. rewrite Hne. reflexivity.
  - intros Hne Hturn Hs.
    apply run_iteration_other; [exact r_recent | congruence |].
    apply O5; [left; exact Hturn | exact Hs].
Qed.

End WaitStep.

(* --------------------------------------------------------------------- *)
(** ** aio_wait_bh_oneshot: one call *)
(* --------------------------------------------------------------------- *)

Section OneshotCall.

Variable r0 : Request.
Variable log : list (AioContext * Deferred).
Variable ctx : AioContext.
Variable cb : Callback.
Variable r : Request.

Hypothesis r_recent : r0 <= r.

(** Scheduling the wrapper of a fresh request. *)
Lemma schedule_oneshot_stage (w : Loop) :
  next_request w = r ->
  recent_pending r0 w = [] ->
  recent_executed r0 w = log ->
  pending_or_ran r0 log ctx cb r (held w ctx) (schedule_oneshot ctx cb w) /\
  scheduled r0 log ctx cb r (schedule_oneshot ctx cb w) /\
  progress (schedule_oneshot ctx cb w) = progress w.
Proof.
  intros Hn Hp He.
  assert (Hs : scheduled r0 log ctx cb r (schedule_oneshot ctx cb w)).
  { unfold scheduled, schedule_oneshot, recent_pending, recent_executed.
    cbn [pending executed done]. rewrite Hn.
    unfold recent_pending in Hp. rewrite filter_app, Hp.
    cbn. unfold recent. cbn.
    apply Nat.leb_le in r_recent as Hle. rewrite Hle.
    split; [reflexivity|]. split; [exact He|].
    unfold set_flag. rewrite Nat.eqb_refl. reflexivity. }
  split; [|auto]. split; [left; exact Hs|].
  cbn. rewrite Hn. auto.
Qed.

Lemma scheduled_not_done (w : Loop) :
  scheduled r0 log ctx cb r w -> negb (done w r) = true.
Proof. intros (_ & _ & Hd). rewrite Hd. reflexivity. Qed.

Lemma ran_done (w : Loop) :
  ran r0 log ctx cb r w -> negb (done w r) = false.
Proof. intros (_ & _ & Hd). rewrite Hd. reflexivity. Qed.

Lemma done_ran (h : nat) (w : Loop) :
  pending_or_ran r0 log ctx cb r h w ->
  negb (done w r) = false ->
  ran r0 log ctx cb r w.
Proof.
  intros ([Hs | Hr] & _) Hd; [|exact Hr].
  rewrite (scheduled_not_done Hs) in Hd. discriminate.
Qed.

(** The stage of the request is kept through the wait loop. *)
Lemma unroll_home_stage (n : nat) :
  forall (m : Machine Loop) (h : nat),
    pending_or_ran r0 log ctx cb r h (world (st m)) ->
    pending_or_ran r0 log ctx cb r h
      (world (st (unroll (not_done r) (home_body loop_env ctx) n m))).
Proof.
  induction n as [|n IH]; intros m h Hm; [exact Hm|].
  cbn [unroll]. apply IH.
  apply (home_world_step_stage r_recent Hm).
Qed.

Lemma unroll_foreign_stage (n : nat) :
  forall (m : Machine Loop) (h : nat),
    pending_or_ran r0 log ctx cb r h (world (st m)) ->
    exists h',
      pending_or_ran r0 log ctx cb r h'
        (world (st (unroll (not_done r)
                      (foreign_body loop_env (Some ctx)) n m))).
Proof.
  induction n as [|n IH]; intros m h Hm; [exists h; exact Hm|].
  cbn [unroll]. eapply IH.
  apply (foreign_world_step_stage r_recent Hm).
Qed.

(** The caller is the main thread: which path a call takes. *)
Lemma loop_env_select (s : State Loop) :
  select_path loop_env (Some ctx) s =
  if Nat.eqb ctx main_context then HomeThreadPath ctx else ForeignThreadPath.
Proof. reflexivity. Qed.

(** A call that returns has run the wrapper, on [ctx]. *)
Lemma oneshot_call_safe (fuel : nat) (s s' : State Loop) :
  next_request (world s) = r ->
  recent_pending r0 (world s) = [] ->
  recent_executed r0 (world s) = log ->
  aio_wait_bh_oneshot fuel ctx cb s = (Val tt, s') ->
  ran r0 log ctx cb r (world s') /\ next_request (world s') = S r.
Proof.
  intros Hn Hp He. unfold aio_wait_bh_oneshot. rewrite Hn.
  destruct (schedule_oneshot_stage _ Hn Hp He) as (Hst & _ & _).
  set (s1 := on_world (schedule_oneshot ctx cb) s).
  change (schedule_oneshot ctx cb (world s)) with (world s1) in Hst.
  destruct (Nat.eqb ctx main_context) eqn:Hmain.
  - (* home-thread path *)
    destruct (home_run loop_env (not_done r) fuel ctx s1 eq_refl Hmain)
      as [(n & _ & _ & Hf & Hr & _) | (Hr & _)]; rewrite Hr; cbn [fst snd];
      [|discriminate].
    intros E. injection E as <-.
    pose proof (unroll_home_stage n
                  (mkMachine s1 false
                     [E_qemu_in_coroutine false;
                      E_in_aio_context_home_thread ctx true]) Hst) as Hu.
    split; [|apply Hu]. exact (done_ran Hu Hf).
  - (* the last path *)
    assert (Hsel : select_path loop_env (Some ctx) s1 = ForeignThreadPath).
    { rewrite loop_env_select, Hmain. reflexivity. }
    destruct (foreign_run loop_env (not_done r) fuel (Some ctx) s1 Hsel)
      as [(Hne & _) | [(_ & n & mc & _ & Hmc & _ & Hf & Hr & _)
                      | (_ & Hr & _)]];
      [exfalso; apply Hne; reflexivity | | rewrite Hr; discriminate].
    rewrite Hr. cbn [fst snd st]. intros E. injection E as <-.
    destruct (unroll_foreign_stage n
                (mkMachine (on_wait AioWait_inc s1) false
                   (foreign_selection (Some ctx)
                      ++ [E_assert true; E_atomic_inc])) Hst) as (h' & Hu).
    subst mc. split; [|apply Hu]. exact (done_ran Hu Hf).
Qed.

End OneshotCall.

(* --------------------------------------------------------------------- *)
(** ** aio_wait_bh_oneshot: the call returns *)
(* --------------------------------------------------------------------- *)

Section OneshotReturns.

Variable r0 : Request.
Variable log : list (AioContext * Deferred).
Variable ctx : AioContext.
Variable cb : Callback.
Variable r : Request.

Hypothesis r_recent : r0 <= r.

(** On the last path the loop is left after the poll in which the home
    thread of [ctx] has its turn. *)
Lemma foreign_loop_turn (l : list (list AioContext)) :
  forall (m : Machine Loop) (later : list (list AioContext)),
    ctx <> main_context ->
    progress (world (st m)) = l ->
    pending_or_ran r0 log ctx cb r 1 (world (st m)) ->
    scheduled r0 log ctx cb r (world (st m)) ->
    after_turn ctx l = Some later ->
    exists n,
      n <= length l /\
      (forall k, k < n ->
         cond_value (not_done r)
           (unroll (not_done r) (foreign_body loop_env (Some ctx)) k m)
         = true) /\
      cond_value (not_done r)
        (unroll (not_done r) (foreign_body loop_env (Some ctx)) n m)
      = false /\
      pending_or_ran r0 log ctx cb r 1
        (world (st (unroll (not_done r)
                      (foreign_body loop_env (Some ctx)) n m))) /\
      progress (world (st (unroll (not_done r)
                             (foreign_body loop_env (Some ctx)) n m)))
      = later.
Proof.
  induction l as [|now rest IH]; intros m later Hne Hp Hw Hs Hturn;
    [discriminate|].
  destruct (foreign_world_step_stage r_recent Hw) as (S1 & S2 & S3 & S4).
  rewrite Hp in S2, S3, S4. cbn [hd tl] in S2, S3, S4.
  cbn [after_turn] in Hturn.
  set (m1 := after_body (foreign_body loop_env (Some ctx))
               (after_cond (not_done r) m)).
  assert (Hm1 : world (st m1) = foreign_world_step ctx (world (st m)))
    by reflexivity.
  destruct (existsb (Nat.eqb ctx) now) eqn:Hnow.
  - (* the turn comes during this poll *)
    injection Hturn as <-. exists 1. cbn [length unroll]. fold m1.
    split; [lia|]. split; [|split; [|split]].
    + intros k Hk. replace k with 0 by lia.
      exact (scheduled_not_done Hs).
    + unfold cond_value, not_done. cbn [fst]. rewrite Hm1.
      apply (ran_done (S3 Hne eq_refl eq_refl)).
    + rewrite Hm1. exact S1.
    + rewrite Hm1. exact S2.
  - (* not yet *)
    destruct (IH m1 later Hne) as (n & Hn & Ht & Hf & Hu & Hl).
    + rewrite Hm1. exact S2.
    + rewrite Hm1. exact S1.
    + rewrite Hm1. exact (S4 Hne eq_refl Hs).
    + exact Hturn.
    + exists (S n). cbn [length unroll]. fold m1.
      split; [lia|]. split; [|auto].
      intros [|k] Hk; [exact (scheduled_not_done Hs) | apply Ht; lia].
Qed.

(** A call on the last path returns when the home thread of [ctx] gets a
    turn, given more fuel than there are entries in [progress]. *)
Lemma foreign_call_returns (fuel : nat) (s : State Loop)
    (later : list (list AioContext)) :
  ctx <> main_context ->
  next_request (world s) = r ->
  recent_pending r0 (world s) = [] ->
  recent_executed r0 (world s) = log ->
  held (world s) ctx = 1 ->
  after_turn ctx (progress (world s)) = Some later ->
  length (progress (world s)) < fuel ->
  exists s',
    aio_wait_bh_oneshot fuel ctx cb s = (Val tt, s') /\
    held (world s') ctx = 1 /\
    progress (world s') = later.
Proof.
  intros Hne Hn Hp He Hh Hturn Hfuel.
  destruct (schedule_oneshot_stage ctx cb r_recent _ Hn Hp He)
    as (Hst & Hs & Hpr).
  rewrite Hh in Hst.
  set (s1 := on_world (schedule_oneshot ctx cb) s).
  set (m0 := mkMachine (on_wait AioWait_inc s1) false
               (foreign_selection (Some ctx)
                  ++ [E_assert true; E_atomic_inc])).
  destruct (@foreign_loop_turn (progress (world s)) m0 later Hne Hpr Hst Hs
              Hturn) as (n & Hn' & Ht & Hf & Hu & Hl).
  assert (Hsel : select_path loop_env (Some ctx) s1 = ForeignThreadPath).
  { rewrite loop_env_select.
    apply Nat.eqb_neq in Hne. rewrite Hne. reflexivity. }
  assert (Hloop := while_returns (not_done r)
                     (foreign_body loop_env (Some ctx))
                     (foreign_body_returns loop_env (Some ctx))
                     (n := n) (fuel := fuel) m0 ltac:(lia) Ht Hf).
  unfold aio_wait_bh_oneshot. rewrite Hn. fold s1.
  rewrite (foreign_run_branch loop_env (not_done r) fuel (Some ctx) s1 Hsel).
  rewrite foreign_branch_pass by reflexivity.
  cbn [st waited_ trace]. fold m0. rewrite Hloop. cbn [fst snd st].
  eexists. split; [reflexivity|]. cbn [world on_wait].
  split; [apply Hu | exact Hl].
Qed.

(** A call on the home-thread path returns after one poll. *)
Lemma home_call_returns (fuel : nat) (s : State Loop) :
  ctx = main_context ->
  next_request (world s) = r ->
  recent_pending r0 (world s) = [] ->
  recent_executed r0 (world s) = log ->
  1 < fuel ->
  exists s', aio_wait_bh_oneshot fuel ctx cb s = (Val tt, s').
Proof.
  intros Hmain Hn Hp He Hfuel.
  destruct (schedule_oneshot_stage ctx cb r_recent _ Hn Hp He)
    as (Hst & Hs & _).
  set (s1 := on_world (schedule_oneshot ctx cb) s).
  set (m0 := mkMachine s1 false
               [E_qemu_in_coroutine false;
                E_in_aio_context_home_thread ctx true]).
  destruct (home_world_step_stage r_recent Hst) as (_ & Hran & _).
  assert (Hloop := while_returns (not_done r) (home_body loop_env ctx)
                     (home_body_returns loop_env ctx)
                     (n := 1) (fuel := fuel) m0 Hfuel).
  unfold aio_wait_bh_oneshot. rewrite Hn. fold s1.
  assert (Hhome : in_aio_context_home_thread loop_env ctx s1 = true).
  { cbn. rewrite Hmain. reflexivity. }
  rewrite (home_run_branch loop_env (not_done r) ctx fuel s1 eq_refl Hhome).
  fold m0. rewrite Hloop.
  - eexists. reflexivity.
  - intros k Hk. replace k with 0 by lia. exact (scheduled_not_done Hs).
  - exact (ran_done Hran).
Qed.

End OneshotReturns.

(* --------------------------------------------------------------------- *)
(** ** aio_wait_bh_oneshot: calls back to back *)
(* --------------------------------------------------------------------- *)

Lemma after_turn_shorter (ctx : AioContext) (l later : list (list AioContext)) :
  after_turn ctx l = Some later -> length later < length l.
Proof.
  induction l as [|now rest IH]; [discriminate|]. cbn.
  destruct (existsb (Nat.eqb ctx) now).
  - intros E. injection E as <-. lia.
  - intros E. specialize (IH E). lia.
Qed.

(** The calls that return leave their callbacks in the log, in the order
    of the calls. *)
Lemma oneshot_each_safe (r0 : Request) (ctx : AioContext) (fuel : nat)
    (cbs : list Callback) :
  forall (log : list (AioContext * Deferred)) (r : Request)
         (s s' : State Loop),
    r0 <= r ->
    next_request (world s) = r ->
    recent_pending r0 (world s) = [] ->
    recent_executed r0 (world s) = log ->
    oneshot_each fuel ctx cbs s = (Val tt, s') ->
    recent_executed r0 (world s') = log ++ expected_log ctx r cbs /\
    recent_pending r0 (world s') = [].
Proof.
  induction cbs as [|cb rest IH]; intros log r s s' Hle Hn Hp He Hrun.
  - cbn in Hrun. injection Hrun as <-. cbn. rewrite app_nil_r. auto.
  - cbn [oneshot_each] in Hrun.
    destruct (aio_wait_bh_oneshot fuel ctx cb s) as [[[]| |] s1] eqn:Hcall;
      try discriminate.
    destruct (@oneshot_call_safe r0 log ctx cb r Hle fuel s s1 Hn Hp He
                Hcall) as ((Hp1 & He1 & _) & Hn1).
    destruct (IH _ (S r) s1 s' ltac:(lia) Hn1 Hp1 He1 Hrun) as (H1 & H2).
    rewrite H1, <- app_assoc. auto.
Qed.

(** They return, on the last path, when [progress] gives the home thread
    of [ctx] a turn for each call. *)
Lemma oneshot_each_returns_foreign (r0 : Request) (ctx : AioContext)
    (fuel : nat) (cbs : list Callback) :
  forall (log : list (AioContext * Deferred)) (r : Request) (s : State Loop),
    ctx <> main_context ->
    r0 <= r ->
    next_request (world s) = r ->
    recent_pending r0 (world s) = [] ->
    recent_executed r0 (world s) = log ->
    held (world s) ctx = 1 ->
    serves ctx (length cbs) (progress (world s)) = true ->
    length (progress (world s)) < fuel ->
    exists s', oneshot_each fuel ctx cbs s = (Val tt, s').
Proof.
  induction cbs as [|cb rest IH];
    intros log r s Hne Hle Hn Hp He Hh Hserve Hfuel.
  - exists s. reflexivity.
  - cbn [length serves] in Hserve.
    destruct (after_turn ctx (progress (world s))) as [later|] eqn:Hturn;
      [|discriminate].
    destruct (@foreign_call_returns r0 log ctx cb r Hle fuel s later Hne
                Hn Hp He Hh Hturn Hfuel) as (s1 & Hcall & Hh1 & Hl1).
    destruct (@oneshot_call_safe r0 log ctx cb r Hle fuel s s1 Hn Hp He
                Hcall) as ((Hp1 & He1 & _) & Hn1).
    pose proof (after_turn_shorter _ _ Hturn) as Hlen.
    destruct (IH _ (S r) s1 Hne ltac:(lia) Hn1 Hp1 He1 Hh1) as (s' & Hrun).
    + rewrite Hl1. exact Hserve.
    + rewrite Hl1. lia.
    + exists s'. cbn [oneshot_each]. rewrite Hcall. exact Hrun.
Qed.

(** On the home-thread path they return without any help. *)
Lemma oneshot_each_returns_home (r0 : Request) (ctx : AioContext)
    (fuel : nat) (cbs : list Callback) :
  forall (log : list (AioContext * Deferred)) (r : Request) (s : State Loop),
    ctx = main_context ->
    r0 <= r ->
    next_request (world s) = r ->
    recent_pending r0 (world s) = [] ->
    recent_executed r0 (world s) = log ->
    1 < fuel ->
    exists s', oneshot_each fuel ctx cbs s = (Val tt, s').
Proof.
  induction cbs as [|cb rest IH]; intros log r s Hmain Hle Hn Hp He Hfuel.
  - exists s. reflexivity.
  - destruct (@home_call_returns r0 log ctx cb r Hle fuel s Hmain Hn Hp He
                Hfuel) as (s1 & Hcall).
    destruct (@oneshot_call_safe r0 log ctx cb r Hle fuel s s1 Hn Hp He
                Hcall) as ((Hp1 & He1 & _) & Hn1).
    destruct (IH _ (S r) s1 Hmain ltac:(lia) Hn1 Hp1 He1 Hfuel)
      as (s' & Hrun).
    exists s'. cbn [oneshot_each]. rewrite Hcall. exact Hrun.
Qed.

(** C8.  A call of [aio_wait_bh_oneshot(ctx, cb, opaque)] by the main
    thread that returns has run [cb] exactly once, on the execution stream
    of [ctx], and has done so before it returns: in the state it returns
    in, the log holds one entry for its request, made on [ctx], and the
    wrapper is no longer pending.  N calls back to back leave N entries,
    in the order of the calls.  The calls do return: always when [ctx] is
    the main loop's own context, and otherwise when the caller holds the
    token of [ctx] once and the home thread of [ctx] gets a turn during
    the polls of each call. *)
Theorem aio_wait_bh_oneshot_runs_callback_once
    (fuel : nat) (ctx : AioContext) (cbs : list Callback) (s : State Loop) :
  let r0 := next_request (world s) in
  recent_pending r0 (world s) = [] ->
  recent_executed r0 (world s) = [] ->
  (forall cb s',
      aio_wait_bh_oneshot fuel ctx cb s = (Val tt, s') ->
      recent_executed r0 (world s') = [(ctx, mkDeferred ctx cb (Some r0))] /\
      recent_pending r0 (world s') = []) /\
  (forall s',
      oneshot_each fuel ctx cbs s = (Val tt, s') ->
      recent_executed r0 (world s') = expected_log ctx r0 cbs /\
      recent_pending r0 (world s') = []) /\
  (held (world s) ctx = 1 ->
   ctx = main_context \/ serves ctx (length cbs) (progress (world s)) = true ->
   length (progress (world s)) + 1 < fuel ->
   exists s', oneshot_each fuel ctx cbs s = (Val tt, s')).
Proof.
  intros r0 Hp He. split; [|split].
  - intros cb s' Hcall.
    destruct (@oneshot_call_safe r0 [] ctx cb r0 (le_n r0) fuel s s' eq_refl
                Hp He Hcall) as ((Hp1 & He1 & _) & _).
    auto.
  - intros s' Hrun.
    exact (@oneshot_each_safe r0 ctx fuel cbs [] r0 s s' (le_n r0) eq_refl
             Hp He Hrun).
  - intros Hh Hfair Hfuel.
    destruct (Nat.eq_dec ctx main_context) as [Hmain | Hne].
    + apply (@oneshot_each_returns_home r0 ctx fuel cbs [] r0 s Hmain);
        auto. lia.
    + destruct Hfair as [Hmain | Hserve]; [contradiction|].
      apply (@oneshot_each_returns_foreign r0 ctx fuel cbs [] r0 s Hne);
        auto. lia.
Qed.

(** The main thread runs two callbacks in context 7, one after the other;
    the IOThread gets its turn during the second and the third poll. *)
Lemma aio_wait_bh_oneshot_runs_callback_once_witness :
  recent_pending 5 (world oneshot_start) = [] /\
  recent_executed 5 (world oneshot_start) = [] /\
  held (world oneshot_start) 7 = 1 /\
  serves 7 2 (progress (world oneshot_start)) = true /\
  exists s',
    oneshot_each 5 7 [42; 43] oneshot_start = (Val tt, s') /\
    recent_executed 5 (world s') =
      [(7, mkDeferred 7 42 (Some 5)); (7, mkDeferred 7 43 (Some 6))] /\
    recent_pending 5 (world s') = [].
Proof.
  split; [reflexivity|]. split; [reflexivity|]. split; [reflexivity|].
  split; [reflexivity|].
  destruct (@aio_wait_bh_oneshot_runs_callback_once 5 7 [42; 43]
              oneshot_start eq_refl eq_refl) as (_ & Hsafe & Hlive).
  destruct (Hlive eq_refl (or_intror eq_refl)) as (s' & Hrun).
  - cbn. lia.
  - exists s'. split; [exact Hrun|]. exact (Hsafe s' Hrun).
Defined.

(** The precondition matters: a caller that holds the token of context 7
    twice releases it once only, the IOThread never gets to run, and the
    call does not return. *)
Example oneshot_token_held_twice :
  fst (aio_wait_bh_oneshot 5 7 42
         (on_world (acquire_token 7) oneshot_start)) = Spin /\
  recent_pending 5
    (world (snd (aio_wait_bh_oneshot 5 7 42
                   (on_world (acquire_token 7) oneshot_start))))
  = [mkDeferred 7 42 (Some 5)].
Proof. split; reflexivity. Qed.

(* ===================================================================== *)
(** * Part III -- further properties of the code *)
(* ===================================================================== *)

(* --------------------------------------------------------------------- *)
(** ** Where an event stands in a run of iterations *)
(* --------------------------------------------------------------------- *)

(** An event of [iterations blk n ++ tail] stands either in one of the
    iterations, after [k] whole ones, or in the tail. *)
Lemma iterations_split (blk tail : list Event) (n : nat) :
  forall pre e post,
    iterations blk n ++ tail = pre ++ e :: post ->
    (exists k pre1 post1,
        k < n /\ pre = iterations blk k ++ pre1 /\
        E_cond true :: blk = pre1 ++ e :: post1)
    \/
    (exists pre2, pre = iterations blk n ++ pre2 /\ tail = pre2 ++ e :: post).
Proof.
  induction n as [|n IH]; intros pre e post E.
  - right. exists pre. split; [reflexivity | exact E].
  - rewrite iterations_S in E.
    change (E_cond true :: blk ++ iterations blk n)
      with ((E_cond true :: blk) ++ iterations blk n) in E.
    rewrite <- app_assoc in E.
    assert (Hlater : forall l,
      pre = (E_cond true :: blk) ++ l ->
      iterations blk n ++ tail = l ++ e :: post ->
      (exists k pre1 post1,
          k < S n /\ pre = iterations blk k ++ pre1 /\
          E_cond true :: blk = pre1 ++ e :: post1)
      \/
      (exists pre2,
          pre = iterations blk (S n) ++ pre2 /\ tail = pre2 ++ e :: post)).
    { intros l E1 E2.
      destruct (IH l e post E2)
        as [(k & pre1 & post1 & Hk & Hp & Hb) | (pre2 & Hp & Ht)].
      - left. exists (S k), pre1, post1. split; [lia|]. split; [|exact Hb].
        rewrite E1, Hp, iterations_S. cbn [app].
        rewrite <- app_assoc. reflexivity.
      - right. exists pre2. split; [|exact Ht].
        rewrite E1, Hp, iterations_S. cbn [app].
        rewrite <- app_assoc. reflexivity. }
    apply app_eq_app in E as [l [[E1 E2] | [E1 E2]]].
    + destruct l as [|x l].
      * rewrite app_nil_r in E1. cbn [app] in E2.
        apply (Hlater []); [rewrite app_nil_r; symmetry; exact E1|].
        symmetry. exact E2.
      * cbn in E2. injection E2 as <- E2.
        left. exists 0, pre, l. split; [lia|]. split; [reflexivity|].
        exact E1.
    + exact (Hlater l E1 E2).
Qed.

Lemma count_cons_iterations (p : Event -> bool) (x : Event)
    (blk pre1 : list Event) (k : nat) :
  count p (x :: iterations blk k ++ pre1) =
  count p [x] + k * count p (E_cond true :: blk) + count p pre1.
Proof.
  change (x :: iterations blk k ++ pre1)
    with ([x] ++ iterations blk k ++ pre1).
  rewrite !count_app, count_iterations. lia.
Qed.

(* --------------------------------------------------------------------- *)
(** ** In a coroutine the caller is counted exactly while suspended *)
(* --------------------------------------------------------------------- *)

(** X1.  On the coroutine path [cond] is evaluated while the caller is not
    counted in [num_waiters] (as many decrements as increments before
    each evaluation, the first included), and the caller is counted
    during each [qemu_co_queue_wait] (one increment more than decrements
    before it). *)
Theorem coroutine_path_counted_while_suspended
    (World : Type) (env : Env World) (cond : Cond World) (fuel : nat)
    (ctx_ : option AioContext) (s : State World) :
  qemu_in_coroutine env s = true ->
  forall pre e post,
    trace (snd (run_AIO_WAIT_WHILE env fuel ctx_ cond s)) = pre ++ e :: post ->
    (is_cond e = true -> count is_inc pre = count is_dec pre) /\
    (e = E_qemu_co_queue_wait -> count is_inc pre = S (count is_dec pre)).
Proof.
  intros Hco pre e post E.
  assert (Hshape : exists n tail,
    trace (snd (run_AIO_WAIT_WHILE env fuel ctx_ cond s)) =
      E_qemu_in_coroutine true :: iterations coroutine_events n ++ tail /\
    (tail = [] \/ tail = [E_cond false])).
  { destruct (coroutine_run env cond fuel ctx_ s Hco)
      as [(n & _ & _ & _ & Hr & Htr) | (Hr & Htr)]; rewrite Hr; cbn [snd].
    - exists n, [E_cond false]. auto.
    - exists fuel, []. rewrite app_nil_r. auto. }
  destruct Hshape as (n & tail & Htr & Htail). rewrite Htr in E. clear Htr.
  destruct pre as [|x pre]; cbn [app] in E; injection E as <- E.
  { split; [discriminate | discriminate]. }
  apply iterations_split in E
    as [(k & pre1 & post1 & Hk & -> & Hb) | (pre2 & -> & Ht)].
  - rewrite !count_cons_iterations.
    unfold coroutine_events in Hb.
    destruct pre1 as [|p1 [|p2 [|p3 [|p4 pre1]]]]; cbn [app] in Hb;
      inversion Hb; subst; cbn;
      try (split; [intros; try discriminate; lia
                  | intros; try discriminate; lia]).
    destruct pre1; discriminate.
  - rewrite !count_cons_iterations.
    destruct Htail as [-> | ->].
    + destruct pre2; discriminate.
    + destruct pre2 as [|p1 pre2]; cbn [app] in Ht; inversion Ht; subst.
      * cbn. split; [intros; lia | discriminate].
      * destruct pre2; discriminate.
Qed.

(** A coroutine that is suspended twice. *)
Lemma coroutine_path_counted_while_suspended_witness :
  qemu_in_coroutine (countdown_env true 0) (countdown_start 2) = true /\
  count is_inc [E_qemu_in_coroutine true; E_cond true; E_atomic_inc]
  = S (count is_dec [E_qemu_in_coroutine true; E_cond true; E_atomic_inc]).
Proof.
  split; [reflexivity|].
  apply (@coroutine_path_counted_while_suspended nat (countdown_env true 0)
           countdown_cond 5 (Some 7) (countdown_start 2) eq_refl
           [E_qemu_in_coroutine true; E_cond true; E_atomic_inc]
           E_qemu_co_queue_wait
           [E_atomic_dec; E_cond true; E_atomic_inc; E_qemu_co_queue_wait;
            E_atomic_dec; E_cond false]);
    reflexivity.
Defined.

(* --------------------------------------------------------------------- *)
(** ** The last branch: cond with the context held, polls without *)
(* --------------------------------------------------------------------- *)

Lemma count_four_iterations (p : Event -> bool) (a1 a2 a3 a4 : Event)
    (blk rest : list Event) (k : nat) :
  count p (a1 :: a2 :: a3 :: a4 :: iterations blk k ++ rest) =
  count p [a1; a2; a3; a4] + k * count p (E_cond true :: blk)
  + count p rest.
Proof.
  change (a1 :: a2 :: a3 :: a4 :: iterations blk k ++ rest)
    with ([a1; a2; a3; a4] ++ iterations blk k ++ rest).
  rewrite !count_app, count_iterations. lia.
Qed.

(** Take the first event off both sides of [x :: l = pre ++ e :: post];
    when [pre] is empty, [e] is [x], which is no event of interest. *)
Ltac peel_event E :=
  match type of E with
  | _ :: _ = ?pre ++ _ :: _ =>
      destruct pre as [|? pre]; cbn [app] in E;
      [ injection E as <- _; split; discriminate
      | injection E as <- E ]
  end.

(** X2.  On the last path with a non-NULL [ctx], every evaluation of
    [cond] is made with [ctx] held as on entry (as many acquires as
    releases before it) and every poll of the main loop with [ctx]
    released (one release more than acquires before it); a call that
    returns has reacquired [ctx] as often as it released it. *)
Theorem foreign_path_lock_discipline
    (World : Type) (env : Env World) (cond : Cond World) (fuel : nat)
    (c : AioContext) (s : State World) :
  select_path env (Some c) s = ForeignThreadPath ->
  let out := run_AIO_WAIT_WHILE env fuel (Some c) cond s in
  (forall pre e post,
      trace (snd out) = pre ++ e :: post ->
      (is_cond e = true -> count is_release pre = count is_acquire pre) /\
      (is_aio_poll e = true ->
       count is_release pre = S (count is_acquire pre))) /\
  (forall w, fst out = Val w ->
      count is_release (trace (snd out)) = count is_acquire (trace (snd out))).
Proof.
  intros Hsel out.
  pose proof (run_outcome env cond fuel (Some c) s) as Hout.
  fold out in Hout. rewrite Hsel in Hout. cbn [path_outcome] in Hout.
  clearbody out.
  set (g := qemu_get_aio_context env) in *.
  assert (Hshape :
    (fst out = Abort /\
     trace (snd out) = foreign_selection (Some c) ++ [E_assert false]) \/
    exists n tail,
      trace (snd out) =
        E_qemu_in_coroutine false :: E_in_aio_context_home_thread c false
          :: E_assert true :: E_atomic_inc
          :: iterations (foreign_events g (Some c)) n ++ tail /\
      (tail = [] /\ fst out = Spin \/
       tail = [E_cond false; E_atomic_dec] /\ fst out = Val (0 <? n))).
  { destruct Hout as [Hab | [n [(_ & Hr & Htr) | (_ & Hr & Htr)]]].
    - left. exact Hab.
    - right. exists n, [E_cond false; E_atomic_dec]. rewrite Htr. auto.
    - right. exists n, []. rewrite Htr, app_nil_r. auto. }
  clear Hout. destruct Hshape as [(Hr & Htr) | (n & tail & Htr & Htail)].
  - (* the assertion failed *)
    rewrite Htr, Hr. split; [|discriminate].
    intros pre e post E. cbn [foreign_selection app] in E.
    do 3 peel_event E. destruct pre; discriminate.
  - rewrite Htr. split.
    + intros pre e post E.
      do 4 peel_event E.
      apply iterations_split in E
        as [(k & pre1 & post1 & Hk & -> & Hb) | (pre2 & -> & Ht)].
      * rewrite !count_four_iterations.
        unfold foreign_events in Hb.
        destruct pre1 as [|q1 [|q2 [|q3 [|q4 pre1]]]]; cbn [app] in Hb;
          inversion Hb; subst; cbn;
          try (split; [intros; try discriminate; lia
                      | intros; try discriminate; lia]).
        destruct pre1; discriminate.
      * rewrite !count_four_iterations.
        destruct Htail as [(-> & _) | (-> & _)].
        -- destruct pre2; discriminate.
        -- destruct pre2 as [|q1 [|q2 pre2]]; cbn [app] in Ht;
             inversion Ht; subst; cbn;
             try (split; [intros; try discriminate; lia
                         | intros; try discriminate; lia]).
           destruct pre2; discriminate.
    + intros w Hw.
      destruct Htail as [(-> & Hr) | (-> & Hr)]; [congruence|].
      rewrite !count_four_iterations. cbn. lia.
Qed.

(** The main loop waiting for context 7: at the second poll it has
    released the context twice and acquired it once. *)
Lemma foreign_path_lock_discipline_witness :
  select_path (countdown_env false 0) (Some 7) (countdown_start 2)
    = ForeignThreadPath /\
  count is_release
    (trace (snd (run_AIO_WAIT_WHILE (countdown_env false 0) 5 (Some 7)
                   countdown_cond (countdown_start 2))))
  = count is_acquire
      (trace (snd (run_AIO_WAIT_WHILE (countdown_env false 0) 5 (Some 7)
                     countdown_cond (countdown_start 2)))).
Proof.
  split; [reflexivity|].
  apply (proj2 (@foreign_path_lock_discipline nat (countdown_env false 0)
                  countdown_cond 5 7 (countdown_start 2) eq_refl)
           true).
  reflexivity.
Defined.

(* --------------------------------------------------------------------- *)
(** ** What holds when AIO_WAIT_WHILE returns *)
(* --------------------------------------------------------------------- *)

Lemma on_wait_set_wait {World} (f : AioWait -> AioWait) (s : State World) :
  on_wait f s = set_wait (f (aio_wait s)) s.
Proof. reflexivity. Qed.

(** X3.  When [cond] has no side effects, it is false in the state in
    which [AIO_WAIT_WHILE] returns: on the coroutine and home-thread paths
    nothing happens after the last evaluation, and on the last path only
    the decrement of [num_waiters], which does not matter to a [cond] that
    does not read the [AioWait] object. *)
Theorem returns_with_cond_false
    (World : Type) (env : Env World) (cond : Cond World) (fuel : nat)
    (ctx_ : option AioContext) (s : State World) (w : bool) :
  cond_pure cond ->
  let out := run_AIO_WAIT_WHILE env fuel ctx_ cond s in
  fst out = Val w ->
  (select_path env ctx_ s <> ForeignThreadPath ->
   fst (cond (st (snd out))) = false) /\
  (cond_blind_to_AioWait cond -> fst (cond (st (snd out))) = false).
Proof.
  intros Hpure out Hv. subst out.
  assert (Hafter : forall m, st (after_cond cond m) = st m).
  { intros m. rewrite after_cond_st. apply Hpure. }
  destruct (select_path env ctx_ s) as [|c|] eqn:Hsel.
  - apply select_path_coroutine in Hsel.
    destruct (coroutine_run env cond fuel ctx_ s Hsel)
      as [(n & _ & _ & Hf & Hr & _) | (Hr & _)]; rewrite Hr in *;
      [|discriminate].
    cbn [snd]. rewrite Hafter. split; intros _; exact Hf.
  - apply select_path_home in Hsel as (Hco & -> & Hhome).
    destruct (home_run env cond fuel c s Hco Hhome)
      as [(n & _ & _ & Hf & Hr & _) | (Hr & _)]; rewrite Hr in *;
      [|discriminate].
    cbn [snd]. rewrite Hafter. split; intros _; exact Hf.
  - destruct (foreign_run env cond fuel ctx_ s Hsel)
      as [(_ & Hr) | [(_ & n & mc & _ & Hmc & _ & Hf & Hr & _)
                     | (_ & Hr & _)]]; rewrite Hr in *; try discriminate.
    cbn [snd st]. split; [intros H; contradiction|].
    intros Hblind. rewrite on_wait_set_wait, Hblind. subst mc.
    rewrite Hafter. exact Hf.
Qed.

(** The main loop waits for work that takes two polls; afterwards the
    work is done. *)
Lemma returns_with_cond_false_witness :
  cond_pure countdown_cond /\
  cond_blind_to_AioWait countdown_cond /\
  fst (countdown_cond
         (st (snd (run_AIO_WAIT_WHILE (countdown_env false 0) 5 (Some 7)
                     countdown_cond (countdown_start 2))))) = false.
Proof.
  assert (Hpure : cond_pure countdown_cond) by (intros s; reflexivity).
  assert (Hblind : cond_blind_to_AioWait countdown_cond)
    by (intros a s; reflexivity).
  split; [exact Hpure|]. split; [exact Hblind|].
  apply (@returns_with_cond_false nat (countdown_env false 0) countdown_cond
           5 (Some 7) (countdown_start 2) true Hpure eq_refl).
  exact Hblind.
Defined.

(* --------------------------------------------------------------------- *)
(** ** The guards are evaluated once *)
(* --------------------------------------------------------------------- *)

(** X4.  Each call asks [qemu_in_coroutine] once; it asks
    [in_aio_context_home_thread] once when it is outside coroutines with
    a non-NULL [ctx] and never otherwise, so never for a NULL context; and
    it checks the assertion once on the last path, not once per
    iteration, and never on the other two, where the call cannot abort. *)
Theorem guards_evaluated_once
    (World : Type) (env : Env World) (cond : Cond World) (fuel : nat)
    (ctx_ : option AioContext) (s : State World) :
  let out := run_AIO_WAIT_WHILE env fuel ctx_ cond s in
  count is_in_coroutine_query (trace (snd out)) = 1 /\
  count is_home_thread_query (trace (snd out)) =
    (if qemu_in_coroutine env s then 0
     else match ctx_ with Some _ => 1 | None => 0 end) /\
  count is_assert (trace (snd out)) =
    match select_path env ctx_ s with
    | ForeignThreadPath => 1
    | _ => 0
    end /\
  (fst out = Abort -> select_path env ctx_ s = ForeignThreadPath).
Proof.
  intros out.
  pose proof (run_outcome env cond fuel ctx_ s) as Hout.
  fold out in Hout. clearbody out.
  destruct (select_path env ctx_ s) as [|c|] eqn:Hsel;
    cbn [path_outcome] in Hout.
  - apply select_path_coroutine in Hsel. rewrite Hsel.
    destruct Hout as [n [(_ & Hr & Htr) | (_ & Hr & Htr)]];
      rewrite Htr, Hr;
      rewrite ?app_comm_cons, ?count_app, !count_coroutine_loop; cbn;
      rewrite !Nat.mul_0_r; repeat split; discriminate.
  - apply select_path_home in Hsel as (Hco & -> & _). rewrite Hco.
    destruct Hout as [n [(_ & Hr & Htr) | (_ & Hr & Htr)]];
      rewrite Htr, Hr;
      rewrite ?count_app_last, !count_home_loop; cbn;
      rewrite !Nat.mul_0_r; repeat split; discriminate.
  - destruct (select_foreign_inv env ctx_ s Hsel) as [Hco _]. rewrite Hco.
    assert (Hq : count is_in_coroutine_query (foreign_selection ctx_) = 1)
      by (destruct ctx_; reflexivity).
    assert (Hh : count is_home_thread_query (foreign_selection ctx_) =
                 match ctx_ with Some _ => 1 | None => 0 end)
      by (destruct ctx_; reflexivity).
    assert (Ha : count is_assert (foreign_selection ctx_) = 0)
      by (destruct ctx_; reflexivity).
    assert (Hev : forall p,
      (forall c0 b, p (E_aio_poll c0 b) = false) ->
      (forall c0, p (E_aio_context_release c0) = false) ->
      (forall c0, p (E_aio_context_acquire c0) = false) ->
      p (E_cond true) = false ->
      forall n,
        count p (iterations
                   (foreign_events (qemu_get_aio_context env) ctx_) n) = 0).
    { intros p H1 H2 H3 H4 n. rewrite count_iterations.
      change (E_cond true
                :: foreign_events (qemu_get_aio_context env) ctx_)
        with ([E_cond true]
                ++ foreign_events (qemu_get_aio_context env) ctx_).
      rewrite count_app, count_foreign_events by assumption.
      unfold count. cbn. rewrite H4, H1. cbn. apply Nat.mul_0_r. }
    destruct Hout as [(Hr & Htr) | [n [(_ & Hr & Htr) | (_ & Hr & Htr)]]];
      rewrite Htr, Hr; rewrite !count_app, ?Hev by reflexivity;
      rewrite Hq, Hh, Ha; cbn; repeat split; try lia; discriminate.
Qed.

(* --------------------------------------------------------------------- *)
(** ** The value outside coroutines *)
(* --------------------------------------------------------------------- *)

(** X5.  Outside coroutines the value of a returning [AIO_WAIT_WHILE] is
    the value [cond] had at its first evaluation: the caller learns
    whether it had to wait at all. *)
Theorem value_is_first_cond
    (World : Type) (env : Env World) (cond : Cond World) (fuel : nat)
    (ctx_ : option AioContext) (s : State World) (w : bool) :
  qemu_in_coroutine env s = false ->
  let out := run_AIO_WAIT_WHILE env fuel ctx_ cond s in
  fst out = Val w ->
  first_cond (trace (snd out)) = Some w.
Proof.
  intros Hco out Hv.
  pose proof (run_outcome env cond fuel ctx_ s) as Hout.
  fold out in Hout. clearbody out.
  destruct (select_path env ctx_ s) as [|c|] eqn:Hsel;
    cbn [path_outcome] in Hout.
  - apply select_path_coroutine in Hsel. congruence.
  - destruct Hout as [n [(_ & Hr & Htr) | (_ & Hr & Htr)]];
      [|congruence].
    rewrite Htr. rewrite Hr in Hv. injection Hv as <-.
    rewrite first_cond_skip, first_cond_iterations by reflexivity.
    destruct n; reflexivity.
  - destruct Hout as [(Hr & _) | [n [(_ & Hr & Htr) | (_ & Hr & _)]]];
      [congruence | | congruence].
    rewrite Htr. rewrite Hr in Hv. injection Hv as <-.
    rewrite first_cond_skip
      by (apply count_foreign_selection; reflexivity).
    cbn [app]. rewrite !first_cond_cons by reflexivity.
    rewrite first_cond_iterations.
    destruct n; reflexivity.
Qed.

(** The IOThread that owns context 7 finds the work already done. *)
Lemma value_is_first_cond_witness :
  qemu_in_coroutine (countdown_env false 7) (countdown_start 0) = false /\
  first_cond
    (trace (snd (run_AIO_WAIT_WHILE (countdown_env false 7) 5 (Some 7)
                   countdown_cond (countdown_start 0)))) = Some false.
Proof.
  split; [reflexivity|].
  apply (@value_is_first_cond nat (countdown_env false 7) countdown_cond 5
           (Some 7) (countdown_start 0) false eq_refl eq_refl).
Defined.

(* --------------------------------------------------------------------- *)
(** ** The bound on iterations does not matter to a run that ends *)
(* --------------------------------------------------------------------- *)

Section Bound.

Variable World : Type.
Variable env : Env World.
Variable cond : Cond World.


Lemma coroutine_run_branch (fuel : nat) (ctx_ : option AioContext)
    (s : State World) :
  qemu_in_coroutine env s = true ->
  run_AIO_WAIT_WHILE env fuel ctx_ cond s =
    match while_ fuel (eval_cond cond) (coroutine_body env)
            (mkMachine s false [E_qemu_in_coroutine true]) with
    | (Val _, m') => (Val (waited_ m'), m')
    | (Abort, m') => (Abort, m')
    | (Spin, m') => (Spin, m')
    end.
Proof.
  intros Hco.
  unfold run_AIO_WAIT_WHILE, AIO_WAIT_WHILE, call_qemu_in_coroutine,
    coroutine_branch, bind, set_waited_, query, emit, ret, get_waited_.
  cbn. rewrite Hco. cbn.
  destruct (while_ fuel (eval_cond cond) (coroutine_body env) _)
    as [[[]| |] m']; reflexivity.
Qed.

End Bound.



(* --------------------------------------------------------------------- *)
(** ** The call returns when cond has become false *)
(* --------------------------------------------------------------------- *)

Section Returns.

Variable World : Type.
Variable env : Env World.
Variable cond : Cond World.

Hypothesis cond_is_pure : cond_pure cond.

Lemma unroll_pure_st (body : M World unit)
    (step : State World -> State World) :
  (forall m, st (after_body body m) = step (st m)) ->
  forall n m, st (unroll cond body n m) = repeat_step step n (st m).
Proof.
  intros Hbody. induction n as [|n IH]; intros m; [reflexivity|].
  cbn [unroll repeat_step]. rewrite IH, Hbody, after_cond_st.
  rewrite cond_is_pure. reflexivity.
Qed.

Lemma pure_loop_returns (body : M World unit)
    (step : State World -> State World) (n fuel : nat)
    (m : Machine World) :
  (forall m', fst (body m') = Val tt) ->
  (forall m', st (after_body body m') = step (st m')) ->
  n < fuel ->
  (forall k, k < n -> fst (cond (repeat_step step k (st m))) = true) ->
  fst (cond (repeat_step step n (st m))) = false ->
  exists m',
    while_ fuel (eval_cond cond) body m = (Val tt, m') /\
    st m' = repeat_step step n (st m) /\
    waited_ m' = waited_ (unroll cond body n m).
Proof.
  intros Hret Hbody Hn Ht Hf.
  exists (after_cond cond (unroll cond body n m)).
  split; [|split].
  - apply (while_returns cond body Hret); [exact Hn | |].
    + intros k Hk. unfold cond_value.
      rewrite (@unroll_pure_st body step Hbody). apply Ht. exact Hk.
    + unfold cond_value. rewrite (@unroll_pure_st body step Hbody). exact Hf.
  - rewrite after_cond_st, cond_is_pure.
    apply (@unroll_pure_st body step Hbody).
  - apply after_cond_waited.
Qed.

End Returns.

(** X7.  With a [cond] without side effects, a call whose caller passes
    the assertion returns as soon as [cond] is false: if [cond] holds
    after each of the first [n] iterations of the path's loop and fails
    after the [n]-th, the call returns, in the state these [n] iterations
    lead to (with the increment before and the decrement after them on the
    last path), and its value is whether [n] is positive (false in a
    coroutine). *)
Theorem returns_when_cond_becomes_false
    (World : Type) (env : Env World) (cond : Cond World) (fuel n : nat)
    (ctx_ : option AioContext) (s : State World) :
  cond_pure cond ->
  let p := select_path env ctx_ s in
  let step := path_step env ctx_ p in
  let s0 := path_entry p s in
  (p = ForeignThreadPath ->
   qemu_get_current_aio_context env s = qemu_get_aio_context env) ->
  (forall k, k < n -> fst (cond (repeat_step step k s0)) = true) ->
  fst (cond (repeat_step step n s0)) = false ->
  n < fuel ->
  let out := run_AIO_WAIT_WHILE env fuel ctx_ cond s in
  fst out = Val (path_value p n) /\
  st (snd out) = path_exit p (repeat_step step n s0).
Proof.
  intros Hpure p step s0 Hassert Ht Hf Hn out. subst out.
  destruct (select_path env ctx_ s) as [|c|] eqn:Hsel; subst p step s0;
    cbn [path_step path_entry path_exit path_value] in *.
  - apply select_path_coroutine in Hsel.
    rewrite (coroutine_run_branch env cond fuel ctx_ s Hsel).
    destruct (@pure_loop_returns World cond Hpure (coroutine_body env) _
                n fuel (mkMachine s false [E_qemu_in_coroutine true])
                (coroutine_body_returns env)
                (fun m => f_equal (fun x => st (snd x))
                            (coroutine_body_run env m))
                Hn Ht Hf) as (m' & Hr & Hst & Hw).
    rewrite Hr. cbn [fst snd]. split; [|exact Hst].
    rewrite Hw, unroll_waited_keep; [reflexivity|].
    intros m0. unfold after_body. rewrite coroutine_body_run. reflexivity.
  - apply select_path_home in Hsel as (Hco & -> & Hhome).
    rewrite (home_run_branch env cond c fuel s Hco Hhome).
    destruct (@pure_loop_returns World cond Hpure (home_body env c) _
                n fuel
                (mkMachine s false
                   [E_qemu_in_coroutine false;
                    E_in_aio_context_home_thread c true])
                (home_body_returns env c)
                (fun m => eq_refl) Hn Ht Hf) as (m' & Hr & Hst & Hw).
    rewrite Hr. cbn [fst snd]. split; [|exact Hst].
    rewrite Hw, unroll_waited_set; [|reflexivity].
    cbn. rewrite orb_false_r. reflexivity.
  - rewrite (foreign_run_branch env cond fuel ctx_ s Hsel).
    rewrite foreign_branch_pass by (apply Hassert; reflexivity).
    cbn [st waited_ trace].
    destruct (@pure_loop_returns World cond Hpure (foreign_body env ctx_) _
                n fuel
                (mkMachine (on_wait AioWait_inc s) false
                   (foreign_selection ctx_
                      ++ [E_assert true; E_atomic_inc]))
                (foreign_body_returns env ctx_)
                (fun m => f_equal (fun x => st (snd x))
                            (foreign_body_run env ctx_ m))
                Hn Ht Hf) as (m' & Hr & Hst & Hw).
    rewrite Hr. cbn [fst snd st waited_]. split; [|rewrite Hst; reflexivity].
    rewrite Hw, unroll_waited_set;
      [|intros m0; unfold after_body; rewrite foreign_body_run;
        reflexivity].
    cbn. rewrite orb_false_r. reflexivity.
Qed.

(** The main loop waits with a NULL [ctx] for work that takes two
    polls. *)
Lemma returns_when_cond_becomes_false_witness :
  cond_pure countdown_cond /\
  fst (run_AIO_WAIT_WHILE (countdown_env false 0) 5 None countdown_cond
         (countdown_start 2)) = Val true /\
  st (snd (run_AIO_WAIT_WHILE (countdown_env false 0) 5 None countdown_cond
             (countdown_start 2))) = countdown_start 0.
Proof.
  assert (Hpure : cond_pure countdown_cond) by (intros s; reflexivity).
  split; [exact Hpure|].
  apply (@returns_when_cond_becomes_false nat (countdown_env false 0)
           countdown_cond 5 2 None (countdown_start 2) Hpure).
  - reflexivity.
  - intros [|[|k]] Hk; [reflexivity | reflexivity | lia].
  - reflexivity.
  - lia.
Defined.

(* --------------------------------------------------------------------- *)
(** ** The virtio-scsi qtest: how its computations run *)
(* --------------------------------------------------------------------- *)

Section QRuns.

Variable World : Type.
Variable qt : Qtest World.

Lemma qbind_val A B (c : Q World A) (k : A -> Q World B) q a q' :
  c q = (QVal a, q') -> qbind c k q = k a q'.
Proof. intros E. unfold qbind. rewrite E. reflexivity. Qed.

Lemma qbind_inv A B (c : Q World A) (k : A -> Q World B) q b q' :
  qbind c k q = (QVal b, q') ->
  exists a q1, c q = (QVal a, q1) /\ k a q1 = (QVal b, q').
Proof.
  unfold qbind. destruct (c q) as [[a| |] q1]; intros E;
    try discriminate.
  exists a, q1. split; [reflexivity | exact E].
Qed.


Lemma g_assert_inv b (q q' : QState World) :
  g_assert b q = (QVal tt, q') -> b = true /\ q' = q.
Proof.
  unfold g_assert. destruct b; intros E; [|discriminate].
  injection E as <-. split; reflexivity.
Qed.

Lemma qcall_run A (f : World -> A * World) ev w l :
  exists a w',
    qcall f ev (mkQState w l) = (QVal a, mkQState w' (l ++ [ev a])).
Proof.
  exists (fst (f w)), (snd (f w)). reflexivity.
Qed.

Lemma qdo_run (f : World -> World) ev w l :
  exists w', qdo f ev (mkQState w l) = (QVal tt, mkQState w' (l ++ [ev])).
Proof. exists (f w). reflexivity. Qed.

Lemma alloc_run size data w l :
  exists addr w',
    qvirtio_scsi_alloc qt size data (mkQState w l)
    = (QVal addr,
       mkQState w'
         (l ++ T_guest_alloc size addr
            :: match data with
               | Some d => [T_memwrite addr d size]
               | None => []
               end)).
Proof.
  unfold qvirtio_scsi_alloc.
  destruct (qcall_run (guest_alloc qt size) (T_guest_alloc size) w l)
    as (addr & w1 & E1).
  rewrite (@qbind_val _ _ _ _ _ _ _ E1). exists addr.
  destruct data as [d|].
  - destruct (qdo_run (memwrite qt addr d size) (T_memwrite addr d size)
                w1 (l ++ [T_guest_alloc size addr])) as (w2 & E2).
    rewrite (@qbind_val _ _ _ _ _ _ _ E2). exists w2. unfold qret.
    rewrite <- app_assoc. reflexivity.
  - exists w1. reflexivity.
Qed.

Lemma buffer_run q size data write next w l :
  exists addr head w',
    (a <- qvirtio_scsi_alloc qt size data ;;
     call_qvirtqueue_add qt q a size write next ;;
     qret a)%qtest (mkQState w l)
    = (QVal addr,
       mkQState w' (l ++ buffer_events q size data addr write next head)).
Proof.
  destruct (alloc_run size data w l) as (addr & w1 & E1).
  rewrite (@qbind_val _ _ _ _ _ _ _ E1). exists addr.
  unfold call_qvirtqueue_add.
  match goal with
  | |- context [qbind (qcall ?f ?ev) _ (mkQState ?w0 ?l0)] =>
      destruct (qcall_run f ev w0 l0) as (head & w2 & E2)
  end.
  rewrite (@qbind_val _ _ _ _ _ _ _ E2). exists head, w2.
  unfold qret, buffer_events.
  rewrite <- app_assoc. reflexivity.
Qed.

Lemma optional_buffer_run q size data write next w l :
  exists addr head w',
    (if nonzero size
     then (a <- qvirtio_scsi_alloc qt size data ;;
           call_qvirtqueue_add qt q a size write next ;;
           qret a)%qtest
     else qret 0%Z) (mkQState w l)
    = (QVal (if nonzero size then addr else 0%Z),
       mkQState w'
         (l ++ if nonzero size
               then buffer_events q size data addr write next head
               else [])).
Proof.
  destruct (nonzero size).
  - apply buffer_run.
  - exists 0%Z, 0%Z, w. unfold qret. rewrite app_nil_r. reflexivity.
Qed.

Lemma optional_read_run (want : bool) addr size w l :
  exists resp w',
    (if want
     then (r <- qcall (memread qt addr size)
                  (fun _ => T_memread addr size) ;;
           qret (Some r))%qtest
     else qret None) (mkQState w l)
    = (QVal (if want then Some resp else None),
       mkQState w' (l ++ if want then [T_memread addr size] else [])).
Proof.
  destruct want.
  - destruct (qcall_run (memread qt addr size)
                (fun _ => T_memread addr size) w l) as (r & w1 & E).
    rewrite (@qbind_val _ _ _ _ _ _ _ E). exists r, w1. reflexivity.
  - exists (mkCmdResp 0 0 (fun _ => 0%Z)), w. unfold qret.
    rewrite app_nil_r. reflexivity.
Qed.

(** The shape of every [virtio_scsi_do_command]. *)
Lemma do_command_run vs cdb data_in data_in_len data_out data_out_len
    want q :
  VIRTIO_SCSI_CDB_SIZE qt <= length cdb ->
  exists req_addr out_addr resp_addr in_addr head out_head resp_head in_head
         response resp w,
    virtio_scsi_do_command qt vs cdb data_in data_in_len data_out
      data_out_len want q
    = (QVal (response, if want then Some resp else None),
       mkQState w
         (qlog q ++
          command_events (vq vs 2) (sizeof_req qt) (sizeof_resp qt)
            (offsetof_response qt) (firstn (VIRTIO_SCSI_CDB_SIZE qt) cdb)
            data_in data_in_len data_out data_out_len want
            req_addr out_addr resp_addr in_addr
            head out_head resp_head in_head response)).
Proof.
  intros Hlen. apply Nat.leb_le in Hlen. destruct q as [w l].
  unfold virtio_scsi_do_command, vq_at.
  change (Nat.ltb 2 VQ_SLOTS) with true. cbv iota.
  rewrite Hlen.
  rewrite (@qbind_val _ _ _ _ _ _ _
             (eq_refl : qret (vq vs 2) (mkQState w l) = _)).
  rewrite (@qbind_val _ _ _ _ _ _ _
             (eq_refl : qret tt (mkQState w l) = _)).
  destruct (alloc_run (sizeof_req qt)
              (Some (D_req 1 1 (firstn (VIRTIO_SCSI_CDB_SIZE qt) cdb))) w l)
    as (req_addr & w1 & E1).
  rewrite (@qbind_val _ _ _ _ _ _ _ E1); clear E1.
  unfold call_qvirtqueue_add at 1.
  match goal with
  | |- context [qbind (qcall ?f ?ev) _ (mkQState ?w0 ?l0)] =>
      destruct (qcall_run f ev w0 l0) as (head & w2 & E2)
  end.
  rewrite (@qbind_val _ _ _ _ _ _ _ E2); clear E2.
  match goal with
  | |- context [qbind _ _ (mkQState ?w0 ?l0)] =>
      destruct (optional_buffer_run (vq vs 2) data_out_len
                  (option_map D_bytes data_out) false true w0 l0)
        as (out_addr & out_head & w3 & E3)
  end.
  rewrite (@qbind_val _ _ _ _ _ _ _ E3); clear E3.
  match goal with
  | |- context [qbind _ _ (mkQState ?w0 ?l0)] =>
      destruct (alloc_run (sizeof_resp qt) (Some (D_resp 255 255)) w0 l0)
        as (resp_addr & w4 & E4)
  end.
  rewrite (@qbind_val _ _ _ _ _ _ _ E4); clear E4.
  unfold call_qvirtqueue_add at 1.
  match goal with
  | |- context [qbind (qcall ?f ?ev) _ (mkQState ?w0 ?l0)] =>
      destruct (qcall_run f ev w0 l0) as (resp_head & w5 & E5)
  end.
  rewrite (@qbind_val _ _ _ _ _ _ _ E5); clear E5.
  match goal with
  | |- context [qbind _ _ (mkQState ?w0 ?l0)] =>
      destruct (optional_buffer_run (vq vs 2) data_in_len
                  (option_map D_bytes data_in) true false w0 l0)
        as (in_addr & in_head & w6 & E6)
  end.
  rewrite (@qbind_val _ _ _ _ _ _ _ E6); clear E6.
  match goal with
  | |- context [qbind (qdo ?f ?ev) _ (mkQState ?w0 ?l0)] =>
      destruct (qdo_run f ev w0 l0) as (w7 & E7)
  end.
  rewrite (@qbind_val _ _ _ _ _ _ _ E7); clear E7.
  match goal with
  | |- context [qbind (qdo ?f ?ev) _ (mkQState ?w0 ?l0)] =>
      destruct (qdo_run f ev w0 l0) as (w8 & E8)
  end.
  rewrite (@qbind_val _ _ _ _ _ _ _ E8); clear E8.
  match goal with
  | |- context [qbind (qcall ?f ?ev) _ (mkQState ?w0 ?l0)] =>
      destruct (qcall_run f ev w0 l0) as (response & w9 & E9)
  end.
  rewrite (@qbind_val _ _ _ _ _ _ _ E9); clear E9.
  match goal with
  | |- context [qbind _ _ (mkQState ?w0 ?l0)] =>
      destruct (optional_read_run want resp_addr (sizeof_resp qt) w0 l0)
        as (resp & w10 & E10)
  end.
  rewrite (@qbind_val _ _ _ _ _ _ _ E10); clear E10.
  exists req_addr, out_addr, resp_addr, in_addr, head, out_head, resp_head,
    in_head, response, resp.
  eexists. unfold qbind, qdo, qret. cbn [qworld qlog].
  apply f_equal. apply f_equal.
  unfold command_events, buffer_events. cbn [app].
  rewrite <- !app_assoc. cbn [app].
  reflexivity.
Qed.

End QRuns.

(* --------------------------------------------------------------------- *)
(** ** virtio_scsi_do_command *)
(* --------------------------------------------------------------------- *)



(** X9.  The calls of one [virtio_scsi_do_command] come in stages that
    never go back: first the buffers are allocated, filled and added to
    the queue, then the device is kicked, then the interrupt is waited
    for, then the response is read, and only then are the buffers
    released.  Nothing else is called. *)
Theorem do_command_stages (World : Type) (qt : Qtest World)
    (vs : QVirtIOSCSI) (cdb : list byte)
    (data_in : option (list byte)) (data_in_len : Z)
    (data_out : option (list byte)) (data_out_len : Z) (want : bool)
    (q : QState World) :
  VIRTIO_SCSI_CDB_SIZE qt <= length cdb ->
  exists ev,
    qlog (snd (virtio_scsi_do_command qt vs cdb data_in data_in_len
                 data_out data_out_len want q)) = qlog q ++ ev /\
    in_stage_order 0 ev = true /\
    In (T_qvirtio_wait_queue_isr (vq vs 2) QVIRTIO_SCSI_TIMEOUT_US) ev.
Proof.
  intros Hlen.
  destruct (@do_command_run World qt vs cdb data_in data_in_len data_out
              data_out_len want q Hlen)
    as (req_addr & out_addr & resp_addr & in_addr & head & out_head
        & resp_head & in_head & response & resp & w & E).
  rewrite E. cbn [snd qlog]. eexists. split; [reflexivity|].
  unfold command_events, buffer_events.
  destruct (nonzero data_out_len), (nonzero data_in_len), want,
    data_in, data_out; cbn; (split; [reflexivity | tauto]).
Qed.

Lemma do_command_stages_witness :
  VIRTIO_SCSI_CDB_SIZE (small_guest 1 0) <= length write_same_cdb /\
  exists ev,
    qlog (snd (virtio_scsi_do_command (small_guest 1 0) small_vs
                 write_same_cdb (Some [x00; x00]) 2 None 0 false
                 small_guest_start))
    = qlog small_guest_start ++ ev /\
    in_stage_order 0 ev = true /\
    In (T_qvirtio_wait_queue_isr (vq small_vs 2) QVIRTIO_SCSI_TIMEOUT_US)
      ev.
Proof.
  assert (H : VIRTIO_SCSI_CDB_SIZE (small_guest 1 0)
              <= length write_same_cdb) by (simpl; lia).
  split; [exact H|].
  exact (@do_command_stages Z (small_guest 1 0) small_vs write_same_cdb
           (Some [x00; x00]) 2 None 0 false small_guest_start H).
Defined.

(** X10.  [virtio_scsi_do_command] calls [guest_free] four times
    whatever its arguments: once for each address [guest_alloc] gave it,
    and with address 0 for each of the two data buffers it did not
    allocate. *)
Theorem do_command_frees_what_it_allocates (World : Type)
    (qt : Qtest World) (vs : QVirtIOSCSI) (cdb : list byte)
    (data_in : option (list byte)) (data_in_len : Z)
    (data_out : option (list byte)) (data_out_len : Z) (want : bool)
    (q : QState World) :
  VIRTIO_SCSI_CDB_SIZE qt <= length cdb ->
  exists ev,
    qlog (snd (virtio_scsi_do_command qt vs cdb data_in data_in_len
                 data_out data_out_len want q)) = qlog q ++ ev /\
    length (freed ev) = 4 /\
    Permutation (freed ev)
      (allocated ev
       ++ repeat 0%Z (2 - b2n (nonzero data_out_len)
                        - b2n (nonzero data_in_len))).
Proof.
  intros Hlen.
  destruct (@do_command_run World qt vs cdb data_in data_in_len data_out
              data_out_len want q Hlen)
    as (req_addr & out_addr & resp_addr & in_addr & head & out_head
        & resp_head & in_head & response & resp & w & E).
  rewrite E. cbn [snd qlog]. eexists. split; [reflexivity|].
  unfold command_events, buffer_events.
  destruct (nonzero data_out_len), (nonzero data_in_len), want,
    data_in, data_out; cbn; (split; [reflexivity|]);
    try apply Permutation_refl;
    apply perm_skip;
    match goal with
    | |- Permutation ?l (?a :: ?l') =>
        apply Permutation_sym;
        apply (Permutation_cons_append l' a)
    end.
Qed.

Lemma do_command_frees_what_it_allocates_witness :
  VIRTIO_SCSI_CDB_SIZE (small_guest 1 0) <= length write_same_cdb /\
  exists ev,
    qlog (snd (virtio_scsi_do_command (small_guest 1 0) small_vs
                 write_same_cdb None 0 (Some (repeat x00 512)) 512 true
                 small_guest_start))
    = qlog small_guest_start ++ ev /\
    length (freed ev) = 4 /\
    Permutation (freed ev)
      (allocated ev
       ++ repeat 0%Z (2 - b2n (nonzero 512) - b2n (nonzero 0))).
Proof.
  assert (H : VIRTIO_SCSI_CDB_SIZE (small_guest 1 0)
              <= length write_same_cdb) by (simpl; lia).
  split; [exact H|].
  exact (@do_command_frees_what_it_allocates Z (small_guest 1 0) small_vs
           write_same_cdb None 0 (Some (repeat x00 512)) 512 true
           small_guest_start H).
Defined.

(** X11.  The only guest memory [virtio_scsi_do_command] reads is the
    response header it wrote itself: its [response] byte and, when
    [resp_out] is not NULL, the whole header.  The bytes of [data_in]
    are copied into the guest like those of [data_out]; the buffer the
    device writes them over is never read back. *)
Theorem do_command_reads_response_only (World : Type) (qt : Qtest World)
    (vs : QVirtIOSCSI) (cdb : list byte)
    (data_in : option (list byte)) (data_in_len : Z)
    (data_out : option (list byte)) (data_out_len : Z) (want : bool)
    (q : QState World) :
  VIRTIO_SCSI_CDB_SIZE qt <= length cdb ->
  exists ev resp_addr,
    qlog (snd (virtio_scsi_do_command qt vs cdb data_in data_in_len
                 data_out data_out_len want q)) = qlog q ++ ev /\
    In (resp_addr, D_resp 255 255) (guest_writes ev) /\
    guest_reads ev
    = ((resp_addr + offsetof_response qt)%Z, 1%Z)
      :: (if want then [(resp_addr, sizeof_resp qt)] else []) /\
    (forall d, data_in = Some d -> data_in_len <> 0%Z ->
               exists a, In (a, D_bytes d) (guest_writes ev)).
Proof.
  intros Hlen.
  destruct (@do_command_run World qt vs cdb data_in data_in_len data_out
              data_out_len want q Hlen)
    as (req_addr & out_addr & resp_addr & in_addr & head & out_head
        & resp_head & in_head & response & resp & w & E).
  rewrite E. cbn [snd qlog]. exists
    (command_events (vq vs 2) (sizeof_req qt) (sizeof_resp qt)
       (offsetof_response qt) (firstn (VIRTIO_SCSI_CDB_SIZE qt) cdb)
       data_in data_in_len data_out data_out_len want req_addr out_addr
       resp_addr in_addr head out_head resp_head in_head response),
    resp_addr.
  split; [reflexivity|].
  assert (Hnz : forall z, z <> 0%Z -> nonzero z = true).
  { intros z Hz. unfold nonzero. apply negb_true_iff.
    apply Z.eqb_neq. exact Hz. }
  unfold command_events, buffer_events.
  destruct (nonzero data_out_len), (nonzero data_in_len) eqn:Hin, want,
    data_in, data_out; cbn;
    (split; [tauto|]); (split; [reflexivity|]);
    intros d Hd Hz; try discriminate;
    try (rewrite (Hnz _ Hz) in Hin; discriminate);
    injection Hd as <-; exists in_addr; tauto.
Qed.

Lemma do_command_reads_response_only_witness :
  VIRTIO_SCSI_CDB_SIZE (small_guest 1 0) <= length write_same_cdb /\
  exists ev resp_addr,
    qlog (snd (virtio_scsi_do_command (small_guest 1 0) small_vs
                 write_same_cdb (Some [x00; x00]) 2 None 0 true
                 small_guest_start))
    = qlog small_guest_start ++ ev /\
    In (resp_addr, D_resp 255 255) (guest_writes ev) /\
    guest_reads ev
    = ((resp_addr + offsetof_response (small_guest 1 0))%Z, 1%Z)
      :: (if true then [(resp_addr, sizeof_resp (small_guest 1 0))]
          else []) /\
    (forall d, Some [x00; x00] = Some d -> 2%Z <> 0%Z ->
               exists a, In (a, D_bytes d) (guest_writes ev)).
Proof.
  assert (H : VIRTIO_SCSI_CDB_SIZE (small_guest 1 0)
              <= length write_same_cdb) by (simpl; lia).
  split; [exact H|].
  exact (@do_command_reads_response_only Z (small_guest 1 0) small_vs
           write_same_cdb (Some [x00; x00]) 2 None 0 true
           small_guest_start H).
Defined.

(* --------------------------------------------------------------------- *)
(** ** run_cmd *)
(* --------------------------------------------------------------------- *)

Section RunCmdFacts.

Variable World : Type.
Variable qt : Qtest World.


Lemma qbind_assert B b (k : unit -> Q World B) q :
  qbind (g_assert b) k q = if b then k tt q else (QAssertFailed, q).
Proof. destruct b; reflexivity. Qed.



Lemma nonzero_true z : z <> 0%Z -> nonzero z = true.
Proof.
  intros Hz. unfold nonzero. apply negb_true_iff. apply Z.eqb_neq.
  exact Hz.
Qed.


End RunCmdFacts.

(** X12.  [run_cmd] compares [readcmp] with a buffer nobody has written
    to: [readbuf] comes from [g_malloc0] and goes to
    [virtio_scsi_do_command] as its [const] input.  So a [run_cmd] that
    expects [VIRTIO_SCSI_S_OK] and [GOOD] with a [readlen] that is not
    zero passes only if the first [readlen] bytes of [readcmp] are
    zero, whatever the device answered. *)
Theorem run_cmd_read_check_is_against_zeros (World : Type)
    (qt : Qtest World) (vs : QVirtIOSCSI) (cdb : list byte)
    (readcmp : option (list byte)) (readlen : Z)
    (writebuf : option (list byte)) (writelen : Z)
    (sense : option SCSISense) (q q' : QState World) :
  readlen <> 0%Z ->
  run_cmd qt vs cdb readcmp readlen writebuf writelen
    (VIRTIO_SCSI_S_OK qt) (GOOD qt) sense q = (QVal tt, q') ->
  exists rc,
    readcmp = Some rc /\
    Z.to_nat readlen <= length rc /\
    firstn (Z.to_nat readlen) rc = repeat x00 (Z.to_nat readlen).
Proof.
  intros Hz E. unfold run_cmd in E.
  destruct (scsi_cdb_length _ cdb) as [len|]; [|discriminate].
  cbv zeta in E. rewrite (nonzero_true Hz) in E.
  apply qbind_inv in E as (u1 & q1 & _ & E).
  apply qbind_inv in E as (u2 & q2 & _ & E).
  apply qbind_inv in E as (r & q3 & _ & E).
  apply qbind_inv in E as (u4 & q4 & _ & E).
  apply qbind_inv in E as (u5 & q5 & _ & E).
  apply qbind_inv in E as (u6 & q6 & Hcmp & _).
  rewrite !Z.eqb_refl in Hcmp. cbn [andb] in Hcmp.
  unfold g_assert_cmpmem in Hcmp.
  destruct readcmp as [rc|]; [|discriminate].
  exists rc. split; [reflexivity|].
  destruct (Nat.leb (Z.to_nat readlen) (length rc)) eqn:Hl;
    [|discriminate].
  cbn [andb] in Hcmp.
  destruct (Nat.leb (Z.to_nat readlen)
              (length (repeat x00 (Z.to_nat readlen))));
    [|discriminate].
  destruct u6. apply g_assert_inv in Hcmp as [Hb _].
  unfold bytes_eqb in Hb.
  destruct (list_eq_dec Byte.byte_eq_dec _ _) as [Heq|]; [|discriminate].
  split; [apply Nat.leb_le; exact Hl|].
  rewrite Heq. apply firstn_all2. rewrite repeat_length. lia.
Qed.

(** Two bytes are expected back from a guest that answers every command
    with success: the check passes on two zero bytes. *)
Lemma run_cmd_read_check_is_against_zeros_witness :
  exists rc,
    Some [x00; x00] = Some rc /\
    Z.to_nat 2 <= length rc /\
    firstn (Z.to_nat 2) rc = repeat x00 (Z.to_nat 2).
Proof.
  apply (@run_cmd_read_check_is_against_zeros Z (small_guest 1 0) small_vs
           write_same_cdb (Some [x00; x00]) 2 None 0 None
           small_guest_start
           (snd (run_cmd (small_guest 1 0) small_vs write_same_cdb
                   (Some [x00; x00]) 2 None 0 0 0 None
                   small_guest_start))).
  - lia.
  - vm_compute. reflexivity.
Defined.



(* --------------------------------------------------------------------- *)
(** ** qvirtio_scsi_pci_init and qvirtio_scsi_pci_free *)
(* --------------------------------------------------------------------- *)

Ltac q_call a w :=
  match goal with
  | |- context [qbind (qcall ?f ?ev) _ (mkQState ?w0 ?l0)] =>
      let E := fresh "E" in
      destruct (@qcall_run _ _ f ev w0 l0) as (a & w & E);
      rewrite (@qbind_val _ _ _ _ _ _ _ _ E); clear E
  end.

Ltac q_do w :=
  match goal with
  | |- context [qbind (qdo ?f ?ev) _ (mkQState ?w0 ?l0)] =>
      let E := fresh "E" in
      destruct (@qdo_run _ f ev w0 l0) as (w & E);
      rewrite (@qbind_val _ _ _ _ _ _ _ _ E); clear E
  end.

Ltac q_assert H :=
  rewrite qbind_assert;
  match goal with
  | |- context [if ?b then _ else _] =>
      destruct b eqn:H; [|left; reflexivity]
  end.

Lemma set_up_app l1 l2 : set_up (l1 ++ l2) = set_up l1 ++ set_up l2.
Proof. apply flat_map_app. Qed.

Lemma set_up_indexes_app l1 l2 :
  set_up_indexes (l1 ++ l2) = set_up_indexes l1 ++ set_up_indexes l2.
Proof. apply flat_map_app. Qed.

Lemma add_queues_app l1 l2 :
  add_queues (l1 ++ l2) = add_queues l1 ++ add_queues l2.
Proof. apply flat_map_app. Qed.

Lemma set_up_setup_events qs : forall i, set_up (setup_events i qs) = qs.
Proof.
  induction qs as [|v qs IH]; intros i; [reflexivity|].
  cbn [setup_events set_up flat_map app]. f_equal. apply IH.
Qed.

Lemma set_up_indexes_setup_events qs :
  forall i,
    set_up_indexes (setup_events i qs)
    = map Z.of_nat (seq i (length qs)).
Proof.
  induction qs as [|v qs IH]; intros i; [reflexivity|].
  cbn [setup_events set_up_indexes flat_map app length seq map].
  f_equal. apply IH.
Qed.

Lemma add_queues_setup_events qs :
  forall i, add_queues (setup_events i qs) = [].
Proof.
  induction qs as [|v qs IH]; intros i; [reflexivity|].
  cbn [setup_events add_queues flat_map app]. apply IH.
Qed.

Lemma cleaned_cleanup_events (f : nat -> option QVirtQueue) l :
  cleaned (map (fun j => T_qvirtqueue_cleanup (f j)) l) = map f l.
Proof.
  induction l as [|j l IH]; [reflexivity|].
  cbn [map cleaned flat_map app]. f_equal. exact IH.
Qed.

Lemma cleaned_app l1 l2 : cleaned (l1 ++ l2) = cleaned l1 ++ cleaned l2.
Proof. apply flat_map_app. Qed.

Section InitFacts.

Variable World : Type.
Variable qt : Qtest World.

(** The loop that sets the queues up stays inside [vs->vq] as long as
    its last index does. *)
Lemma setup_queues_run count :
  forall i vs w l,
    i + count <= VQ_SLOTS ->
    exists vs' w' qs,
      setup_queues qt count i vs (mkQState w l)
      = (QVal vs', mkQState w' (l ++ setup_events i qs)) /\
      length qs = count /\
      vs_dev vs' = vs_dev vs /\
      num_queues vs' = num_queues vs /\
      (forall j, j < i \/ i + count <= j -> vq vs' j = vq vs j) /\
      map (vq vs') (seq i count) = map Some qs.
Proof.
  induction count as [|count IH]; intros i vs w l Hi.
  - exists vs, w, []. cbn [setup_queues setup_events]. unfold qret.
    rewrite app_nil_r. repeat split; reflexivity.
  - cbn [setup_queues]. q_call v w1.
    unfold vq_store.
    assert (Hlt : Nat.ltb i VQ_SLOTS = true) by (apply Nat.ltb_lt; lia).
    rewrite Hlt.
    match goal with
    | |- context [qbind (qret ?x) _ ?q0] =>
        rewrite (@qbind_val _ _ _ (qret x) _ q0 x q0 eq_refl)
    end.
    match goal with
    | |- context [setup_queues qt count (S i) ?vs1 (mkQState ?w0 ?l0)] =>
        destruct (IH (S i) vs1 w0 l0 ltac:(lia))
          as (vs' & w' & qs & E & Hqs & Hdev & Hnum & Hframe & Hmap)
    end.
    exists vs', w', (v :: qs). rewrite E.
    cbn [vs_dev num_queues vq] in *.
    split; [|split; [|split; [|split; [|split]]]].
    + rewrite <- app_assoc. reflexivity.
    + cbn [length]. rewrite Hqs. reflexivity.
    + exact Hdev.
    + exact Hnum.
    + intros j Hj. rewrite Hframe by lia.
      destruct (Nat.eqb j i) eqn:Hji; [|reflexivity].
      apply Nat.eqb_eq in Hji. lia.
    + cbn [seq map]. rewrite Hmap. f_equal.
      rewrite Hframe by lia. rewrite Nat.eqb_refl. reflexivity.
Qed.

(** The loop that cleans the queues up does too. *)
Lemma cleanup_queues_run vs count :
  forall i w l,
    i + count <= VQ_SLOTS ->
    exists w',
      cleanup_queues qt count i vs (mkQState w l)
      = (QVal tt,
         mkQState w'
           (l ++ map (fun j => T_qvirtqueue_cleanup (vq vs j))
                   (seq i count))).
Proof.
  induction count as [|count IH]; intros i w l Hi.
  - exists w. cbn [cleanup_queues seq map]. unfold qret.
    rewrite app_nil_r. reflexivity.
  - cbn [cleanup_queues]. unfold vq_at.
    assert (Hlt : Nat.ltb i VQ_SLOTS = true) by (apply Nat.ltb_lt; lia).
    rewrite Hlt.
    match goal with
    | |- context [qbind (qret ?x) _ ?q0] =>
        rewrite (@qbind_val _ _ _ (qret x) _ q0 x q0 eq_refl)
    end.
    q_do w1.
    match goal with
    | |- context [cleanup_queues qt count (S i) vs (mkQState ?w0 ?l0)] =>
        destruct (IH (S i) w0 l0 ltac:(lia)) as (w' & E)
    end.
    exists w'. rewrite E. cbn [seq map]. rewrite <- app_assoc.
    reflexivity.
Qed.

(** The shape of every [qvirtio_scsi_pci_free] on a structure whose
    [num_queues + 2] queues fit into [vq]. *)
Lemma pci_free_run vs (q : QState World) :
  (num_queues vs <= MAX_NUM_QUEUES)%Z ->
  exists w',
    qvirtio_scsi_pci_free qt vs q
    = (QVal tt,
       mkQState w'
         (qlog q
          ++ map (fun j => T_qvirtqueue_cleanup (vq vs j))
               (seq 0 (Z.to_nat (num_queues vs + 2)))
          ++ release_events)).
Proof.
  intros Hn. destruct q as [w l]. unfold qvirtio_scsi_pci_free.
  assert (Hb : 0 + Z.to_nat (num_queues vs + 2) <= VQ_SLOTS).
  { unfold VQ_SLOTS, MAX_NUM_QUEUES in *. lia. }
  destruct (cleanup_queues_run vs (Z.to_nat (num_queues vs + 2)) 0 w l Hb)
    as (w1 & E).
  rewrite (@qbind_val _ _ _ _ _ _ _ _ E); clear E.
  q_do w2. q_do w3. q_do w4.
  eexists. unfold qdo. cbn [qworld qlog].
  apply f_equal. apply f_equal. unfold release_events.
  rewrite <- !app_assoc. reflexivity.
Qed.

(** The shape of every [qvirtio_scsi_pci_init]: an assertion fails, or
    the device [d] reported [n] with [(int)n < MAX_NUM_QUEUES], the
    queues [qs] were set up in the first [n + 2] slots, and the TEST
    UNIT READY was sent. *)
Lemma pci_init_run (q : QState World) :
  fst (qvirtio_scsi_pci_init qt q) = QAssertFailed \/
  exists d n vs w' qs a1 a2 a3 a4 h1 h2 h3 h4 rsp,
    qvirtio_scsi_pci_init qt q
    = (QVal vs,
       mkQState w'
         (qlog q
          ++ probe_events (dev_addr d + VIRTIO_PCI_CONFIG_OFF_false qt) n
          ++ setup_events 0 qs
          ++ command_events (vq vs 2) (sizeof_req qt) (sizeof_resp qt)
               (offsetof_response qt)
               (firstn (VIRTIO_SCSI_CDB_SIZE qt)
                  (repeat x00 (VIRTIO_SCSI_CDB_SIZE qt)))
               None 0 None 0 true a1 a2 a3 a4 h1 h2 h3 h4 rsp)) /\
    (to_int n < MAX_NUM_QUEUES)%Z /\
    vs_dev vs = Some d /\
    num_queues vs = to_int n /\
    length qs = Z.to_nat (to_int n + 2) /\
    (forall j, length qs <= j -> vq vs j = None) /\
    map (vq vs) (seq 0 (length qs)) = map Some qs.
Proof.
  destruct q as [w l]. unfold qvirtio_scsi_pci_init.
  q_do w1. q_do w2. q_call dev w3.
  destruct dev as [d|]; [|left; reflexivity].
  q_assert Hty.
  q_do w4. q_do w5. q_do w6. q_do w7. q_call n w8.
  q_assert Hn. apply Z.ltb_lt in Hn.
  assert (Hb : 0 + Z.to_nat (to_int n + 2) <= VQ_SLOTS).
  { unfold VQ_SLOTS, MAX_NUM_QUEUES in *. lia. }
  match goal with
  | |- context [qbind (setup_queues qt _ 0 ?vs0) _ (mkQState ?w0 ?l0)] =>
      destruct (setup_queues_run (Z.to_nat (to_int n + 2)) 0 vs0 w0 l0 Hb)
        as (vs & w9 & qs & E & Hqs & Hdev & Hnum & Hframe & Hmap)
  end.
  rewrite (@qbind_val _ _ _ _ _ _ _ _ E); clear E.
  cbn [vs_dev num_queues vq] in Hdev, Hnum, Hframe.
  match goal with
  | |- context [qbind (virtio_scsi_do_command qt vs ?cdb _ _ _ _ _) _
                  ?q0] =>
      destruct (@do_command_run World qt vs cdb None 0 None 0 true q0
                  ltac:(rewrite repeat_length; lia))
        as (a1 & a2 & a3 & a4 & h1 & h2 & h3 & h4 & rsp & resp & w10 & E)
  end.
  rewrite (@qbind_val _ _ _ _ _ _ _ _ E); clear E.
  cbv zeta. cbn [fst snd qlog].
  q_assert H1. q_assert H2. q_assert H3. q_assert H4. q_assert H5.
  q_assert H6.
  right. exists d, n, vs, w10, qs, a1, a2, a3, a4, h1, h2, h3, h4, rsp.
  split; [|split; [|split; [|split; [|split; [|split]]]]].
  - unfold qret, probe_events. apply f_equal. apply f_equal.
    rewrite <- !app_assoc. reflexivity.
  - exact Hn.
  - exact Hdev.
  - exact Hnum.
  - exact Hqs.
  - intros j Hj. rewrite Hframe by lia. reflexivity.
  - rewrite Hqs. exact Hmap.
Qed.

(** The same, for a run that is known to have returned. *)
Lemma pci_init_returned (q q' : QState World) vs :
  qvirtio_scsi_pci_init qt q = (QVal vs, q') ->
  exists d n qs cmd,
    qlog q'
    = qlog q
      ++ probe_events (dev_addr d + VIRTIO_PCI_CONFIG_OFF_false qt) n
      ++ setup_events 0 qs ++ cmd /\
    set_up cmd = [] /\
    set_up_indexes cmd = [] /\
    add_queues cmd = [vq vs 2; vq vs 2] /\
    (to_int n < MAX_NUM_QUEUES)%Z /\
    num_queues vs = to_int n /\
    length qs = Z.to_nat (to_int n + 2) /\
    (forall j, length qs <= j -> vq vs j = None) /\
    map (vq vs) (seq 0 (length qs)) = map Some qs.
Proof.
  intros Hrun.
  destruct (pci_init_run q)
    as [E | (d & n & vs0 & w' & qs & a1 & a2 & a3 & a4 & h1 & h2 & h3 & h4
             & rsp & E & Hn & Hdev & Hnum & Hqs & Hnone & Hmap)].
  { rewrite Hrun in E. discriminate. }
  assert (Hvs : vs0 = vs) by congruence. subst vs0.
  assert (Hq : q' = snd (qvirtio_scsi_pci_init qt q))
    by (rewrite Hrun; reflexivity).
  rewrite E in Hq. cbn [snd] in Hq. subst q'. cbn [qlog].
  exists d, n, qs.
  eexists. split; [reflexivity|].
  unfold command_events, buffer_events. cbn.
  repeat (split; [reflexivity|]).
  repeat (split; [assumption|]). assumption.
Qed.

End InitFacts.

(** X14.  [qvirtio_scsi_pci_init] never writes outside [vs->vq],
    whatever the device reports: the assertion on [num_queues] stops it
    before the loop would reach slot [MAX_NUM_QUEUES + 2], and the CDB it
    sends has [VIRTIO_SCSI_CDB_SIZE] bytes. *)
Theorem pci_init_stays_in_bounds (World : Type) (qt : Qtest World)
    (q : QState World) :
  fst (qvirtio_scsi_pci_init qt q) <> QUndefined.
Proof.
  destruct (pci_init_run qt q)
    as [E | (d & n & vs & w' & qs & a1 & a2 & a3 & a4 & h1 & h2 & h3 & h4
             & rsp & E & _)];
    rewrite E; discriminate.
Qed.

(** X15.  When [qvirtio_scsi_pci_init] returns, [num_queues] is below
    [MAX_NUM_QUEUES], [qvirtqueue_setup] was called once for each index
    from 0 to [num_queues + 1] in that order, slot [i] of [vq] holds what
    the call for index [i] returned, and the slots from [num_queues + 2]
    on are NULL. *)
Theorem pci_init_sets_up_queues (World : Type) (qt : Qtest World)
    (q q' : QState World) (vs : QVirtIOSCSI) :
  qvirtio_scsi_pci_init qt q = (QVal vs, q') ->
  (num_queues vs < MAX_NUM_QUEUES)%Z /\
  exists ev,
    qlog q' = qlog q ++ ev /\
    set_up_indexes ev
    = map Z.of_nat (seq 0 (Z.to_nat (num_queues vs + 2))) /\
    map (vq vs) (seq 0 (Z.to_nat (num_queues vs + 2)))
    = map Some (set_up ev) /\
    (forall j, Z.to_nat (num_queues vs + 2) <= j -> vq vs j = None).
Proof.
  intros Hrun.
  destruct (@pci_init_returned World qt q _ vs Hrun)
    as (d & n & qs & cmd & Hlog & Hcmd & Hcmdi & _ & Hn & Hnum & Hqs
        & Hnone & Hmap).
  rewrite Hnum. split; [exact Hn|].
  eexists. split; [exact Hlog|].
  rewrite !set_up_indexes_app, !set_up_app.
  rewrite set_up_indexes_setup_events, set_up_setup_events, Hcmd, Hcmdi.
  rewrite <- Hqs. cbn [probe_events set_up set_up_indexes flat_map app].
  rewrite !app_nil_r.
  split; [reflexivity|]. split; [exact Hmap | exact Hnone].
Qed.

Lemma pci_init_sets_up_queues_witness :
  (num_queues small_init_vs < MAX_NUM_QUEUES)%Z /\
  exists ev,
    qlog (snd small_init) = qlog small_guest_start ++ ev /\
    set_up_indexes ev
    = map Z.of_nat (seq 0 (Z.to_nat (num_queues small_init_vs + 2))) /\
    map (vq small_init_vs)
      (seq 0 (Z.to_nat (num_queues small_init_vs + 2)))
    = map Some (set_up ev) /\
    (forall j, Z.to_nat (num_queues small_init_vs + 2) <= j ->
               vq small_init_vs j = None).
Proof.
  apply (@pci_init_sets_up_queues Z (small_guest 1 2) small_guest_start
           (snd small_init) small_init_vs).
  vm_compute. reflexivity.
Defined.

(** X16.  The TEST UNIT READY that [qvirtio_scsi_pci_init] sends goes
    on [vs->vq[2]], in two descriptors.  The assertion bounds
    [num_queues] from above only: that slot holds a queue exactly when
    the device reported at least one request queue, and is NULL when it
    reported none (or a value that is negative as an [int]). *)
Theorem pci_init_command_queue (World : Type) (qt : Qtest World)
    (q q' : QState World) (vs : QVirtIOSCSI) :
  qvirtio_scsi_pci_init qt q = (QVal vs, q') ->
  (exists ev,
     qlog q' = qlog q ++ ev /\ add_queues ev = [vq vs 2; vq vs 2]) /\
  (vq vs 2 <> None <-> (1 <= num_queues vs)%Z).
Proof.
  intros Hrun.
  destruct (@pci_init_returned World qt q _ vs Hrun)
    as (d & n & qs & cmd & Hlog & _ & _ & Hadd & Hn & Hnum & Hqs
        & Hnone & Hmap).
  split.
  - eexists. split; [exact Hlog|].
    rewrite !add_queues_app, add_queues_setup_events, Hadd.
    reflexivity.
  - rewrite Hnum.
    destruct qs as [|v0 [|v1 [|v2 qs]]]; cbn [length] in Hqs, Hnone, Hmap.
    + rewrite (Hnone 2) by lia. split; [congruence | lia].
    + rewrite (Hnone 2) by lia. split; [congruence | lia].
    + rewrite (Hnone 2) by lia. split; [congruence | lia].
    + cbn [seq map] in Hmap. injection Hmap as _ _ H2 _.
      rewrite H2. split; [lia | discriminate].
Qed.

Lemma pci_init_command_queue_witness :
  (exists ev,
     qlog (snd small_init) = qlog small_guest_start ++ ev /\
     add_queues ev = [vq small_init_vs 2; vq small_init_vs 2]) /\
  (vq small_init_vs 2 <> None <-> (1 <= num_queues small_init_vs)%Z).
Proof.
  apply (@pci_init_command_queue Z (small_guest 1 2) small_guest_start
           (snd small_init) small_init_vs).
  vm_compute. reflexivity.
Defined.

(** X17.  [qvirtio_scsi_pci_free] undoes [qvirtio_scsi_pci_init]: on
    the structure that function returned it stays inside [vs->vq] and
    passes to [qvirtqueue_cleanup] exactly the queues
    [qvirtqueue_setup] returned, in the order they were set up. *)
Theorem pci_free_cleans_what_init_set_up (World : Type) (qt : Qtest World)
    (q q1 q2 : QState World) (vs : QVirtIOSCSI) :
  qvirtio_scsi_pci_init qt q = (QVal vs, q1) ->
  exists q3 ev1 ev3,
    qvirtio_scsi_pci_free qt vs q2 = (QVal tt, q3) /\
    qlog q1 = qlog q ++ ev1 /\
    qlog q3 = qlog q2 ++ ev3 /\
    cleaned ev3 = map Some (set_up ev1).
Proof.
  intros Hrun.
  destruct (@pci_init_returned World qt q _ vs Hrun)
    as (d & n & qs & cmd & Hlog & Hcmd & _ & _ & Hn & Hnum & Hqs
        & Hnone & Hmap).
  assert (Hle : (num_queues vs <= MAX_NUM_QUEUES)%Z) by lia.
  destruct (pci_free_run qt vs q2 Hle) as (w3 & E3).
  eexists; eexists; eexists.
  split; [exact E3|]. split; [exact Hlog|]. split; [reflexivity|].
  rewrite cleaned_app, cleaned_cleanup_events.
  rewrite !set_up_app, set_up_setup_events, Hcmd.
  cbn [probe_events release_events set_up cleaned flat_map app].
  rewrite !app_nil_r.
  rewrite Hnum, <- Hqs. exact Hmap.
Qed.

Lemma pci_free_cleans_what_init_set_up_witness :
  exists q3 ev1 ev3,
    qvirtio_scsi_pci_free (small_guest 1 2) small_init_vs (snd small_init)
    = (QVal tt, q3) /\
    qlog (snd small_init) = qlog small_guest_start ++ ev1 /\
    qlog q3 = qlog (snd small_init) ++ ev3 /\
    cleaned ev3 = map Some (set_up ev1).
Proof.
  apply (@pci_free_cleans_what_init_set_up Z (small_guest 1 2)
           small_guest_start (snd small_init) (snd small_init)
           small_init_vs).
  vm_compute. reflexivity.
Defined.
